(** * Excel comparison tool: the row-reconciliation core

    A shallow embedding of [excel_tool/excel_comparator_india.py] and of the
    helper copies in [excel_tool/utils.py]: value normalisation, tolerant
    equality, row keys, the two row matchers, the per-sheet driver and the
    orchestrator that isolates per-sheet failures.

    The file has three parts: the embedding, in the order of the source; the
    vocabulary of the statements, with the example inputs; the properties.

    Conventions.
    - A Python [str] is a [string] whose characters are code points below
      256; whitespace, digits and lower-casing follow Python on that range.
    - A Python [float] is an IEEE-754 binary64 value, [spec_float] with
      precision 53 and maximal exponent 1024.
    - A Python [int] is a [Z].
    - Code that may raise lives in the [result] monad; [try]/[except] is a
      [match] on [Raise].
    - An input workbook is known by what the two readers return on it; the
      date parser of pandas is a parameter.  A cell has the type under which
      the code meets it, and a row is the same whether [iterrows] or [df.loc]
      hands it out.
    - Of the output workbook the model keeps the titles of the sheets, with
      the checks openpyxl makes on a new title and on saving; the renaming
      openpyxl applies to a repeated title is a parameter.  The calls that
      style and fill the sheets are left out: the model describes the runs
      in which the workbook writer accepts every cell. *)

From Stdlib Require Import ZArith List String Ascii Bool Lia.
From Stdlib Require Import SpecFloat DecimalString Sorted.
Import ListNotations.

Open Scope string_scope.
Open Scope Z_scope.

(** ** Exceptions *)

Inductive exn : Type :=
| OverflowError (msg : string)
| ValueError (msg : string)
| KeyError (key : string)
| IndexError (msg : string)
| ReadError (msg : string).

Inductive result (A : Type) : Type :=
| Ok (a : A)
| Raise (e : exn).

Arguments Ok {A} a.
Arguments Raise {A} e.

Definition bind {A B : Type} (c : result A) (k : A -> result B) : result B :=
  match c with
  | Ok a => k a
  | Raise e => Raise e
  end.

Notation "x <- c ;; k" := (bind c (fun x => k))
  (at level 61, c at next level, right associativity).

(** [str(e)]: a [KeyError] prints the repr of its key. *)
Definition exn_str (e : exn) : string :=
  match e with
  | OverflowError m => m
  | ValueError m => m
  | KeyError k => "'" ++ k ++ "'"
  | IndexError m => m
  | ReadError m => m
  end.

(** ** Python strings *)

Module PyStr.

Definition code (c : ascii) : N := N_of_ascii c.

(** [str.isspace] on one character. *)
Definition isspace (c : ascii) : bool :=
  let n := code c in
  ((9 <=? n) && (n <=? 13) || (28 <=? n) && (n <=? 32)
   || (n =? 133) || (n =? 160))%N.

(** [\d] of the [re] module on this range. *)
Definition isdigit (c : ascii) : bool :=
  let n := code c in ((48 <=? n) && (n <=? 57))%N.

Definition digit_val (c : ascii) : Z := Z.of_N (code c) - 48.

Fixpoint lstrip (s : string) : string :=
  match s with
  | EmptyString => EmptyString
  | String c s' => if isspace c then lstrip s' else s
  end.

Fixpoint rstrip (s : string) : string :=
  match s with
  | EmptyString => EmptyString
  | String c s' =>
      match rstrip s' with
      | EmptyString => if isspace c then EmptyString else String c EmptyString
      | r => String c r
      end
  end.

Definition strip (s : string) : string := rstrip (lstrip s).

Definition startswith_char (c : ascii) (s : string) : bool :=
  match s with
  | String c' _ => Ascii.eqb c c'
  | EmptyString => false
  end.

Fixpoint endswith_char (c : ascii) (s : string) : bool :=
  match s with
  | EmptyString => false
  | String c' EmptyString => Ascii.eqb c c'
  | String _ s' => endswith_char c s'
  end.

Fixpoint drop_last (s : string) : string :=
  match s with
  | EmptyString => EmptyString
  | String _ EmptyString => EmptyString
  | String c s' => String c (drop_last s')
  end.

(** [s[1:-1]] *)
Definition slice_1_m1 (s : string) : string :=
  match s with
  | EmptyString => EmptyString
  | String _ s' => drop_last s'
  end.

Fixpoint filter (keep : ascii -> bool) (s : string) : string :=
  match s with
  | EmptyString => EmptyString
  | String c s' => if keep c then String c (filter keep s') else filter keep s'
  end.

(** [s.replace(",", "")] *)
Definition remove_commas (s : string) : string :=
  filter (fun c => negb (Ascii.eqb c ",")) s.

(** [re.sub(r"[^\d\.\-]+", "", s)]: every run of characters outside the
    class is deleted, so exactly the characters of the class remain. *)
Definition keep_numeric_chars (s : string) : string :=
  filter (fun c => isdigit c || Ascii.eqb c "." || Ascii.eqb c "-") s.

Definition lower_char (c : ascii) : ascii :=
  let n := code c in
  if ((65 <=? n) && (n <=? 90)
      || (192 <=? n) && (n <=? 222) && negb (n =? 215))%N
  then ascii_of_N (n + 32) else c.

Fixpoint lower (s : string) : string :=
  match s with
  | EmptyString => EmptyString
  | String c s' => String (lower_char c) (lower s')
  end.

Fixpoint contains (needle s : string) : bool :=
  match s with
  | EmptyString => String.eqb needle EmptyString
  | String _ s' => String.prefix needle s || contains needle s'
  end.

(** [str(z)] for an [int]. *)
Definition of_Z (z : Z) : string := NilZero.string_of_int (Z.to_int z).

Fixpoint repeat_char (c : ascii) (n : nat) : string :=
  match n with
  | O => EmptyString
  | S n' => String c (repeat_char c n')
  end.

Fixpoint take (n : nat) (s : string) : string :=
  match n, s with
  | S n', String c s' => String c (take n' s')
  | _, _ => EmptyString
  end.

Fixpoint drop (n : nat) (s : string) : string :=
  match n, s with
  | S n', String _ s' => drop n' s'
  | _, _ => s
  end.

End PyStr.

(** ** Python floats *)

Module PyFloat.

Definition prec : Z := 53.
Definition emax : Z := 1024.

Definition float : Type := spec_float.

(** The binary64 value nearest to [n / d] (ties to even), for [n, d > 0]. *)
Definition of_ratio (neg : bool) (n d : Z) : float :=
  let '(mz, ez, lz) := SFdiv_core_binary prec emax n 0 d 0 in
  binary_round_aux prec emax neg mz ez lz.

(** [float(z)] for an [int]: correctly rounded, [OverflowError] beyond the
    largest finite value. *)
Definition of_Z (z : Z) : result float :=
  match binary_normalize prec emax z 0 false with
  | S754_infinity _ => Raise (OverflowError "int too large to convert to float")
  | f => Ok f
  end.

(** [int(f)]: truncation toward zero; infinities and NaN raise. *)
Definition to_Z (f : float) : result Z :=
  match f with
  | S754_zero _ => Ok 0
  | S754_finite s m e =>
      let a := if 0 <=? e then Z.pos m * 2 ^ e else Z.pos m / 2 ^ (- e) in
      Ok (if s then - a else a)
  | S754_infinity _ => Raise (OverflowError "cannot convert float infinity to integer")
  | S754_nan => Raise (ValueError "cannot convert float NaN to integer")
  end.

Definition is_nan (f : float) : bool :=
  match f with S754_nan => true | _ => false end.

(** Leading decimal digits of [s]: accumulated value, digit count and the
    unread rest. *)
Fixpoint read_digits (s : string) (acc : Z) (cnt : nat) : Z * nat * string :=
  match s with
  | String c s' =>
      if PyStr.isdigit c
      then read_digits s' (10 * acc + PyStr.digit_val c) (S cnt)
      else (acc, cnt, s)
  | EmptyString => (acc, cnt, s)
  end.

(** Unsigned decimal [ddd], [ddd.], [ddd.ddd] or [.ddd]: the digits read as
    one integer and the number of fractional digits. *)
Definition read_decimal (s : string) : option (Z * nat) :=
  let '(n1, c1, r1) := read_digits s 0 O in
  match r1 with
  | EmptyString => if Nat.eqb c1 0 then None else Some (n1, O)
  | String c r2 =>
      if Ascii.eqb c "."
      then let '(n2, c2, r3) := read_digits r2 n1 O in
           match r3 with
           | EmptyString => if Nat.eqb (c1 + c2) 0 then None else Some (n2, c2)
           | _ => None
           end
      else None
  end.

(** [float(s)] for a text [s] over the alphabet [0-9 . -], which is all
    that [re.sub] leaves in [coerce_numeric]: an optional sign followed by
    an unsigned decimal; anything else is a [ValueError]. *)
Definition of_numeric_text (s : string) : result float :=
  let '(neg, body) :=
    match s with
    | String c r => if Ascii.eqb c "-" then (true, r) else (false, s)
    | EmptyString => (false, s)
    end in
  match read_decimal body with
  | Some (n, k) =>
      Ok (if n =? 0 then S754_zero neg
          else of_ratio neg n (10 ^ Z.of_nat k))
  | None => Raise (ValueError "could not convert string to float")
  end.

(** [x - y] *)
Definition sub (x y : float) : float := SFsub prec emax x y.

(** *** [repr(f)], which is also [str(f)]

    The shortest decimal that reads back as [f], the nearest such when
    several have that length, printed in fixed notation when the decimal
    point falls within [-4 < decpt <= 16] and in exponent notation
    otherwise. *)

(** [n / d] rounded to the nearest integer, ties to even. *)
Definition div_nearest_even (n d : Z) : Z :=
  let q := n / d in
  let r := n mod d in
  match 2 * r ?= d with
  | Lt => q
  | Gt => q + 1
  | Eq => if Z.even q then q else q + 1
  end.

(** The [k] with [10^k <= n / d < 10^(k+1)], searched upward from [k]. *)
Fixpoint log10_up (fuel : nat) (n d k : Z) : Z :=
  match fuel with
  | O => k
  | S fuel' => if d * 10 <=? n then log10_up fuel' n (d * 10) (k + 1) else k
  end.

Fixpoint log10_down (fuel : nat) (n d k : Z) : Z :=
  match fuel with
  | O => k
  | S fuel' => if n <? d then log10_down fuel' (n * 10) d (k - 1) else k
  end.

Definition log10_floor (n d : Z) : Z :=
  if d <=? n then log10_up 400 n d 0 else log10_down 400 n d 0.

(** [digits * 10^p] as a float. *)
Definition of_scaled (neg : bool) (digits p : Z) : float :=
  if 0 <=? p then of_ratio neg (digits * 10 ^ p) 1
  else of_ratio neg digits (10 ^ (- p)).

Fixpoint strip_zeros (fuel : nat) (digits p : Z) : Z * Z :=
  match fuel with
  | O => (digits, p)
  | S fuel' =>
      if (digits mod 10 =? 0) && negb (digits =? 0)
      then strip_zeros fuel' (digits / 10) (p + 1)
      else (digits, p)
  end.

(** [digits * 10^p] reads back as the finite float [f]. *)
Definition reads_back (f : float) (digits p : Z) : bool :=
  match f, of_scaled false digits p with
  | S754_finite _ m e, S754_finite _ m' e' => Pos.eqb m m' && (e =? e')
  | _, _ => false
  end.

(** Tries [n], [n+1], ... significant digits; the answer is [(digits, p)]
    with value [digits * 10^p].  With [n] digits the two decimals around the
    float are tried, the nearer first: next to a power of two the farther one
    may read back when the nearer does not.  Seventeen digits always
    suffice. *)
Fixpoint shortest (fuel : nat) (f : float) (num den k n : Z) : Z * Z :=
  let p := k - n + 1 in
  let scaled_num := if 0 <=? p then num else num * 10 ^ (- p) in
  let scaled_den := if 0 <=? p then den * 10 ^ p else den in
  let digits := div_nearest_even scaled_num scaled_den in
  let below := scaled_num / scaled_den in
  let other := if digits =? below then below + 1 else below in
  match fuel with
  | O => (digits, p)
  | S fuel' =>
      if reads_back f digits p then (digits, p)
      else if reads_back f other p then (other, p)
      else shortest fuel' f num den k (n + 1)
  end.

Definition format_short (digits p : Z) : string :=
  let ds := PyStr.of_Z digits in
  let n := Z.of_nat (String.length ds) in
  let decpt := p + n in
  if (decpt <=? -4) || (16 <? decpt) then
    let ex := decpt - 1 in
    let mant :=
      match ds with
      | String c EmptyString => ds
      | String c rest => String c (String "." rest)
      | EmptyString => ds
      end in
    let exs := PyStr.of_Z (Z.abs ex) in
    mant ++ "e" ++ (if ex <? 0 then "-" else "+")
         ++ (if Z.abs ex <? 10 then "0" else "") ++ exs
  else if decpt <=? 0 then
    "0." ++ PyStr.repeat_char "0" (Z.to_nat (- decpt)) ++ ds
  else if n <=? decpt then
    ds ++ PyStr.repeat_char "0" (Z.to_nat (decpt - n)) ++ ".0"
  else
    PyStr.take (Z.to_nat decpt) ds ++ "." ++ PyStr.drop (Z.to_nat decpt) ds.

Definition repr (f : float) : string :=
  match f with
  | S754_nan => "nan"
  | S754_infinity s => if s then "-inf" else "inf"
  | S754_zero s => if s then "-0.0" else "0.0"
  | S754_finite s m e =>
      let num := if 0 <=? e then Z.pos m * 2 ^ e else Z.pos m in
      let den := if 0 <=? e then 1 else 2 ^ (- e) in
      let k := log10_floor num den in
      let '(d0, p0) := shortest 16 f num den k 1 in
      let '(digits, p) := strip_zeros 20 d0 p0 in
      (if s then "-" else "") ++ format_short digits p
  end.

End PyFloat.

(** ** Cell values

    What a cell of a pandas row can hold.  [VNone] stands for every missing
    marker ([None], [NaN], [NaT]); a [VFloat] that is NaN is missing as well.
    A numpy float is a Python [float].  A numpy integer or boolean is none
    of [int], [float], [bool] for [isinstance]; like a datetime or a time,
    the code sees it only through its [str()], and it is a [VOther]. *)

Inductive value : Type :=
| VNone
| VBool (b : bool)
| VInt (z : Z)
| VFloat (f : PyFloat.float)
| VStr (s : string)
| VOther (text : string).

(** [pd.isna(v) or v is None] *)
Definition isna (v : value) : bool :=
  match v with
  | VNone => true
  | VFloat f => PyFloat.is_nan f
  | _ => false
  end.

(** [str(v)] *)
Definition py_str (v : value) : string :=
  match v with
  | VNone => "None"
  | VBool b => if b then "True" else "False"
  | VInt z => PyStr.of_Z z
  | VFloat f => PyFloat.repr f
  | VStr s => s
  | VOther t => t
  end.

(** What the structured output holds after [norm_for_json]. *)
Inductive json : Type :=
| JStr (s : string)
| JInt (z : Z)
| JFloat (f : PyFloat.float)
| JBool (b : bool).

(** A pandas row ([Series]): index labels with their cells, in column order.
    Labels are unique, pandas renames repeated headers on reading. *)
Definition Series : Type := list (string * value).

Record DataFrame : Type := mkDataFrame {
  df_columns : list string;
  df_rows : list Series
}.

Fixpoint series_get (row : Series) (col : string) : result value :=
  match row with
  | [] => Raise (KeyError col)
  | (c, v) :: rest => if String.eqb c col then Ok v else series_get rest col
  end.

Definition mem_str (x : string) (l : list string) : bool :=
  existsb (String.eqb x) l.

(** ** Value normaliser and tolerant comparator
       ([excel_comparator_india.py], lines 13-59) *)

Definition NUMERIC_TOLERANCE : Z := 1.

Definition one_float : PyFloat.float := S754_finite false 4503599627370496 (-52).

(** The text route of [coerce_numeric], lines 21-31. *)
Definition coerce_numeric_text (text : string) : option PyFloat.float :=
  let s := PyStr.strip text in
  if String.eqb s "" then None
  else
    let s := if PyStr.startswith_char "(" s && PyStr.endswith_char ")" s
             then "-" ++ PyStr.slice_1_m1 s else s in
    let s := PyStr.remove_commas s in
    let s := PyStr.keep_numeric_chars s in
    match PyFloat.of_numeric_text s with
    | Ok f => Some f
    | Raise _ => None
    end.

Definition coerce_numeric (v : value) : result (option PyFloat.float) :=
  if isna v then Ok None
  else
    match v with
    | VBool b => Ok (Some (if b then one_float else S754_zero false))
    | VInt z => f <- PyFloat.of_Z z ;; Ok (Some f)
    | VFloat f => Ok (Some f)
    | _ => Ok (coerce_numeric_text (py_str v))
    end.

Definition to_int_or_none (v : value) : result (option Z) :=
  num <- coerce_numeric v ;;
  match num with
  | None => Ok None
  | Some f =>
      match PyFloat.to_Z f with
      | Ok z => Ok (Some z)
      | Raise _ => Ok None
      end
  end.

Definition norm_text (v : value) : string :=
  if isna v then "" else PyStr.strip (py_str v).

Definition values_equal (orig_val web_val : value) (tol : Z) : result bool :=
  oi <- to_int_or_none orig_val ;;
  wi <- to_int_or_none web_val ;;
  match oi, wi with
  | Some oi, Some wi => Ok (Z.abs (wi - oi) <=? tol)
  | _, _ => Ok (String.eqb (norm_text orig_val) (norm_text web_val))
  end.

Definition values_different (orig_val web_val : value) (tol : Z) : result bool :=
  eq <- values_equal orig_val web_val tol ;;
  Ok (negb eq).

(** ** Row keys (lines 62-82) *)

Inductive key_part : Type :=
| KNum (iv : Z)
| KStr (sv : string).

Definition key_part_eqb (a b : key_part) : bool :=
  match a, b with
  | KNum x, KNum y => x =? y
  | KStr x, KStr y => String.eqb x y
  | _, _ => false
  end.

Definition row_key_t : Type := list key_part.

Fixpoint key_eqb (a b : row_key_t) : bool :=
  match a, b with
  | [], [] => true
  | x :: a', y :: b' => key_part_eqb x y && key_eqb a' b'
  | _, _ => false
  end.

(** The loop of [row_key] over [row.index]; [key_parts] is the list built
    so far.  The length test comes after the append, as in the source. *)
Fixpoint row_key_loop (cols : Series) (key_parts : row_key_t) (max_parts : nat)
  : result row_key_t :=
  match cols with
  | [] => Ok key_parts
  | (_, cell) :: rest =>
      iv <- to_int_or_none cell ;;
      let key_parts :=
        match iv with
        | Some iv => (key_parts ++ [KNum iv])%list
        | None =>
            let sv := norm_text cell in
            if negb (String.eqb sv "") then (key_parts ++ [KStr (PyStr.lower sv)])%list
            else key_parts
        end in
      if Nat.leb max_parts (List.length key_parts) then Ok key_parts
      else row_key_loop rest key_parts max_parts
  end.

Definition row_key (row : Series) (max_parts : nat) : result row_key_t :=
  row_key_loop row [] max_parts.

(** A [dict] from row keys to lists of row positions, in insertion order. *)
Definition key_index : Type := list (row_key_t * list nat).

(** [idx.setdefault(k, []).append(i)] *)
Fixpoint setdefault_append (idx : key_index) (k : row_key_t) (i : nat) : key_index :=
  match idx with
  | [] => [(k, [i])]
  | (k', l) :: rest =>
      if key_eqb k' k then (k', (l ++ [i])%list) :: rest
      else (k', l) :: setdefault_append rest k i
  end.

(** [idx.get(k, [])] *)
Fixpoint index_get (idx : key_index) (k : row_key_t) : list nat :=
  match idx with
  | [] => []
  | (k', l) :: rest => if key_eqb k' k then l else index_get rest k
  end.

Fixpoint build_key_index_loop (rows : list Series) (i : nat) (idx : key_index)
         (max_parts : nat) : result key_index :=
  match rows with
  | [] => Ok idx
  | row :: rest =>
      k <- row_key row max_parts ;;
      build_key_index_loop rest (S i) (setdefault_append idx k i) max_parts
  end.

Definition build_key_index (df : DataFrame) (max_parts : nat) : result key_index :=
  build_key_index_loop (df_rows df) O [] max_parts.

(** ** Output normalisation (lines 109-117) *)

Definition norm_for_json (v : value) : json :=
  if isna v then JStr ""
  else
    match v with
    | VBool b => JBool b
    | VInt z => JInt z
    | VFloat f => JFloat f
    | _ => JStr (py_str v)
    end.

(** ** Rows of the structured output

    The main function of [excel_comparator_india.py] (lines 140-707) writes
    four lists per sheet.  A sheet that has an "Account Number" column is
    reported with three output columns per input column (original, website,
    diff); every other sheet with the input columns and a row status. *)

Inductive header_mode : Type :=
| Tripled
| Simple.

(** [make_tripled_headers] (lines 257-264) and [make_simple_headers]
    (lines 283-288): the header row each of the four lists starts with. *)
Definition make_headers (mode : header_mode) (common_cols : list string) : list json :=
  match mode with
  | Tripled =>
      flat_map (fun col => [JStr (col ++ " (Original)");
                            JStr (col ++ " (Website)");
                            JStr (col ++ " (Diff)")]) common_cols
  | Simple => (map JStr common_cols ++ [JStr "Row Status"])%list
  end.

(** [[norm_for_json(row[col]) for col in common_cols]] *)
Fixpoint row_values (common_cols : list string) (row : Series) : result (list json) :=
  match common_cols with
  | [] => Ok []
  | col :: rest =>
      v <- series_get row col ;;
      vs <- row_values rest row ;;
      Ok (norm_for_json v :: vs)
  end.

(** Lines 333-339, 435-442 (tripled) and 525 (simple). *)
Definition render_only_orig (mode : header_mode) (common_cols : list string)
           (orig_row : Series) : result (list json) :=
  vs <- row_values common_cols orig_row ;;
  Ok match mode with
     | Tripled => flat_map (fun o_val => [o_val; JStr ""; JStr "Only in Original"]) vs
     | Simple => (vs ++ [JStr "Only in Original"])%list
     end.

(** Lines 394-398, 499-506 (tripled) and 567 (simple). *)
Definition render_only_web (mode : header_mode) (common_cols : list string)
           (web_row : Series) : result (list json) :=
  vs <- row_values common_cols web_row ;;
  Ok match mode with
     | Tripled => flat_map (fun w_val => [JStr ""; w_val; JStr "Only in Website"]) vs
     | Simple => (vs ++ [JStr "Only in Website"])%list
     end.

(** Lines 348-355, 452-459 (tripled) and 537 (simple). *)
Definition render_common (mode : header_mode) (common_cols : list string)
           (orig_row : Series) : result (list json) :=
  vs <- row_values common_cols orig_row ;;
  Ok match mode with
     | Tripled => flat_map (fun val => [val; val; JStr ""]) vs
     | Simple => (vs ++ [JStr "Common"])%list
     end.

(** [all(values_equal(orig_row[col], web_row[col]) for col in common_cols)]:
    the generator stops at the first column that differs. *)
Fixpoint all_values_equal (common_cols : list string) (orig_row web_row : Series)
  : result bool :=
  match common_cols with
  | [] => Ok true
  | col :: rest =>
      o_val <- series_get orig_row col ;;
      w_val <- series_get web_row col ;;
      eq <- values_equal o_val w_val NUMERIC_TOLERANCE ;;
      if eq then all_values_equal rest orig_row web_row else Ok false
  end.

(** The diff cell of one column, lines 365-372: empty when the column is
    tolerant-equal, [w_num - o_num] when both sides are numeric, the marker
    otherwise. *)
Definition diff_value (is_diff : bool) (o_val w_val : value) : result value :=
  if is_diff then
    o_num <- coerce_numeric o_val ;;
    w_num <- coerce_numeric w_val ;;
    match o_num, w_num with
    | Some o_num, Some w_num => Ok (VFloat (PyFloat.sub w_num o_num))
    | _, _ => Ok (VStr "DIFF")
    end
  else Ok (VStr "").

(** Lines 359-385 and 463-487: the triples of a differing row and
    [row_diffs_here]. *)
Fixpoint diff_triples (common_cols : list string) (orig_row web_row : Series)
  : result (list json * Z) :=
  match common_cols with
  | [] => Ok ([], 0)
  | col :: rest =>
      o_val <- series_get orig_row col ;;
      w_val <- series_get web_row col ;;
      is_diff <- values_different o_val w_val NUMERIC_TOLERANCE ;;
      diff_val <- diff_value is_diff o_val w_val ;;
      tl <- diff_triples rest orig_row web_row ;;
      Ok (norm_for_json o_val :: norm_for_json w_val :: norm_for_json diff_val :: fst tl,
          (if is_diff then 1 else 0) + snd tl)
  end.

(** Lines 544-552: the original values of a differing row and
    [row_diffs_here]. *)
Fixpoint diff_simple (common_cols : list string) (orig_row web_row : Series)
  : result (list json * Z) :=
  match common_cols with
  | [] => Ok ([], 0)
  | col :: rest =>
      o_val <- series_get orig_row col ;;
      w_val <- series_get web_row col ;;
      is_diff <- values_different o_val w_val NUMERIC_TOLERANCE ;;
      tl <- diff_simple rest orig_row web_row ;;
      Ok (norm_for_json o_val :: fst tl, (if is_diff then 1 else 0) + snd tl)
  end.

Definition render_diff (mode : header_mode) (common_cols : list string)
           (orig_row web_row : Series) : result (list json * Z) :=
  match mode with
  | Tripled => diff_triples common_cols orig_row web_row
  | Simple =>
      r <- diff_simple common_cols orig_row web_row ;;
      Ok ((fst r ++ [JStr "Different"])%list, snd r)
  end.

(** ** Accumulators of one sheet

    The four lists and the two counters of the source.  [matched] is ghost
    state: it records, for every row appended to a list, the positions of
    the input rows it was made from, and is read by no definition. *)

Inductive event : Type :=
| EvOnlyOrig (orig_idx : nat)
| EvCommon (orig_idx web_idx : nat)
| EvDiff (orig_idx web_idx : nat)
| EvOnlyWeb (web_idx : nat).

Record acc : Type := mkAcc {
  structured_common : list (list json);
  structured_diff : list (list json);
  structured_only_orig : list (list json);
  structured_only_web : list (list json);
  rows_compared : Z;
  diff_count : Z;
  matched : list event
}.

Definition acc_init (headers : list json) : acc :=
  mkAcc [headers] [headers] [headers] [headers] 0 0 [].

Definition add_only_orig (st : acc) (row : list json) (i : nat) : acc :=
  mkAcc (structured_common st) (structured_diff st)
        (structured_only_orig st ++ [row]) (structured_only_web st)
        (rows_compared st + 1) (diff_count st + 1)
        (matched st ++ [EvOnlyOrig i]).

Definition add_common (st : acc) (row : list json) (i j : nat) : acc :=
  mkAcc (structured_common st ++ [row]) (structured_diff st)
        (structured_only_orig st) (structured_only_web st)
        (rows_compared st) (diff_count st)
        (matched st ++ [EvCommon i j]).

Definition add_diff (st : acc) (row : list json) (row_diffs_here : Z) (i j : nat) : acc :=
  mkAcc (structured_common st) (structured_diff st ++ [row])
        (structured_only_orig st) (structured_only_web st)
        (rows_compared st + 1) (diff_count st + row_diffs_here)
        (matched st ++ [EvDiff i j]).

Definition add_only_web (st : acc) (row : list json) (j : nat) : acc :=
  mkAcc (structured_common st) (structured_diff st)
        (structured_only_orig st) (structured_only_web st ++ [row])
        (rows_compared st + 1) (diff_count st + 1)
        (matched st ++ [EvOnlyWeb j]).

(** [df.loc[i]] on a frame whose index is [0 .. n-1]. *)
Definition df_loc (df : DataFrame) (i : nat) : result Series :=
  match nth_error (df_rows df) i with
  | Some row => Ok row
  | None => Raise (KeyError (PyStr.of_Z (Z.of_nat i)))
  end.

(** A matched pair, lines 345-388, 448-492 and 535-561: a common row when
    every column is tolerant-equal, a differing row otherwise. *)
Definition compare_pair (mode : header_mode) (common_cols : list string)
           (orig_row web_row : Series) (i j : nat) (st : acc) : result acc :=
  all_same <- all_values_equal common_cols orig_row web_row ;;
  if all_same then
    row <- render_common mode common_cols orig_row ;;
    Ok (add_common st row i j)
  else
    r <- render_diff mode common_cols orig_row web_row ;;
    Ok (add_diff st (fst r) (snd r) i j).

(** ** Indexed multi-match on generic row keys
       (lines 323-405 for "Gain Summary", lines 514-574 for plain sheets) *)

(** [{row_key(r, max_parts=2) for _, r in df_orig.iterrows()}] *)
Fixpoint row_keys (rows : list Series) : result (list row_key_t) :=
  match rows with
  | [] => Ok []
  | r :: rest =>
      k <- row_key r 2 ;;
      ks <- row_keys rest ;;
      Ok (k :: ks)
  end.

Definition key_in (k : row_key_t) (keys : list row_key_t) : bool :=
  existsb (key_eqb k) keys.

(** One pass of the loop over [df_orig.iterrows()]. *)
Definition index_match_orig_step (mode : header_mode) (common_cols : list string)
           (web_key_index : key_index) (df_web : DataFrame)
           (orig_idx : nat) (orig_row : Series) (st : acc) : result acc :=
  k <- row_key orig_row 2 ;;
  let match_indices := index_get web_key_index k in
  match match_indices with
  | [] =>
      row <- render_only_orig mode common_cols orig_row ;;
      Ok (add_only_orig st row orig_idx)
  | match_idx :: _ =>
      web_row <- df_loc df_web match_idx ;;
      compare_pair mode common_cols orig_row web_row orig_idx match_idx st
  end.

Fixpoint index_match_orig_loop (mode : header_mode) (common_cols : list string)
         (web_key_index : key_index) (df_web : DataFrame)
         (rows : list Series) (orig_idx : nat) (st : acc) : result acc :=
  match rows with
  | [] => Ok st
  | orig_row :: rest =>
      st <- index_match_orig_step mode common_cols web_key_index df_web
                                  orig_idx orig_row st ;;
      index_match_orig_loop mode common_cols web_key_index df_web rest (S orig_idx) st
  end.

(** The loop over [df_web.iterrows()]: rows whose key no original row has. *)
Fixpoint index_match_web_loop (mode : header_mode) (common_cols : list string)
         (orig_keys_set : list row_key_t)
         (rows : list Series) (web_idx : nat) (st : acc) : result acc :=
  match rows with
  | [] => Ok st
  | web_row :: rest =>
      k <- row_key web_row 2 ;;
      if key_in k orig_keys_set then
        index_match_web_loop mode common_cols orig_keys_set rest (S web_idx) st
      else
        row <- render_only_web mode common_cols web_row ;;
        index_match_web_loop mode common_cols orig_keys_set rest (S web_idx)
                             (add_only_web st row web_idx)
  end.

Definition index_match (mode : header_mode) (common_cols : list string)
           (df_orig df_web : DataFrame) (st : acc) : result acc :=
  web_key_index <- build_key_index df_web 2 ;;
  orig_keys_set <- row_keys (df_rows df_orig) ;;
  st <- index_match_orig_loop mode common_cols web_key_index df_web
                              (df_rows df_orig) O st ;;
  index_match_web_loop mode common_cols orig_keys_set (df_rows df_web) O st.

(** ** Deduplicated map-match on account keys (lines 167-211, 409-509) *)

Definition acct_key (v : value) : result (option string) :=
  if isna v then Ok None
  else
    let s := PyStr.strip (py_str v) in
    if String.eqb s "" then Ok None
    else
      num <- to_int_or_none (VStr s) ;;
      match num with
      | Some num => Ok (Some (PyStr.of_Z num))
      | None => Ok (Some (PyStr.lower s))
      end.

(** [sep.join(parts)] *)
Fixpoint join (sep : string) (parts : list string) : string :=
  match parts with
  | [] => ""
  | [p] => p
  | p :: rest => p ++ sep ++ join sep rest
  end.

Section CompositeKey.

(** [pd.to_datetime(v, errors="coerce", dayfirst=True)] followed by
    [ts.date().isoformat()]: the ISO calendar date of a cell, [None] when
    pandas yields [NaT] or raises.  The date heuristics belong to pandas
    and are a parameter of the model. *)
Variable to_datetime : value -> option string.

(** The loop of [composite_acct_key]; [None] as soon as a key column is
    missing from the row or blank. *)
Fixpoint composite_parts (row : Series) (key_cols : list string)
  : result (option (list string)) :=
  match key_cols with
  | [] => Ok (Some [])
  | col :: rest =>
      if negb (mem_str col (map fst row)) then Ok None
      else
        v <- series_get row col ;;
        if isna v then Ok None
        else
          let s := PyStr.strip (py_str v) in
          if String.eqb s "" then Ok None
          else
            part <-
              (if String.eqb (PyStr.lower col) "account number" then
                 num <- to_int_or_none v ;;
                 Ok match num with
                    | Some num => PyStr.of_Z num
                    | None => PyStr.lower s
                    end
               else if PyStr.contains "date" (PyStr.lower col) then
                 Ok match to_datetime v with
                    | Some iso => iso
                    | None => PyStr.lower s
                    end
               else Ok (PyStr.lower s)) ;;
            parts <- composite_parts row rest ;;
            Ok (option_map (cons part) parts)
  end.

Definition composite_acct_key (row : Series) (key_cols : list string)
  : result (option string) :=
  parts <- composite_parts row key_cols ;;
  Ok (option_map (join "|") parts).

(** The key of a row in the map-match, lines 411-428. *)
Definition map_key (key_cols : list string) (r : Series) : result (option string) :=
  match key_cols with
  | [k] =>
      if String.eqb k "Account Number" then
        v <- series_get r "Account Number" ;;
        acct_key v
      else composite_acct_key r key_cols
  | _ => composite_acct_key r key_cols
  end.

End CompositeKey.

(** A [dict] from account keys to row positions, in insertion order. *)
Definition acct_map : Type := list (string * nat).

Fixpoint acct_map_get (m : acct_map) (k : string) : option nat :=
  match m with
  | [] => None
  | (k', i) :: rest => if String.eqb k' k then Some i else acct_map_get rest k
  end.

Section MapMatch.

(** The key function chosen for the sheet. *)
Variable keyf : Series -> result (option string).

(** [if k is not None and k not in m: m[k] = i], for every row. *)
Fixpoint build_acct_map (rows : list Series) (i : nat) (m : acct_map)
  : result acct_map :=
  match rows with
  | [] => Ok m
  | r :: rest =>
      k <- keyf r ;;
      let m :=
        match k with
        | Some k =>
            match acct_map_get m k with
            | None => (m ++ [(k, i)])%list
            | Some _ => m
            end
        | None => m
        end in
      build_acct_map rest (S i) m
  end.

(** [for acc in orig_map.keys()], lines 431-492. *)
Fixpoint map_match_orig_loop (common_cols : list string)
         (df_orig df_web : DataFrame) (web_map : acct_map)
         (entries : acct_map) (st : acc) : result acc :=
  match entries with
  | [] => Ok st
  | (acc, orig_idx) :: rest =>
      orig_row <- df_loc df_orig orig_idx ;;
      st <-
        match acct_map_get web_map acc with
        | None =>
            row <- render_only_orig Tripled common_cols orig_row ;;
            Ok (add_only_orig st row orig_idx)
        | Some web_idx =>
            web_row <- df_loc df_web web_idx ;;
            compare_pair Tripled common_cols orig_row web_row orig_idx web_idx st
        end ;;
      map_match_orig_loop common_cols df_orig df_web web_map rest st
  end.

(** [for acc in web_map.keys()], lines 494-509. *)
Fixpoint map_match_web_loop (common_cols : list string)
         (df_web : DataFrame) (orig_map : acct_map)
         (entries : acct_map) (st : acc) : result acc :=
  match entries with
  | [] => Ok st
  | (acc, web_idx) :: rest =>
      match acct_map_get orig_map acc with
      | Some _ => map_match_web_loop common_cols df_web orig_map rest st
      | None =>
          web_row <- df_loc df_web web_idx ;;
          row <- render_only_web Tripled common_cols web_row ;;
          map_match_web_loop common_cols df_web orig_map rest
                             (add_only_web st row web_idx)
      end
  end.

Definition map_match (common_cols : list string)
           (df_orig df_web : DataFrame) (st : acc) : result acc :=
  orig_map <- build_acct_map (df_rows df_orig) O [] ;;
  web_map <- build_acct_map (df_rows df_web) O [] ;;
  st <- map_match_orig_loop common_cols df_orig df_web web_map orig_map st ;;
  map_match_web_loop common_cols df_web orig_map web_map st.

End MapMatch.

(** ** Data frames: column selection and [drop_duplicates] *)

(** [df[common_cols].copy()], for [common_cols] among the columns of [df]. *)
Definition project (row : Series) (cols : list string) : Series :=
  flat_map (fun c => match series_get row c with
                     | Ok v => [(c, v)]
                     | Raise _ => []
                     end) cols.

Definition select_columns (df : DataFrame) (cols : list string) : DataFrame :=
  mkDataFrame cols (map (fun row => project row cols) (df_rows df)).

(** The integer a float equals, when it equals one. *)
Definition float_as_int (f : PyFloat.float) : option Z :=
  match f with
  | S754_zero _ => Some 0
  | S754_finite s m e =>
      if 0 <=? e then Some (if s then - (Z.pos m * 2 ^ e) else Z.pos m * 2 ^ e)
      else if Z.pos m mod 2 ^ (- e) =? 0
           then Some (if s then - (Z.pos m / 2 ^ (- e)) else Z.pos m / 2 ^ (- e))
           else None
  | _ => None
  end.

(** Equality of two cells as pandas groups them for duplicate detection:
    missing cells are alike, numbers compare by value across [bool], [int]
    and [float], texts compare exactly. *)
Definition value_eqb (a b : value) : bool :=
  if isna a then isna b
  else if isna b then false
  else
    let as_int v :=
      match v with
      | VBool b => Some (if b then 1 else 0)
      | VInt z => Some z
      | VFloat f => float_as_int f
      | _ => None
      end in
    match a, b with
    | VStr x, VStr y => String.eqb x y
    | VOther x, VOther y => String.eqb x y
    | VFloat x, VFloat y => SFeqb x y
    | _, _ =>
        match as_int a, as_int b with
        | Some x, Some y => x =? y
        | _, _ => false
        end
    end.

Fixpoint subset_values (row : Series) (subset : list string) : result (list value) :=
  match subset with
  | [] => Ok []
  | col :: rest =>
      v <- series_get row col ;;
      vs <- subset_values row rest ;;
      Ok (v :: vs)
  end.

Fixpoint values_eqb (a b : list value) : bool :=
  match a, b with
  | [], [] => true
  | x :: a', y :: b' => value_eqb x y && values_eqb a' b'
  | _, _ => false
  end.

(** Keeps a row when no earlier row has the same cells in [subset]; [seen]
    holds the cell tuples met so far. *)
Fixpoint drop_duplicates_loop (rows : list Series) (subset : list string)
         (seen : list (list value)) : result (list Series) :=
  match rows with
  | [] => Ok []
  | row :: rest =>
      vs <- subset_values row subset ;;
      if existsb (values_eqb vs) seen
      then drop_duplicates_loop rest subset seen
      else kept <- drop_duplicates_loop rest subset (seen ++ [vs])%list ;;
           Ok (row :: kept)
  end.

(** [df.drop_duplicates(subset=key_cols, keep="first").reset_index(drop=True)] *)
Definition drop_duplicates (df : DataFrame) (subset : list string) : result DataFrame :=
  rows <- drop_duplicates_loop (df_rows df) subset [] ;;
  Ok (mkDataFrame (df_columns df) rows).

(** ** One sheet (the body of the [try], lines 215-598) *)

(** What [sheets_structured[sheet_name]] holds.  The source also stores the
    title of the styled worksheet under ["_main_ws_name"]; that entry only
    serves the workbook writer and is not modelled. *)
Record sheet_entry : Type := mkEntry {
  common_rows : list (list json);
  different_rows : list (list json);
  only_in_original_rows : list (list json);
  only_in_website_rows : list (list json);
  entry_rows_compared : Z;
  entry_cells_different : Z;
  error : option string
}.

(** An input workbook, seen through the two readers the code applies to its
    bytes: [openpyxl.load_workbook] and, per sheet and header row,
    [pd.read_excel]. *)
Record document : Type := mkDocument {
  load_workbook : result unit;
  read_excel : string -> Z -> result DataFrame
}.

Definition sheet_cfg : Type := list (string * Z).

Fixpoint cfg_get (cfg : sheet_cfg) (k : string) : result Z :=
  match cfg with
  | [] => Raise (KeyError k)
  | (k', v) :: rest => if String.eqb k' k then Ok v else cfg_get rest k
  end.

Definition len (l : list (list json)) : json := JInt (Z.of_nat (List.length l)).

Section Sheet.

Variable to_datetime : value -> option string.

(** Lines 301-574: the header row, the key selection and the matcher. *)
Definition match_sheet (sheet_name : string) (common_cols : list string)
           (df_orig df_web : DataFrame) : result acc :=
  if mem_str sheet_name ["Gain Summary"; "ScheduleFA"; "transaction_details";
                         "transaction_details_by_gain"]
     && mem_str "Account Number" (df_columns df_orig)
     && mem_str "Account Number" (df_columns df_web)
  then
    let st := acc_init (make_headers Tripled common_cols) in
    let preferred_keys := ["Account Number"; "Investment Name"; "Purchase Date"] in
    let use_composite :=
      forallb (fun k => mem_str k (df_columns df_orig) && mem_str k (df_columns df_web))
              preferred_keys in
    let key_cols := if use_composite then preferred_keys else ["Account Number"] in
    let '(df_orig, df_web) :=
      match drop_duplicates df_orig key_cols, drop_duplicates df_web key_cols with
      | Ok o, Ok w => (o, w)
      | Ok o, Raise _ => (o, df_web)
      | Raise _, _ => (df_orig, df_web)
      end in
    if String.eqb sheet_name "Gain Summary" then
      index_match Tripled common_cols df_orig df_web st
    else
      map_match (map_key to_datetime key_cols) common_cols df_orig df_web st
  else
    index_match Simple common_cols df_orig df_web
                (acc_init (make_headers Simple common_cols)).

(** The entry of the sheet and its row of the summary table. *)
Definition process_sheet (original website : document)
           (sheet_name : string) (cfg : sheet_cfg)
  : result (sheet_entry * list json) :=
  header_row <- cfg_get cfg "header_row" ;;
  df_orig <- read_excel original sheet_name (header_row - 1) ;;
  header_row <- cfg_get cfg "header_row" ;;
  df_web <- read_excel website sheet_name (header_row - 1) ;;
  let common_cols :=
    List.filter (fun c => mem_str c (df_columns df_web)) (df_columns df_orig) in
  let common_cols :=
    if mem_str sheet_name ["ScheduleFA"; "transaction_details";
                           "transaction_details_by_gain"]
    then List.filter (fun c => negb (String.eqb c "Sl. No.")) common_cols
    else common_cols in
  match common_cols with
  | [] =>
      Ok (mkEntry [] [] [] [] 0 0 None,
          [JStr sheet_name; JInt 0; JInt 0; JInt 0; JInt 0; JInt 0])
  | _ =>
      let df_orig := select_columns df_orig common_cols in
      let df_web := select_columns df_web common_cols in
      st <- match_sheet sheet_name common_cols df_orig df_web ;;
      Ok (mkEntry (structured_common st) (structured_diff st)
                  (structured_only_orig st) (structured_only_web st)
                  (rows_compared st) (diff_count st) None,
          [JStr sheet_name; JInt (rows_compared st); JInt (diff_count st);
           len (structured_common st); len (structured_only_orig st);
           len (structured_only_web st)])
  end.

End Sheet.

(** ** Sheet titles (lines 120-136) *)

(** The candidate tried in round [i] of [make_safe_title]: the base cut to
    make room for the suffix [" (i)"]. *)
Definition suffixed_title (base : string) (i : Z) : string :=
  let suffix := " (" ++ PyStr.of_Z i ++ ")" in
  let keep_len := 31 - Z.of_nat (String.length suffix) in
  if 0 <? keep_len then PyStr.take (Z.to_nat keep_len) base ++ suffix
  else PyStr.take 31 suffix.

(** The [while] loop; it leaves through its condition or through the
    [break] after round 999, so 999 rounds of fuel are never used up. *)
Fixpoint make_safe_title_loop (fuel : nat) (sheetnames : list string)
         (base safe : string) (i : Z) : string :=
  match fuel with
  | O => safe
  | S fuel' =>
      if mem_str safe sheetnames then
        let safe := suffixed_title base i in
        let i := i + 1 in
        if 999 <? i then safe
        else make_safe_title_loop fuel' sheetnames base safe i
      else safe
  end.

(** [make_safe_title(title, wb)], with [wb.sheetnames] for the workbook. *)
Definition make_safe_title (title : option string) (sheetnames : list string) : string :=
  let title := match title with
               | None => ""
               | Some t => t
               end in
  let base := PyStr.take 31 title in
  make_safe_title_loop 999 sheetnames base base 1.

(** ** The output workbook

    Of [output_wb] the model keeps the titles of its sheets, in the order of
    the sheets: it is what [make_safe_title] and [create_sheet] look at, and
    what decides whether the code after the loop raises.  The cells written
    into the sheets are taken to be accepted, as in the loop. *)

(** The characters openpyxl refuses in a title: one of [\ * ? : / [ ]]. *)
Definition invalid_title_char (c : ascii) : bool :=
  existsb (Ascii.eqb c) ["\"; "*"; "?"; ":"; "/"; "["; "]"]%char.

(** The first such character of a title. *)
Fixpoint find_invalid (title : string) : option ascii :=
  match title with
  | EmptyString => None
  | String c rest => if invalid_title_char c then Some c else find_invalid rest
  end.

(** [del wb[title]]: the first sheet of that title goes. *)
Fixpoint remove_sheet (sheetnames : list string) (title : string) : list string :=
  match sheetnames with
  | [] => []
  | n :: rest => if String.eqb n title then rest else n :: remove_sheet rest title
  end.

(** [wb.save(stream)]: openpyxl refuses a workbook without a visible sheet. *)
Definition wb_save (sheetnames : list string) : result unit :=
  match sheetnames with
  | [] => Raise (IndexError "At least one sheet must be visible")
  | _ => Ok tt
  end.

Section OutputWorkbook.

(** The name openpyxl gives a new sheet whose title an existing sheet
    carries up to letter case ([avoid_duplicate_name]); the renaming belongs
    to openpyxl and is a parameter of the model. *)
Variable avoid_duplicate_name : list string -> string -> string.

(** [wb.create_sheet(title=title)], and with [index=0] when [first] is set:
    an empty title stands for the default one, a title with a refused
    character raises, and the sheet is added under the title openpyxl settles
    on. *)
Definition create_sheet (sheetnames : list string) (title : string) (first : bool)
  : result (list string) :=
  let title := if String.eqb title "" then "Sheet" else title in
  match find_invalid title with
  | Some c =>
      Raise (ValueError ("Invalid character " ++ String c "" ++ " found in sheet title"))
  | None =>
      let title := avoid_duplicate_name sheetnames title in
      Ok (if first then title :: sheetnames else (sheetnames ++ [title])%list)
  end.

(** The sheets the loop creates for one configured sheet, lines 232-233 and
    250-251, given the common columns or the exception of the reading.  The
    calls stand inside the [try]: a refused title ends the pass and leaves
    the workbook as it is. *)
Definition loop_sheets (sheetnames : list string) (sheet_name : string)
           (read : result (list string)) : list string :=
  match read with
  | Raise _ => sheetnames
  | Ok [] =>
      match create_sheet sheetnames (make_safe_title (Some sheet_name) sheetnames)
                         false with
      | Raise _ => sheetnames
      | Ok sheetnames1 =>
          match create_sheet sheetnames1
                  (make_safe_title (Some (sheet_name ++ " Common Rows")) sheetnames1)
                  false with
          | Raise _ => sheetnames1
          | Ok sheetnames2 => sheetnames2
          end
      end
  | Ok (_ :: _) =>
      match create_sheet sheetnames (make_safe_title (Some sheet_name) sheetnames)
                         false with
      | Raise _ => sheetnames
      | Ok sheetnames1 => sheetnames1
      end
  end.

(** Lines 637-648: a sheet per category that holds a row, for the two
    transaction sheets. *)
Fixpoint write_categories (sheetnames : list string) (sheet_name : string)
         (categories : list (list (list json) * string)) : result (list string) :=
  match categories with
  | [] => Ok sheetnames
  | (lst, label) :: rest =>
      sheetnames <-
        (if Nat.ltb 0 (List.length lst) then
           let cat_title :=
             make_safe_title (Some (sheet_name ++ " " ++ label)) sheetnames in
           let sheetnames :=
             if mem_str cat_title sheetnames then remove_sheet sheetnames cat_title
             else sheetnames in
           create_sheet sheetnames cat_title false
         else Ok sheetnames) ;;
      write_categories sheetnames sheet_name rest
  end.

(** One pass of the loop of lines 613-690 over the entries: the sheet of the
    common rows, the category sheets, and a sheet for the entry unless the
    styled sheet the loop made for it is in the workbook.  [main_ws_name] is
    the title kept under ["_main_ws_name"], if the entry has one. *)
Definition write_entry (sheetnames : list string) (sheet_name : string)
           (sdata : sheet_entry) (main_ws_name : option string)
  : result (list string) :=
  sheetnames <-
    (if Nat.ltb 1 (List.length (common_rows sdata)) then
       create_sheet sheetnames
         (make_safe_title (Some (sheet_name ++ " Common Rows")) sheetnames) false
     else Ok sheetnames) ;;
  sheetnames <-
    (if mem_str sheet_name ["transaction_details"; "transaction_details_by_gain"]
     then write_categories sheetnames sheet_name
            [(different_rows sdata, "Different Rows");
             (only_in_original_rows sdata, "Only in Original");
             (only_in_website_rows sdata, "Only in Website")]
     else Ok sheetnames) ;;
  let reuse :=
    match main_ws_name with
    | Some n => negb (String.eqb n "") && mem_str n sheetnames
    | None => false
    end in
  if reuse then Ok sheetnames
  else
    let safe_name := make_safe_title (Some sheet_name) sheetnames in
    let sheetnames :=
      if mem_str safe_name sheetnames then remove_sheet sheetnames safe_name
      else sheetnames in
    create_sheet sheetnames safe_name false.

(** [sdata.get("_main_ws_name")] over the titles the loop has kept. *)
Fixpoint main_get (main_names : list (string * option string)) (k : string)
  : option string :=
  match main_names with
  | [] => None
  | (k', v) :: rest => if String.eqb k' k then v else main_get rest k
  end.

Fixpoint write_entries (sheetnames : list string)
         (entries : list (string * sheet_entry))
         (main_names : list (string * option string)) : result (list string) :=
  match entries with
  | [] => Ok sheetnames
  | (sheet_name, sdata) :: rest =>
      sheetnames <- write_entry sheetnames sheet_name sdata
                                (main_get main_names sheet_name) ;;
      write_entries sheetnames rest main_names
  end.

(** Lines 613-700: the sheets of the entries, the summary sheet in front,
    and the save. *)
Definition write_workbook (sheetnames : list string)
           (entries : list (string * sheet_entry))
           (main_names : list (string * option string)) : result unit :=
  sheetnames <- write_entries sheetnames entries main_names ;;
  sheetnames <- create_sheet sheetnames (make_safe_title (Some "Summary") sheetnames)
                             true ;;
  wb_save sheetnames.

End OutputWorkbook.

(** ** The orchestrator (lines 140-165, 213-214, 600-707) *)

Definition sheets_config_t : Type := list (string * sheet_cfg).

Definition default_sheets_config : sheets_config_t :=
  [("Gain Summary", [("header_row", 2); ("data_start_row", 3)]);
   ("ScheduleFA", [("header_row", 8); ("data_start_row", 8)]);
   ("transaction_details", [("header_row", 2); ("data_start_row", 3)]);
   ("transaction_details_by_gain", [("header_row", 2); ("data_start_row", 3)])].

(** The returned dictionary, without the bytes of the rendered workbook. *)
Record comparison : Type := mkComparison {
  summary_rows : list (list json);
  sheets : list (string * sheet_entry)
}.

(** [d[k] = v] on a [dict] kept in insertion order. *)
Fixpoint dict_set (d : list (string * sheet_entry)) (k : string) (v : sheet_entry)
  : list (string * sheet_entry) :=
  match d with
  | [] => [(k, v)]
  | (k', v') :: rest =>
      if String.eqb k' k then (k', v) :: rest else (k', v') :: dict_set rest k v
  end.

Fixpoint dict_get (d : list (string * sheet_entry)) (k : string) : option sheet_entry :=
  match d with
  | [] => None
  | (k', v) :: rest => if String.eqb k' k then Some v else dict_get rest k
  end.

Definition summary_header : list json :=
  [JStr "Sheet"; JStr "Rows Compared"; JStr "Cells Different"; JStr "Common Rows";
   JStr "Only in Original"; JStr "Only in Website"].

(** The [except] branch, lines 600-611. *)
Definition error_entry (e : exn) : sheet_entry :=
  mkEntry [] [] [] [] 0 0 (Some (exn_str e)).

Definition error_summary_row (sheet_name : string) (e : exn) : list json :=
  [JStr sheet_name; JInt 0; JStr ("ERROR: " ++ exn_str e); JInt 0; JInt 0; JInt 0].

Section Orchestrator.

Variable to_datetime : value -> option string.
Variable avoid_duplicate_name : list string -> string -> string.

(** The entry and the summary row one sheet contributes: those of
    [process_sheet], or the error entry when it raises. *)
Definition sheet_outcome (original website : document)
           (sheet_name : string) (cfg : sheet_cfg) : sheet_entry * list json :=
  match process_sheet to_datetime original website sheet_name cfg with
  | Ok r => r
  | Raise e => (error_entry e, error_summary_row sheet_name e)
  end.

(** One pass of [for sheet_name, cfg in sheets_config.items()]. *)
Definition sheet_step (original website : document)
           (out : comparison) (item : string * sheet_cfg) : comparison :=
  let r := sheet_outcome original website (fst item) (snd item) in
  mkComparison (summary_rows out ++ [snd r])%list
               (dict_set (sheets out) (fst item) (fst r)).

(** The common columns of a sheet, lines 215-224, or the exception of its
    reading. *)
Definition common_columns (original website : document)
           (sheet_name : string) (cfg : sheet_cfg) : result (list string) :=
  header_row <- cfg_get cfg "header_row" ;;
  df_orig <- read_excel original sheet_name (header_row - 1) ;;
  header_row <- cfg_get cfg "header_row" ;;
  df_web <- read_excel website sheet_name (header_row - 1) ;;
  let common_cols :=
    List.filter (fun c => mem_str c (df_columns df_web)) (df_columns df_orig) in
  Ok (if mem_str sheet_name ["ScheduleFA"; "transaction_details";
                             "transaction_details_by_gain"]
      then List.filter (fun c => negb (String.eqb c "Sl. No.")) common_cols
      else common_cols).

(** [d[k] = v] for the titles kept under ["_main_ws_name"]. *)
Fixpoint main_set (d : list (string * option string)) (k : string) (v : option string)
  : list (string * option string) :=
  match d with
  | [] => [(k, v)]
  | (k', v') :: rest =>
      if String.eqb k' k then (k', v) :: rest else (k', v') :: main_set rest k v
  end.

(** The state of the loop over the sheets: what it returns in the end, the
    sheets of the output workbook, and the titles the entries keep. *)
Record run : Type := mkRun {
  run_out : comparison;
  run_sheetnames : list string;
  run_main : list (string * option string)
}.

(** The title an entry keeps, line 595: the one asked for the styled sheet,
    for a sheet with common columns whose pass reached the end. *)
Definition main_title (original website : document) (sheetnames : list string)
           (sheet_name : string) (cfg : sheet_cfg) : option string :=
  match common_columns original website sheet_name cfg with
  | Ok (_ :: _) =>
      let title := make_safe_title (Some sheet_name) sheetnames in
      match create_sheet avoid_duplicate_name sheetnames title false,
            process_sheet to_datetime original website sheet_name cfg with
      | Ok _, Ok _ => Some title
      | _, _ => None
      end
  | _ => None
  end.

(** One pass of the loop, with the output workbook.  The entry is the one of
    [sheet_step]: a sheet that can be read carries a name that openpyxl
    accepts as a title, so the sheets of the pass are created. *)
Definition run_step (original website : document)
           (st : run) (item : string * sheet_cfg) : run :=
  mkRun (sheet_step original website (run_out st) item)
        (loop_sheets avoid_duplicate_name (run_sheetnames st) (fst item)
                     (common_columns original website (fst item) (snd item)))
        (main_set (run_main st) (fst item)
                  (main_title original website (run_sheetnames st)
                              (fst item) (snd item))).

(** The new workbook loses its only sheet, lines 159-161: the loop starts
    without a sheet. *)
Definition run_init : run := mkRun (mkComparison [summary_header] []) [] [].

Definition compare_excel_with_gain_summary_inline_India
           (original website : document) (sheets_config : option sheets_config_t)
  : result comparison :=
  let sheets_config :=
    match sheets_config with
    | None => default_sheets_config
    | Some c => c
    end in
  _ <- load_workbook original ;;
  _ <- load_workbook website ;;
  let st := fold_left (run_step original website) sheets_config run_init in
  _ <- write_workbook avoid_duplicate_name (run_sheetnames st)
                      (sheets (run_out st)) (run_main st) ;;
  Ok (run_out st).

End Orchestrator.

(** ** [excel_tool/utils.py]

    The helpers of this file are the text of those above; the ones the
    statements are about are embedded again, next to its comparator. *)

Module Utils.

Definition NUMERIC_TOLERANCE : Z := 1.

Definition coerce_numeric (v : value) : result (option PyFloat.float) :=
  if isna v then Ok None
  else
    match v with
    | VBool b => Ok (Some (if b then one_float else S754_zero false))
    | VInt z => f <- PyFloat.of_Z z ;; Ok (Some f)
    | VFloat f => Ok (Some f)
    | _ =>
        let s := PyStr.strip (py_str v) in
        if String.eqb s "" then Ok None
        else
          let s := if PyStr.startswith_char "(" s && PyStr.endswith_char ")" s
                   then "-" ++ PyStr.slice_1_m1 s else s in
          let s := PyStr.remove_commas s in
          let s := PyStr.keep_numeric_chars s in
          match PyFloat.of_numeric_text s with
          | Ok f => Ok (Some f)
          | Raise _ => Ok None
          end
    end.

Definition to_int_or_none (v : value) : result (option Z) :=
  num <- coerce_numeric v ;;
  match num with
  | None => Ok None
  | Some f =>
      match PyFloat.to_Z f with
      | Ok z => Ok (Some z)
      | Raise _ => Ok None
      end
  end.

Definition norm_text (v : value) : string :=
  if isna v then "" else PyStr.strip (py_str v).

Definition values_equal (orig_val web_val : value) (tol : Z) : result bool :=
  oi <- to_int_or_none orig_val ;;
  wi <- to_int_or_none web_val ;;
  match oi, wi with
  | Some oi, Some wi => Ok (Z.abs (wi - oi) <=? tol)
  | _, _ => Ok (String.eqb (norm_text orig_val) (norm_text web_val))
  end.

Definition values_different (orig_val web_val : value) (tol : Z) : result bool :=
  eq <- values_equal orig_val web_val tol ;;
  Ok (negb eq).

Definition default_sheets_config : sheets_config_t :=
  [("Gain Summary", [("header_row", 2); ("data_start_row", 3)]);
   ("8938", [("header_row", 6); ("data_start_row", 7)]);
   ("FBAR", [("header_row", 2); ("data_start_row", 3)])].


End Utils.

(** ** The HTML report (lines 711-743) *)

Definition nl : string := String (ascii_of_nat 10) EmptyString.

(** [nl.join(lines)] *)
Fixpoint unlines (lines : list string) : string :=
  match lines with
  | [] => ""
  | [l] => l
  | l :: rest => l ++ nl ++ unlines rest
  end.

Definition html_head : string :=
  unlines
    [""; "    <html>"; "    <head>";
     "        <title>Excel Comparison Report</title>";
     "        <style>";
     "            body { font-family: Arial, sans-serif; margin: 20px; }";
     "            table { border-collapse: collapse; width: 100%; }";
     "            th, td { border: 1px solid #ccc; padding: 6px; text-align: left; }";
     "            th { background: #f2f2f2; }";
     "        </style>"; "    </head>"; "    <body>";
     "        <h1>Excel Comparison Report</h1>";
     "        <table>"; "            <tr>";
     "                <th>Sheet</th>";
     "                <th>Rows Compared</th>";
     "                <th>Cells Different</th>";
     "                <th>Common Rows</th>";
     "                <th>Only in Original</th>";
     "                <th>Only in Website</th>";
     "            </tr>"; "    "].

Definition html_tail : string :=
  unlines [""; "        </table>"; "    </body>"; "    </html>"; "    "].

(** [f"{cell}"] *)
Definition json_str (cell : json) : string :=
  match cell with
  | JStr s => s
  | JInt z => PyStr.of_Z z
  | JFloat f => PyFloat.repr f
  | JBool b => if b then "True" else "False"
  end.

(** ["".join(parts)] *)
Fixpoint concat_str (parts : list string) : string :=
  match parts with
  | [] => ""
  | p :: rest => p ++ concat_str rest
  end.

Definition html_row (row : list json) : string :=
  "<tr>" ++ concat_str (map (fun cell => "<td>" ++ json_str cell ++ "</td>") row)
         ++ "</tr>".

(** [write_html_report_India]; [write_html_report] of [utils.py] is the
    same text. *)
Definition write_html_report_India (summary_rows : list (list json)) : string :=
  html_head ++ concat_str (map html_row (tl summary_rows)) ++ html_tail.

(** ** The callers of the comparator (lines 746-776) *)

Section Callers.

Variable to_datetime : value -> option string.
Variable avoid_duplicate_name : list string -> string -> string.

(** [len(lst) > 1]: the list holds a row after its header. *)
Definition has_data_row (lst : list (list json)) : bool :=
  Nat.ltb 1 (List.length lst).

(** The names of the sheets that hold a differing or a one-sided row. *)
Definition compare_excel_sheets_inline_India
           (original website : document) (sheets_config : option sheets_config_t)
  : result (list string) :=
  result <- compare_excel_with_gain_summary_inline_India
              to_datetime avoid_duplicate_name original website sheets_config ;;
  Ok (map fst
          (List.filter
             (fun item =>
                has_data_row (different_rows (snd item))
                || has_data_row (only_in_original_rows (snd item))
                || has_data_row (only_in_website_rows (snd item)))
             (sheets result))).

(** What [compare_single_sheet_diff_inline_India] returns. *)
Record sheet_diff : Type := mkSheetDiff {
  sd_sheet_name : string;
  sd_common_rows : list (list json);
  sd_different_rows : list (list json);
  sd_only_in_original_rows : list (list json);
  sd_only_in_website_rows : list (list json)
}.

(** An entry, when present, is a dictionary with keys and so never falsy:
    [if not target] is the test for a sheet without entry. *)
Definition compare_single_sheet_diff_inline_India
           (original website : document) (sheet_name : string)
           (sheets_config : option sheets_config_t) : result sheet_diff :=
  result <- compare_excel_with_gain_summary_inline_India
              to_datetime avoid_duplicate_name original website sheets_config ;;
  match dict_get (sheets result) sheet_name with
  | None => Ok (mkSheetDiff sheet_name [] [] [] [])
  | Some target =>
      Ok (mkSheetDiff sheet_name (common_rows target) (different_rows target)
                      (only_in_original_rows target) (only_in_website_rows target))
  end.

End Callers.

(** * Vocabulary of the statements *)

(** ** Exact comparison of two floats

    [float_scaled f k] is the integer [f * 2^k], for a finite [f] and a [k]
    that clears its exponent; [exact_absdiff_le x y tol] says that the real
    numbers [x] and [y] differ by at most [tol]. *)

Definition is_finite (f : PyFloat.float) : bool :=
  match f with
  | S754_zero _ | S754_finite _ _ _ => true
  | _ => false
  end.

Definition float_exp (f : PyFloat.float) : Z :=
  match f with
  | S754_finite _ _ e => e
  | _ => 0
  end.

Definition float_scaled (f : PyFloat.float) (k : Z) : Z :=
  match f with
  | S754_finite s m e => if s then - (Z.pos m * 2 ^ (e + k)) else Z.pos m * 2 ^ (e + k)
  | _ => 0
  end.

Definition exact_absdiff_le (x y : PyFloat.float) (tol : Z) : Prop :=
  let k := Z.max 0 (Z.max (- float_exp x) (- float_exp y)) in
  Z.abs (float_scaled x k - float_scaled y k) <= tol * 2 ^ k.

(** A raw input that is missing, null or blank. *)
Definition missing_or_blank (v : value) : Prop :=
  isna v = true
  \/ exists s, (v = VStr s \/ v = VOther s) /\ PyStr.strip s = "".

(** 2.9 as binary64, the float Python reads from the text "2.9". *)
Definition float_2_9 : PyFloat.float := S754_finite false 6530219459687219 (-51).

(** ** Reading the ghost events

    [replay] rebuilds the accumulators of a sheet from a list of events: each
    event fetches the rows it names and appends their rendering to its list.
    A matcher whose result is the replay of its events has written nothing
    into the four lists but those rows. *)

Definition replay_event (mode : header_mode) (common_cols : list string)
           (df_orig df_web : DataFrame) (st : acc) (ev : event) : result acc :=
  match ev with
  | EvOnlyOrig i =>
      orig_row <- df_loc df_orig i ;;
      row <- render_only_orig mode common_cols orig_row ;;
      Ok (add_only_orig st row i)
  | EvCommon i j =>
      orig_row <- df_loc df_orig i ;;
      row <- render_common mode common_cols orig_row ;;
      Ok (add_common st row i j)
  | EvDiff i j =>
      orig_row <- df_loc df_orig i ;;
      web_row <- df_loc df_web j ;;
      r <- render_diff mode common_cols orig_row web_row ;;
      Ok (add_diff st (fst r) (snd r) i j)
  | EvOnlyWeb j =>
      web_row <- df_loc df_web j ;;
      row <- render_only_web mode common_cols web_row ;;
      Ok (add_only_web st row j)
  end.

Fixpoint replay (mode : header_mode) (common_cols : list string)
         (df_orig df_web : DataFrame) (evs : list event) (st : acc) : result acc :=
  match evs with
  | [] => Ok st
  | ev :: rest =>
      st <- replay_event mode common_cols df_orig df_web st ev ;;
      replay mode common_cols df_orig df_web rest st
  end.

(** The original row, and the website row, an event was made from. *)
Definition uses_orig (ev : event) (i : nat) : Prop :=
  match ev with
  | EvOnlyOrig i' | EvCommon i' _ | EvDiff i' _ => i' = i
  | EvOnlyWeb _ => False
  end.

Definition uses_web (ev : event) (j : nat) : Prop :=
  match ev with
  | EvCommon _ j' | EvDiff _ j' | EvOnlyWeb j' => j' = j
  | EvOnlyOrig _ => False
  end.

(** Row [i] carries the key [k] and no earlier row does. *)
Definition first_occurrence_of (keyf : Series -> result (option string))
           (rows : list Series) (i : nat) (k : string) : Prop :=
  exists r,
    nth_error rows i = Some r /\ keyf r = Ok (Some k)
    /\ forall i' r', (i' < i)%nat -> nth_error rows i' = Some r' ->
                     keyf r' <> Ok (Some k).

Definition first_occurrence (keyf : Series -> result (option string))
           (rows : list Series) (i : nat) : Prop :=
  exists k, first_occurrence_of keyf rows i k.


(** Some row of the output was made from original row [i], from website
    row [j]. *)
Definition appears_orig (evs : list event) (i : nat) : Prop :=
  exists ev, In ev evs /\ uses_orig ev i.

Definition appears_web (evs : list event) (j : nat) : Prop :=
  exists ev, In ev evs /\ uses_web ev j.

(** The map built from the first [n] rows: keys are unique, every entry is
    the first occurrence of its key, and a key without entry occurs in none
    of these rows. *)
Definition map_inv (keyf : Series -> result (option string))
           (rows : list Series) (m : acct_map) (n : nat) : Prop :=
  NoDup (map fst m)
  /\ (forall k p, In (k, p) m -> (p < n)%nat /\ first_occurrence_of keyf rows p k)
  /\ (forall k, acct_map_get m k = None ->
        forall p r, (p < n)%nat -> nth_error rows p = Some r ->
                    keyf r <> Ok (Some k)).

(** What the map matcher records for the entries of the original map, and
    for those of the website map. *)
Fixpoint map_orig_events_ok (web_map entries : acct_map) (evs : list event) : Prop :=
  match entries, evs with
  | [], [] => True
  | (acc, i) :: es, ev :: evs' =>
      match acct_map_get web_map acc with
      | None => ev = EvOnlyOrig i
      | Some j => ev = EvCommon i j \/ ev = EvDiff i j
      end
      /\ map_orig_events_ok web_map es evs'
  | _, _ => False
  end.

Fixpoint map_only_web_events (orig_map entries : acct_map) : list event :=
  match entries with
  | [] => []
  | (acc, j) :: es =>
      match acct_map_get orig_map acc with
      | Some _ => map_only_web_events orig_map es
      | None => EvOnlyWeb j :: map_only_web_events orig_map es
      end
  end.

Definition int_too_large : exn := OverflowError "int too large to convert to float".

(** The position, counted from [j], of the first key equal to [k]. *)
Fixpoint first_index (k : row_key_t) (keys : list row_key_t) (j : nat) : option nat :=
  match keys with
  | [] => None
  | k' :: rest => if key_eqb k' k then Some j else first_index k rest (S j)
  end.

(** What the indexed matcher records for the original rows, whose keys are
    [orig_keys] and whose positions start at [i]: "only in original" when no
    website row has the key, a pairing with the first website row that has
    it otherwise. *)
Fixpoint orig_events_ok (web_keys : list row_key_t) (i : nat)
         (orig_keys : list row_key_t) (evs : list event) : Prop :=
  match orig_keys, evs with
  | [], [] => True
  | k :: ks, ev :: evs' =>
      match first_index k web_keys O with
      | None => ev = EvOnlyOrig i
      | Some j => ev = EvCommon i j \/ ev = EvDiff i j
      end
      /\ orig_events_ok web_keys (S i) ks evs'
  | _, _ => False
  end.

(** The website rows, positions from [j], whose key no original row has. *)
Fixpoint only_web_events (orig_keys web_keys : list row_key_t) (j : nat) : list event :=
  match web_keys with
  | [] => []
  | k :: rest =>
      if key_in k orig_keys then only_web_events orig_keys rest (S j)
      else EvOnlyWeb j :: only_web_events orig_keys rest (S j)
  end.

Definition paired (i j : nat) (evs : list event) : Prop :=
  In (EvCommon i j) evs \/ In (EvDiff i j) evs.

(** No website row is paired with two original rows. *)
Definition no_candidate_reused (evs : list event) : Prop :=
  forall i i' j, paired i j evs -> paired i' j evs -> i = i'.

(** A key column that the row lacks or holds blank. *)
Definition key_column_blank (row : Series) (col : string) : Prop :=
  mem_str col (map fst row) = false
  \/ exists v, series_get row col = Ok v
               /\ (isna v = true \/ PyStr.strip (py_str v) = "").

(** The data rows of a list of the output, after its header row. *)
Definition data_rows (l : list (list json)) : list (list json) := tl l.

(** The positions, counted from [i], of the keys equal to [k]. *)
Fixpoint positions (k : row_key_t) (keys : list row_key_t) (i : nat) : list nat :=
  match keys with
  | [] => []
  | k' :: rest =>
      if key_eqb k' k then i :: positions k rest (S i) else positions k rest (S i)
  end.

(** ** Well-formed frames

    A cell converts when its numeric reading raises nothing, which only an
    integer beyond the range of a float does.  A row is well formed for the
    common columns when it holds each of them and all its cells convert. *)

Definition cell_converts (v : value) : Prop :=
  exists r, to_int_or_none v = Ok r.

Definition row_ok (common_cols : list string) (row : Series) : Prop :=
  (forall col, In col common_cols ->
               exists v, series_get row col = Ok v /\ cell_converts v)
  /\ (forall c v, In (c, v) row -> cell_converts v).

Definition frame_ok (common_cols : list string) (df : DataFrame) : Prop :=
  Forall (row_ok common_cols) (df_rows df).

(** A frame as read from a workbook: every row holds every column of the
    frame, and all its cells convert. *)
Definition read_ok (df : DataFrame) : Prop :=
  Forall (fun row =>
            (forall c, In c (df_columns df) -> exists v, series_get row c = Ok v)
            /\ (forall c v, In (c, v) row -> cell_converts v))
         (df_rows df).

(** ** Letter case and numeric characters *)

(** A text cell in lower case; every other cell as it is. *)
Definition lower_cell (v : value) : value :=
  match v with
  | VStr s => VStr (PyStr.lower s)
  | _ => v
  end.

Definition lower_row (row : Series) : Series :=
  map (fun cell => (fst cell, lower_cell (snd cell))) row.

(** The characters [coerce_numeric] keeps of a text: the digits, the dot and
    the minus sign (the comma is removed before). *)
Definition numeric_char (c : ascii) : bool :=
  (PyStr.isdigit c || Ascii.eqb c "." || Ascii.eqb c "-") && negb (Ascii.eqb c ",").

(** A text in accounting notation: in parentheses, once trimmed. *)
Definition accounting (s : string) : bool :=
  PyStr.startswith_char "(" (PyStr.strip s) && PyStr.endswith_char ")" (PyStr.strip s).

(** What a text part of a row key is: not empty, in lower case, trimmed. *)
Definition text_part_ok (p : key_part) : Prop :=
  match p with
  | KNum _ => True
  | KStr s => s <> "" /\ PyStr.lower s = s /\ PyStr.strip s = s
  end.

(** ** The output of a sheet *)

(** The test of line 301: one of the four named sheets, with an "Account
    Number" column on both sides.  Such a sheet is reported in triples. *)
Definition keyed_sheet (sheet_name : string) (df_orig df_web : DataFrame) : bool :=
  mem_str sheet_name ["Gain Summary"; "ScheduleFA"; "transaction_details";
                      "transaction_details_by_gain"]
  && mem_str "Account Number" (df_columns df_orig)
  && mem_str "Account Number" (df_columns df_web).

Definition sheet_mode (sheet_name : string) (df_orig df_web : DataFrame) : header_mode :=
  if keyed_sheet sheet_name df_orig df_web then Tripled else Simple.

(** A list of the output that starts with the header row [h] and whose other
    rows all have the width of [h]. *)
Definition headed (h : list json) (l : list (list json)) : Prop :=
  exists rows, l = h :: rows
               /\ Forall (fun row => List.length row = List.length h) rows.

(** The number of data rows of a list of the output. *)
Definition count_rows (l : list (list json)) : Z := Z.of_nat (List.length (data_rows l)).

(** What the lists and the counters of a sheet keep through a matcher. *)
Definition sheet_inv (h : list json) (ncols : nat) (st : acc) : Prop :=
  headed h (structured_common st) /\ headed h (structured_diff st)
  /\ headed h (structured_only_orig st) /\ headed h (structured_only_web st)
  /\ rows_compared st
     = count_rows (structured_diff st) + count_rows (structured_only_orig st)
       + count_rows (structured_only_web st)
  /\ rows_compared st <= diff_count st
  /\ diff_count st <= rows_compared st * Z.max 1 (Z.of_nat ncols).

(** The test of [compare_excel_sheets_inline_India] on one entry. *)
Definition reports_difference (entry : sheet_entry) : bool :=
  has_data_row (different_rows entry)
  || has_data_row (only_in_original_rows entry)
  || has_data_row (only_in_website_rows entry).

Definition lists_nonempty (st : acc) : Prop :=
  structured_common st <> [] /\ structured_diff st <> []
  /\ structured_only_orig st <> [] /\ structured_only_web st <> [].

(** The rows written so far for original rows, header rows included. *)
Definition classified (st : acc) : nat :=
  (List.length (structured_common st) + List.length (structured_diff st)
   + List.length (structured_only_orig st))%nat.

(** Accumulators that hold no differing and no one-sided row. *)
Definition nothing_to_report (h : list json) (st : acc) : Prop :=
  structured_diff st = [h] /\ structured_only_orig st = [h]
  /\ structured_only_web st = [h]
  /\ rows_compared st = 0 /\ diff_count st = 0.

(** A cell that is not a NaN float; a list without such a cell. *)
Definition not_nan (cell : json) : Prop :=
  match cell with
  | JFloat f => PyFloat.is_nan f = false
  | _ => True
  end.

Definition no_nan (l : list (list json)) : Prop := Forall (Forall not_nan) l.

Definition acc_no_nan (st : acc) : Prop :=
  no_nan (structured_common st) /\ no_nan (structured_diff st)
  /\ no_nan (structured_only_orig st) /\ no_nan (structured_only_web st).

(** ** Pairs and their columns *)

(** A common column whose two cells are tolerant-equal, or are not. *)
Definition column_equal (o w : Series) (col : string) : Prop :=
  exists ov wv, series_get o col = Ok ov /\ series_get w col = Ok wv
                /\ values_equal ov wv NUMERIC_TOLERANCE = Ok true.

Definition column_differs (o w : Series) (col : string) : Prop :=
  exists ov wv, series_get o col = Ok ov /\ series_get w col = Ok wv
                /\ values_equal ov wv NUMERIC_TOLERANCE = Ok false.

(** Every recorded pair is named as its columns say: all tolerant-equal for
    a common row, one that differs for a differing row. *)
Definition judged (common_cols : list string) (df_orig df_web : DataFrame)
           (evs : list event) : Prop :=
  forall i j,
    (In (EvCommon i j) evs ->
     exists o w, nth_error (df_rows df_orig) i = Some o
                 /\ nth_error (df_rows df_web) j = Some w
                 /\ Forall (column_equal o w) common_cols)
    /\ (In (EvDiff i j) evs ->
        exists o w, nth_error (df_rows df_orig) i = Some o
                    /\ nth_error (df_rows df_web) j = Some w
                    /\ Exists (column_differs o w) common_cols).

(** ** Example inputs *)

(** The reading of [pd.to_datetime] on sheets none of whose cells is a
    date. *)
Definition to_datetime_unparsed : value -> option string := fun _ => None.

(** The renaming of openpyxl in a workbook no two titles of which are equal
    up to letter case: none. *)
Definition title_kept : list string -> string -> string := fun _ title => title.

(** A workbook that opens and holds the given sheets. *)
Fixpoint lookup_sheet (sheets : list (string * DataFrame)) (name : string)
  : result DataFrame :=
  match sheets with
  | [] => Raise (ReadError ("Worksheet named '" ++ name ++ "' not found"))
  | (n, df) :: rest => if String.eqb n name then Ok df else lookup_sheet rest name
  end.

Definition workbook (sheets : list (string * DataFrame)) : document :=
  mkDocument (Ok tt) (fun name _ => lookup_sheet sheets name).


(** The scenario of the tolerance test: one row on each side. *)
Definition scenario_cols : list string := ["ID"; "Amount"].
Definition scenario_orig_row : Series := [("ID", VInt 100); ("Amount", VStr "1,000")].
Definition scenario_web_row : Series := [("ID", VInt 100); ("Amount", VStr "999")].
Definition scenario_orig : DataFrame := mkDataFrame scenario_cols [scenario_orig_row].
Definition scenario_web : DataFrame := mkDataFrame scenario_cols [scenario_web_row].
Definition scenario_header : list json := [JStr "ID"; JStr "Amount"; JStr "Row Status"].

(** Two original and two website rows that all share one generic key. *)
Definition dup_cols : list string := ["ID"; "Name"; "Amount"].
Definition dup_row (amount : Z) : Series :=
  [("ID", VInt 1); ("Name", VStr "x"); ("Amount", VInt amount)].
Definition dup_orig : DataFrame := mkDataFrame dup_cols [dup_row 10; dup_row 20].
Definition dup_web : DataFrame := mkDataFrame dup_cols [dup_row 10; dup_row 20].

(** A transaction sheet whose only original row has a blank investment
    name, against an empty website sheet. *)
Definition txn_cols : list string :=
  ["Account Number"; "Investment Name"; "Purchase Date"; "Amount"].
Definition txn_blank_row : Series :=
  [("Account Number", VInt 7); ("Investment Name", VNone);
   ("Purchase Date", VNone); ("Amount", VInt 10)].
Definition txn_orig : DataFrame := mkDataFrame txn_cols [txn_blank_row].
Definition txn_web : DataFrame := mkDataFrame txn_cols [].

(** An account sheet whose two original rows write the same account as a
    text and as a number. *)
Definition acct_cols : list string := ["Account Number"; "Amount"].
Definition acct_orig : DataFrame :=
  mkDataFrame acct_cols
    [[("Account Number", VStr "12"); ("Amount", VInt 5)];
     [("Account Number", VInt 12); ("Amount", VInt 7)]].

(** A "Gain Summary" sheet: two accounts of one fund on each side, all four
    rows with the generic key (fund, equity). *)
Definition gain_cols : list string := ["Investment Name"; "Type"; "Account Number"].
Definition gain_row (account : Z) : Series :=
  [("Investment Name", VStr "Fund"); ("Type", VStr "Equity");
   ("Account Number", VInt account)].
Definition gain_orig : DataFrame := mkDataFrame gain_cols [gain_row 10; gain_row 20].
Definition gain_web : DataFrame := mkDataFrame gain_cols [gain_row 10; gain_row 20].


(** A plain sheet, the scenario of the tolerance test, in two workbooks, and
    a configuration that also names a sheet neither workbook has. *)
Definition plain_original : document := workbook [("Plain", scenario_orig)].
Definition plain_website : document := workbook [("Plain", scenario_web)].
Definition plain_cfg : sheet_cfg := [("header_row", 2)].
Definition two_sheets_config : sheets_config_t :=
  [("Missing", plain_cfg); ("Plain", plain_cfg)].

(** A row without a value. *)
Definition blank_row : Series := [("ID", VNone); ("Name", VStr "  "); ("Amount", VStr "")].

(** * Properties *)

(** ** Value normaliser *)

Lemma coerce_numeric_utils_same (v : value) :
  Utils.coerce_numeric v = coerce_numeric v.
Proof.
  unfold Utils.coerce_numeric, coerce_numeric, coerce_numeric_text.
  destruct (isna v); [reflexivity|].
  destruct v; try reflexivity.
  - destruct (String.eqb (PyStr.strip (py_str (VStr s))) ""); [reflexivity|].
    destruct (PyFloat.of_numeric_text _); reflexivity.
  - destruct (String.eqb (PyStr.strip (py_str (VOther text))) ""); [reflexivity|].
    destruct (PyFloat.of_numeric_text _); reflexivity.
Qed.

Lemma to_int_or_none_utils_same (v : value) :
  Utils.to_int_or_none v = to_int_or_none v.
Proof.
  unfold Utils.to_int_or_none, to_int_or_none.
  now rewrite coerce_numeric_utils_same.
Qed.

Lemma values_equal_utils_same (a b : value) (tol : Z) :
  Utils.values_equal a b tol = values_equal a b tol.
Proof.
  unfold Utils.values_equal, values_equal.
  now rewrite !to_int_or_none_utils_same.
Qed.

Lemma coerce_numeric_blank (v : value) :
  missing_or_blank v -> coerce_numeric v = Ok None.
Proof.
  intros [Hna | (s & [-> | ->] & Hs)]; unfold coerce_numeric.
  - now rewrite Hna.
  - cbn. unfold coerce_numeric_text. now rewrite Hs.
  - cbn. unfold coerce_numeric_text. now rewrite Hs.
Qed.

(** C7. [coerce_numeric] reads the accounting notation "(1,234)" as the
    float -1234.0, returns [None] for the empty text and for "abc", and
    returns [None], raising nothing, for every missing, null or blank input.
    The copy in [utils.py] does the same. *)
Theorem coerce_numeric_accounting_and_blank :
  (exists f, coerce_numeric (VStr "(1,234)") = Ok (Some f)
             /\ PyFloat.of_Z (-1234) = Ok f /\ PyFloat.repr f = "-1234.0")
  /\ coerce_numeric (VStr "") = Ok None
  /\ coerce_numeric (VStr "abc") = Ok None
  /\ (forall v, missing_or_blank v ->
        coerce_numeric v = Ok None /\ Utils.coerce_numeric v = Ok None)
  /\ Utils.coerce_numeric (VStr "(1,234)") = coerce_numeric (VStr "(1,234)")
  /\ Utils.coerce_numeric (VStr "") = Ok None
  /\ Utils.coerce_numeric (VStr "abc") = Ok None.
Proof.
  repeat split.
  - eexists. repeat split; vm_compute; reflexivity.
  - apply coerce_numeric_blank. assumption.
  - rewrite coerce_numeric_utils_same. apply coerce_numeric_blank. assumption.
Qed.

Lemma coerce_numeric_accounting_and_blank_witness :
  missing_or_blank (VStr "  ")
  /\ coerce_numeric (VStr "  ") = Ok None
  /\ Utils.coerce_numeric (VStr "  ") = Ok None.
Proof.
  assert (H : missing_or_blank (VStr "  ")).
  { right. exists "  ". split; [now left | reflexivity]. }
  split; [exact H|].
  exact (proj1 (proj2 (proj2 (proj2 coerce_numeric_accounting_and_blank))) _ H).
Defined.

(** ** Tolerant comparator *)

Lemma of_Z_raise (z : Z) (e : exn) :
  PyFloat.of_Z z = Raise e -> e = int_too_large.
Proof.
  unfold PyFloat.of_Z, int_too_large.
  destruct (binary_normalize _ _ _ _ _); congruence.
Qed.

Lemma coerce_numeric_raise (v : value) (e : exn) :
  coerce_numeric v = Raise e -> e = int_too_large.
Proof.
  unfold coerce_numeric.
  destruct (isna v); [discriminate|].
  destruct v; try discriminate.
  destruct (PyFloat.of_Z z) eqn:E; cbn; [discriminate|].
  intros [= <-]. eapply of_Z_raise; eassumption.
Qed.

Lemma to_int_or_none_raise (v : value) (e : exn) :
  to_int_or_none v = Raise e -> e = int_too_large.
Proof.
  unfold to_int_or_none.
  destruct (coerce_numeric v) as [[f|]|e'] eqn:E; cbn.
  - destruct (PyFloat.to_Z f); discriminate.
  - discriminate.
  - intros [= <-]. eapply coerce_numeric_raise; eassumption.
Qed.

Lemma values_equal_sym (a b : value) (tol : Z) :
  values_equal a b tol = values_equal b a tol.
Proof.
  unfold values_equal.
  destruct (to_int_or_none a) as [oa|ea] eqn:Ea;
    destruct (to_int_or_none b) as [ob|eb] eqn:Eb; cbn.
  - destruct oa as [x|], ob as [y|]; try (now rewrite String.eqb_sym).
    replace (y - x) with (- (x - y)) by lia. now rewrite Z.abs_opp.
  - reflexivity.
  - reflexivity.
  - apply to_int_or_none_raise in Ea, Eb. congruence.
Qed.

(** C10. [values_equal] and [values_different] give the same answer when
    their two values are swapped, whatever the tolerance, in
    [excel_comparator_india.py] and in [utils.py]; a conversion error is the
    same error either way round. *)
Theorem values_equal_symmetric (a b : value) (tol : Z) :
  values_equal a b tol = values_equal b a tol
  /\ values_different a b tol = values_different b a tol
  /\ Utils.values_equal a b tol = Utils.values_equal b a tol
  /\ Utils.values_different a b tol = Utils.values_different b a tol.
Proof.
  unfold values_different, Utils.values_different.
  rewrite !values_equal_utils_same, (values_equal_sym a b tol).
  repeat split.
Qed.

(** [int(f)] is the scaled integer of [f] divided, toward zero, by the
    scale. *)
Lemma to_Z_scaled (f : PyFloat.float) (k : Z) :
  is_finite f = true -> 0 <= k -> - float_exp f <= k ->
  PyFloat.to_Z f = Ok (Z.quot (float_scaled f k) (2 ^ k)).
Proof.
  destruct f as [s|s| |s m e]; cbn [is_finite]; try discriminate; intros _ Hk He.
  - reflexivity.
  - cbn [float_exp] in He. cbn [PyFloat.to_Z float_scaled].
    assert (Hp : 0 < 2 ^ k) by (apply Z.pow_pos_nonneg; lia).
    assert (Hq : Z.quot (Z.pos m * 2 ^ (e + k)) (2 ^ k)
                 = if 0 <=? e then Z.pos m * 2 ^ e else Z.pos m / 2 ^ (- e)).
    { destruct (Z.leb_spec 0 e).
      - rewrite Z.pow_add_r by lia. rewrite Z.mul_assoc.
        apply Z.quot_mul. lia.
      - replace k with (- e + (e + k)) at 2 by lia.
        rewrite (Z.pow_add_r 2 (- e) (e + k)) by lia.
        assert (0 < 2 ^ (e + k)) by (apply Z.pow_pos_nonneg; lia).
        assert (0 < 2 ^ (- e)) by (apply Z.pow_pos_nonneg; lia).
        rewrite Z.quot_mul_cancel_r by lia.
        apply Z.quot_div_nonneg; lia. }
    destruct s.
    + rewrite Z.quot_opp_l by lia. now rewrite Hq.
    + now rewrite Hq.
Qed.

(** Truncating two integers that lie within [t] scales of each other leaves
    them within [t]. *)
Lemma quot_absdiff (a b d t : Z) :
  0 < d -> Z.abs (a - b) <= t * d -> Z.abs (Z.quot a d - Z.quot b d) <= t.
Proof.
  intros Hd H.
  assert (Ha := Z.quot_rem' a d). assert (Hb := Z.quot_rem' b d).
  assert (Hra : Z.abs (Z.rem a d) < d)
    by (pose proof (Z.rem_bound_abs a d); lia).
  assert (Hrb : Z.abs (Z.rem b d) < d)
    by (pose proof (Z.rem_bound_abs b d); lia).
  assert (Hsa : 0 <= Z.rem a d * a) by (apply Z.rem_sign_mul; lia).
  assert (Hsb : 0 <= Z.rem b d * b) by (apply Z.rem_sign_mul; lia).
  set (qa := Z.quot a d) in *. set (qb := Z.quot b d) in *.
  set (ra := Z.rem a d) in *. set (rb := Z.rem b d) in *.
  assert (Ht : 0 <= t) by nia.
  destruct (Z_le_gt_dec (Z.abs (qa - qb)) t) as [|Hgt]; [assumption|exfalso].
  assert (Hneg : forall x, x <= 0 -> Z.quot x d <= 0).
  { intros x Hx. apply Z.opp_nonneg_nonpos.
    rewrite <- Z.quot_opp_l by lia. apply Z.quot_pos; lia. }
  destruct (Z_le_gt_dec qb qa).
  - assert (t + 1 <= qa - qb) by lia.
    assert (ra - rb <= - d) by nia.
    assert (ra < 0) by lia. assert (0 < rb) by lia.
    assert (a <= 0) by nia. assert (0 <= b) by nia.
    assert (qa <= 0) by (subst qa; apply Hneg; lia).
    assert (0 <= qb) by (subst qb; apply Z.quot_pos; lia).
    lia.
  - assert (t + 1 <= qb - qa) by lia.
    assert (rb - ra <= - d) by nia.
    assert (rb < 0) by lia. assert (0 < ra) by lia.
    assert (b <= 0) by nia. assert (0 <= a) by nia.
    assert (qb <= 0) by (subst qb; apply Hneg; lia).
    assert (0 <= qa) by (subst qa; apply Z.quot_pos; lia).
    lia.
Qed.

Lemma to_int_or_none_finite (x : PyFloat.float) (k : Z) :
  is_finite x = true -> 0 <= k -> - float_exp x <= k ->
  to_int_or_none (VFloat x) = Ok (Some (Z.quot (float_scaled x k) (2 ^ k))).
Proof.
  intros Hf Hk He. unfold to_int_or_none, coerce_numeric.
  replace (isna (VFloat x)) with false by (destruct x; cbn in *; congruence).
  cbn. now rewrite (to_Z_scaled x k Hf Hk He).
Qed.

Lemma values_equal_ints (a b : value) (tol oi wi : Z) :
  to_int_or_none a = Ok (Some oi) -> to_int_or_none b = Ok (Some wi) ->
  values_equal a b tol = Ok (Z.abs (oi - wi) <=? tol).
Proof.
  intros Ha Hb. unfold values_equal. rewrite Ha, Hb. cbn.
  replace (wi - oi) with (- (oi - wi)) by lia. now rewrite Z.abs_opp.
Qed.

Lemma values_equal_text (a b : value) (tol : Z) (oi wi : option Z) :
  to_int_or_none a = Ok oi -> to_int_or_none b = Ok wi ->
  oi = None \/ wi = None ->
  values_equal a b tol = Ok (String.eqb (norm_text a) (norm_text b)).
Proof.
  intros Ha Hb H. unfold values_equal. rewrite Ha, Hb. cbn.
  destruct oi, wi; destruct H; congruence.
Qed.

Example float_2_9_is_read_from_text :
  coerce_numeric (VStr "2.9") = Ok (Some float_2_9)
  /\ PyFloat.repr float_2_9 = "2.9"
  /\ PyFloat.repr one_float = "1.0".
Proof. repeat split; vm_compute; reflexivity. Qed.

(** C1, as the code has it.  [values_equal] first truncates both values to
    integers.  When both truncations exist it answers by
    [|intA - intB| <= tol]; otherwise it answers by identity of the trimmed
    texts.  For two finite floats, a real difference of at most [tol] gives
    [True]; a real difference above [tol] need not give [False], because the
    fractions are dropped before the comparison. *)
Theorem values_equal_compares_truncated_ints :
  (forall a b tol oi wi,
      to_int_or_none a = Ok (Some oi) -> to_int_or_none b = Ok (Some wi) ->
      (values_equal a b tol = Ok true <-> Z.abs (oi - wi) <= tol)
      /\ (values_equal a b tol = Ok false <-> Z.abs (oi - wi) > tol))
  /\ (forall a b tol oi wi,
      to_int_or_none a = Ok oi -> to_int_or_none b = Ok wi ->
      oi = None \/ wi = None ->
      (values_equal a b tol = Ok true <-> norm_text a = norm_text b)
      /\ (values_equal a b tol = Ok false <-> norm_text a <> norm_text b))
  /\ (forall x y tol,
      is_finite x = true -> is_finite y = true ->
      exact_absdiff_le x y tol ->
      values_equal (VFloat x) (VFloat y) tol = Ok true).
Proof.
  split; [|split].
  - intros a b tol oi wi Ha Hb.
    rewrite (values_equal_ints a b tol oi wi Ha Hb).
    destruct (Z.leb_spec (Z.abs (oi - wi)) tol); split; split;
      intros; try discriminate; try reflexivity; lia.
  - intros a b tol oi wi Ha Hb H.
    rewrite (values_equal_text a b tol oi wi Ha Hb H).
    destruct (String.eqb_spec (norm_text a) (norm_text b)); split; split;
      intros; try discriminate; try reflexivity; congruence.
  - intros x y tol Hx Hy H. unfold exact_absdiff_le in H. cbv zeta in H.
    set (k := Z.max 0 (Z.max (- float_exp x) (- float_exp y))) in *.
    assert (Hk : 0 <= k) by lia.
    rewrite (values_equal_ints _ _ tol _ _
               (to_int_or_none_finite x k Hx Hk ltac:(lia))
               (to_int_or_none_finite y k Hy Hk ltac:(lia))).
    f_equal. apply Z.leb_le. apply quot_absdiff; [|assumption].
    apply Z.pow_pos_nonneg; lia.
Qed.

Lemma values_equal_compares_truncated_ints_witness :
  values_equal (VStr "1,000") (VStr "999") 1 = Ok true
  /\ values_equal (VStr "abc") (VStr "abd") 1 = Ok false
  /\ values_equal (VFloat float_2_9) (VFloat one_float) 2 = Ok true.
Proof.
  destruct values_equal_compares_truncated_ints as (Hint & Htext & Hfloat).
  split; [|split].
  - apply (proj1 (Hint (VStr "1,000") (VStr "999") 1 1000 999 eq_refl eq_refl)).
    cbn. lia.
  - apply (proj2 (Htext (VStr "abc") (VStr "abd") 1 None None eq_refl eq_refl
                        (or_introl eq_refl))).
    cbn. discriminate.
  - apply Hfloat; [reflexivity|reflexivity|].
    unfold exact_absdiff_le. vm_compute. discriminate.
Defined.

(** C1 as stated fails: 1.0 and 2.9 differ by more than the tolerance 1,
    yet [values_equal] does not answer [False]. *)
Lemma values_equal_ignores_fractions :
  ~ (~ exact_absdiff_le one_float float_2_9 1 ->
     values_equal (VFloat one_float) (VFloat float_2_9) 1 = Ok false).
Proof.
  intros H.
  assert (Hfar : ~ exact_absdiff_le one_float float_2_9 1).
  { unfold exact_absdiff_le. vm_compute. intros Hle. apply Hle. reflexivity. }
  specialize (H Hfar). vm_compute in H. discriminate.
Qed.

(** ** The tolerance scenario *)

(** C2, as the code has it.  With the tolerance 1 the amounts "1,000" and
    "999" are tolerant-equal, so a pairing of the two rows is a common row
    in either layout.  They are not paired: the generic key takes the first
    two columns, the two keys differ in the amount, and on every sheet the
    original row is reported as only in the original and the other row as
    only in the website, with no differing row, 2 rows compared and 2 cells
    different. *)
Theorem scenario_rows_are_unmatched :
  values_equal (VStr "1,000") (VStr "999") NUMERIC_TOLERANCE = Ok true
  /\ row_key scenario_orig_row 2 = Ok [KNum 100; KNum 1000]
  /\ row_key scenario_web_row 2 = Ok [KNum 100; KNum 999]
  /\ (forall to_datetime sheet_name,
        match_sheet to_datetime sheet_name scenario_cols scenario_orig scenario_web
        = Ok (mkAcc [scenario_header] [scenario_header]
                    [scenario_header; [JInt 100; JStr "1,000"; JStr "Only in Original"]]
                    [scenario_header; [JInt 100; JStr "999"; JStr "Only in Website"]]
                    2 2 [EvOnlyOrig 0; EvOnlyWeb 0]))
  /\ (forall to_datetime,
        process_sheet to_datetime
                      (workbook [("Gain Summary", scenario_orig)])
                      (workbook [("Gain Summary", scenario_web)])
                      "Gain Summary" [("header_row", 2); ("data_start_row", 3)]
        = Ok (mkEntry [scenario_header] [scenario_header]
                      [scenario_header; [JInt 100; JStr "1,000"; JStr "Only in Original"]]
                      [scenario_header; [JInt 100; JStr "999"; JStr "Only in Website"]]
                      2 2 None,
              [JStr "Gain Summary"; JInt 2; JInt 2; JInt 1; JInt 2; JInt 2]))
  /\ (forall st,
        compare_pair Simple scenario_cols scenario_orig_row scenario_web_row 0 0 st
        = Ok (add_common st [JInt 100; JStr "1,000"; JStr "Common"] 0 0))
  /\ (forall st,
        compare_pair Tripled scenario_cols scenario_orig_row scenario_web_row 0 0 st
        = Ok (add_common st [JInt 100; JInt 100; JStr "";
                             JStr "1,000"; JStr "1,000"; JStr ""] 0 0)).
Proof.
  split; [reflexivity|]. split; [reflexivity|]. split; [reflexivity|].
  split; [|split; [|split]].
  - intros td name. unfold match_sheet.
    destruct (mem_str name _); reflexivity.
  - intros td. reflexivity.
  - intros st. reflexivity.
  - intros st. reflexivity.
Qed.

(** C2 as stated fails: on the scenario no differing row is written and the
    count of different cells is not 1. *)
Lemma scenario_is_not_different :
  ~ (exists st,
        match_sheet to_datetime_unparsed "Gain Summary"
                    scenario_cols scenario_orig scenario_web = Ok st
        /\ data_rows (structured_diff st) <> []
        /\ diff_count st = 1).
Proof.
  intros (st & Hst & Hrows & Hcount).
  vm_compute in Hst. injection Hst as <-.
  apply Hrows. reflexivity.
Qed.

(** ** Generic facts: the monad, keys, replay *)

Lemma bind_ok {A B : Type} (c : result A) (k : A -> result B) (b : B) :
  bind c k = Ok b -> exists a, c = Ok a /\ k a = Ok b.
Proof. destruct c; cbn; [eauto | discriminate]. Qed.

Ltac bind_inv H :=
  let a := fresh "a" in
  let E := fresh "E" in
  apply bind_ok in H; destruct H as (a & E & H).

Lemma key_part_eqb_eq (a b : key_part) : key_part_eqb a b = true <-> a = b.
Proof.
  destruct a, b; cbn; split; intros H; try discriminate; try congruence.
  - apply Z.eqb_eq in H. congruence.
  - injection H as ->. apply Z.eqb_refl.
  - apply String.eqb_eq in H. congruence.
  - injection H as ->. apply String.eqb_refl.
Qed.

Lemma key_eqb_eq (a b : row_key_t) : key_eqb a b = true <-> a = b.
Proof.
  revert b. induction a as [|x a IH]; intros [|y b]; cbn; split;
    intros H; try discriminate; try reflexivity.
  - apply andb_true_iff in H as [H1 H2].
    apply key_part_eqb_eq in H1. apply IH in H2. congruence.
  - injection H as -> ->. apply andb_true_iff. split.
    + now apply key_part_eqb_eq.
    + now apply IH.
Qed.

Lemma key_eqb_trans_false (a b c : row_key_t) :
  key_eqb a b = true -> key_eqb a c = key_eqb b c.
Proof. intros H. apply key_eqb_eq in H. now subst. Qed.

Lemma replay_app mode cols dfo dfw (e1 e2 : list event) (st st1 st2 : acc) :
  replay mode cols dfo dfw e1 st = Ok st1 ->
  replay mode cols dfo dfw e2 st1 = Ok st2 ->
  replay mode cols dfo dfw (e1 ++ e2)%list st = Ok st2.
Proof.
  revert st. induction e1 as [|ev e1 IH]; cbn; intros st H1 H2.
  - injection H1 as ->. assumption.
  - bind_inv H1. rewrite E. cbn. eauto.
Qed.

Lemma skipn_cons_nth {A : Type} (l : list A) (i : nat) (x : A) (rest : list A) :
  x :: rest = skipn i l -> nth_error l i = Some x /\ rest = skipn (S i) l.
Proof.
  revert l. induction i as [|i IH]; intros [|y l]; cbn; try discriminate.
  - intros [= -> ->]. split; reflexivity.
  - intros H. apply IH in H. exact H.
Qed.

Lemma df_loc_skipn (df : DataFrame) (i : nat) (x : Series) (rest : list Series) :
  x :: rest = skipn i (df_rows df) -> df_loc df i = Ok x.
Proof.
  intros H. apply skipn_cons_nth in H as [H _]. unfold df_loc. now rewrite H.
Qed.

(** A compared pair leaves one event, and the accumulators it returns are the
    replay of that event. *)
Lemma compare_pair_replay mode cols dfo dfw (o w : Series) (i j : nat) (st st' : acc) :
  compare_pair mode cols o w i j st = Ok st' ->
  df_loc dfo i = Ok o -> df_loc dfw j = Ok w ->
  exists ev, (ev = EvCommon i j \/ ev = EvDiff i j)
             /\ matched st' = (matched st ++ [ev])%list
             /\ replay_event mode cols dfo dfw st ev = Ok st'.
Proof.
  unfold compare_pair. intros H Ho Hw.
  bind_inv H. destruct a.
  - bind_inv H. injection H as <-.
    exists (EvCommon i j). split; [now left|]. split; [reflexivity|].
    cbn. rewrite Ho. cbn. rewrite E0. reflexivity.
  - bind_inv H. injection H as <-.
    exists (EvDiff i j). split; [now right|]. split; [reflexivity|].
    cbn. rewrite Ho. cbn. rewrite Hw. cbn. rewrite E0. reflexivity.
Qed.

(** ** The indexed matcher *)

Lemma index_get_setdefault_append (idx : key_index) (k k' : row_key_t) (i : nat) :
  index_get (setdefault_append idx k i) k'
  = if key_eqb k k' then (index_get idx k' ++ [i])%list else index_get idx k'.
Proof.
  induction idx as [|[k0 l] idx IH]; cbn.
  - destruct (key_eqb k k'); reflexivity.
  - destruct (key_eqb k0 k) eqn:E0; cbn.
    + rewrite (key_eqb_trans_false _ _ k' E0).
      destruct (key_eqb k k'); reflexivity.
    + destruct (key_eqb k0 k') eqn:E1.
      * destruct (key_eqb k k') eqn:E2; [|reflexivity].
        apply key_eqb_eq in E1, E2. subst.
        rewrite (proj2 (key_eqb_eq k' k') eq_refl) in E0. discriminate.
      * exact IH.
Qed.

Lemma build_key_index_loop_spec (rows : list Series) (i : nat) (idx idx' : key_index) :
  build_key_index_loop rows i idx 2 = Ok idx' ->
  exists ks, row_keys rows = Ok ks
             /\ forall k, index_get idx' k = (index_get idx k ++ positions k ks i)%list.
Proof.
  revert i idx. induction rows as [|r rows IH]; cbn; intros i idx H.
  - injection H as <-. exists []. split; [reflexivity|].
    intros k. cbn. now rewrite app_nil_r.
  - bind_inv H. apply IH in H as (ks & Hks & Hget).
    exists (a :: ks). rewrite E, Hks. split; [reflexivity|].
    intros k. rewrite Hget, index_get_setdefault_append. cbn.
    destruct (key_eqb a k); [|reflexivity].
    now rewrite <- app_assoc.
Qed.

Lemma positions_first_index (k : row_key_t) (ks : list row_key_t) (i : nat) :
  match positions k ks i with
  | [] => first_index k ks i = None
  | j :: _ => first_index k ks i = Some j
  end.
Proof.
  revert i. induction ks as [|k' ks IH]; cbn; intros i; [reflexivity|].
  destruct (key_eqb k' k); [reflexivity|]. apply IH.
Qed.

Lemma index_match_orig_loop_events mode cols idx dfo dfw kw :
  (forall k, index_get idx k = positions k kw O) ->
  forall rows i st st' ko,
    index_match_orig_loop mode cols idx dfw rows i st = Ok st' ->
    rows = skipn i (df_rows dfo) ->
    row_keys rows = Ok ko ->
    exists evs, matched st' = (matched st ++ evs)%list
                /\ replay mode cols dfo dfw evs st = Ok st'
                /\ orig_events_ok kw i ko evs.
Proof.
  intros Hidx. induction rows as [|r rows IH]; cbn; intros i st st' ko H Hrows Hko.
  - injection H as <-. injection Hko as <-.
    exists []. cbn. rewrite app_nil_r. repeat split.
  - bind_inv H. rename a into st1, E into Hstep.
    bind_inv Hko. rename a into k, E into Hk.
    bind_inv Hko. rename a into ks, E into Hks. injection Hko as <-.
    pose proof (df_loc_skipn dfo i r rows Hrows) as Hloc.
    apply skipn_cons_nth in Hrows as [_ Hrest].
    destruct (IH (S i) st1 st' ks H Hrest Hks) as (evs & Hm & Hr & Hok).
    unfold index_match_orig_step in Hstep. rewrite Hk in Hstep. cbn in Hstep.
    rewrite Hidx in Hstep.
    pose proof (positions_first_index k kw O) as Hfirst.
    destruct (positions k kw O) as [|j js].
    + bind_inv Hstep. injection Hstep as <-.
      exists (EvOnlyOrig i :: evs). split; [|split].
      * rewrite Hm. cbn. now rewrite <- app_assoc.
      * cbn. rewrite Hloc. cbn. rewrite E. cbn. exact Hr.
      * cbn. rewrite Hfirst. split; [reflexivity|exact Hok].
    + bind_inv Hstep. rename a into w, E into Hw.
      destruct (compare_pair_replay mode cols dfo dfw r w i j st st1 Hstep Hloc Hw)
        as (ev & Hev & Hm1 & Hr1).
      exists (ev :: evs). split; [|split].
      * rewrite Hm, Hm1. now rewrite <- app_assoc.
      * cbn. rewrite Hr1. cbn. exact Hr.
      * cbn. rewrite Hfirst. split; [exact Hev|exact Hok].
Qed.

Lemma index_match_web_loop_events mode cols dfo dfw oks :
  forall rows j st st' kw,
    index_match_web_loop mode cols oks rows j st = Ok st' ->
    rows = skipn j (df_rows dfw) ->
    row_keys rows = Ok kw ->
    matched st' = (matched st ++ only_web_events oks kw j)%list
    /\ replay mode cols dfo dfw (only_web_events oks kw j) st = Ok st'.
Proof.
  induction rows as [|r rows IH]; cbn; intros j st st' kw H Hrows Hkw.
  - injection H as <-. injection Hkw as <-. cbn. now rewrite app_nil_r.
  - bind_inv Hkw. rename a into k, E into Hk.
    bind_inv Hkw. rename a into ks, E into Hks. injection Hkw as <-.
    rewrite Hk in H. cbn in H.
    pose proof (df_loc_skipn dfw j r rows Hrows) as Hloc.
    apply skipn_cons_nth in Hrows as [_ Hrest].
    cbn. destruct (key_in k oks).
    + now apply IH.
    + bind_inv H. rename a into row, E into Hrow.
      destruct (IH (S j) _ st' ks H Hrest Hks) as (Hm & Hr).
      split.
      * rewrite Hm. cbn. now rewrite <- app_assoc.
      * cbn. rewrite Hloc. cbn. rewrite Hrow. cbn. exact Hr.
Qed.

Lemma index_match_events mode cols dfo dfw st0 st :
  index_match mode cols dfo dfw st0 = Ok st ->
  exists ko kw evo,
    row_keys (df_rows dfo) = Ok ko
    /\ row_keys (df_rows dfw) = Ok kw
    /\ orig_events_ok kw O ko evo
    /\ matched st = (matched st0 ++ evo ++ only_web_events ko kw O)%list
    /\ replay mode cols dfo dfw (evo ++ only_web_events ko kw O)%list st0 = Ok st.
Proof.
  unfold index_match, build_key_index. intros H.
  bind_inv H. rename a into idx, E into Hidx.
  bind_inv H. rename a into ko, E into Hko.
  bind_inv H. rename a into st1, E into Horig.
  apply build_key_index_loop_spec in Hidx as (kw & Hkw & Hget).
  destruct (index_match_orig_loop_events mode cols idx dfo dfw kw Hget
              _ _ _ _ ko Horig eq_refl Hko) as (evo & Hm1 & Hr1 & Hok).
  destruct (index_match_web_loop_events mode cols dfo dfw ko
              _ _ _ _ kw H eq_refl Hkw) as (Hm2 & Hr2).
  exists ko, kw, evo. repeat split; try assumption.
  - rewrite Hm2, Hm1. now rewrite <- app_assoc.
  - eapply replay_app; eassumption.
Qed.

Lemma orig_events_ok_nth (kw : list row_key_t) :
  forall ko evo i0 i k,
    orig_events_ok kw i0 ko evo ->
    nth_error ko i = Some k ->
    match first_index k kw O with
    | None => In (EvOnlyOrig (i0 + i)) evo
    | Some j => paired (i0 + i) j evo
    end.
Proof.
  induction ko as [|k0 ko IH]; intros [|ev evo] i0 i k Hok Hnth;
    cbn in Hok; try contradiction.
  - destruct i; discriminate.
  - destruct Hok as [Hev Hok]. destruct i as [|i]; cbn in Hnth.
    + injection Hnth as ->. rewrite Nat.add_0_r.
      destruct (first_index k kw O).
      * destruct Hev as [-> | ->]; [left | right]; now left.
      * subst ev. now left.
    + specialize (IH evo (S i0) i k Hok Hnth).
      replace (i0 + S i)%nat with (S i0 + i)%nat by lia.
      destruct (first_index k kw O).
      * destruct IH as [IH | IH]; [left | right]; now right.
      * now right.
Qed.

Lemma only_web_events_nth (oks : list row_key_t) :
  forall kw j0 j k,
    nth_error kw j = Some k -> key_in k oks = false ->
    In (EvOnlyWeb (j0 + j)) (only_web_events oks kw j0).
Proof.
  induction kw as [|k0 kw IH]; intros j0 j k Hnth Hk.
  - destruct j; discriminate.
  - destruct j as [|j]; cbn in Hnth |- *.
    + injection Hnth as ->. rewrite Hk, Nat.add_0_r. now left.
    + replace (j0 + S j)%nat with (S j0 + j)%nat by lia.
      destruct (key_in k0 oks); [|right]; eapply IH; eassumption.
Qed.

(** C4, as the code has it.  In the indexed matcher every original row is
    looked up by its key in the index built from the website rows and is
    paired with the first website row carrying that key, whether or not an
    earlier original row was paired with it already; without such a row it
    is reported as only in the original.  Every website row whose key no
    original row has is reported as only in the website.  The four lists
    hold the renderings of exactly these events. *)
Theorem index_match_pairs_first_candidate
        (mode : header_mode) (common_cols : list string)
        (df_orig df_web : DataFrame) (st : acc) :
  index_match mode common_cols df_orig df_web
              (acc_init (make_headers mode common_cols)) = Ok st ->
  exists orig_keys web_keys,
    row_keys (df_rows df_orig) = Ok orig_keys
    /\ row_keys (df_rows df_web) = Ok web_keys
    /\ (forall i k, nth_error orig_keys i = Some k ->
          match first_index k web_keys O with
          | None => In (EvOnlyOrig i) (matched st)
          | Some j => paired i j (matched st)
          end)
    /\ (forall j k, nth_error web_keys j = Some k ->
          key_in k orig_keys = false -> In (EvOnlyWeb j) (matched st))
    /\ (exists evo,
          orig_events_ok web_keys O orig_keys evo
          /\ matched st = (evo ++ only_web_events orig_keys web_keys O)%list)
    /\ replay mode common_cols df_orig df_web (matched st)
              (acc_init (make_headers mode common_cols)) = Ok st.
Proof.
  intros H.
  apply index_match_events in H as (ko & kw & evo & Hko & Hkw & Hok & Hm & Hr).
  cbn [matched acc_init app] in Hm.
  exists ko, kw. split; [assumption|]. split; [assumption|].
  split; [|split; [|split]].
  - intros i k Hnth. pose proof (orig_events_ok_nth kw ko evo O i k Hok Hnth) as Hi.
    cbn in Hi. rewrite Hm.
    destruct (first_index k kw O).
    + destruct Hi as [Hi | Hi]; [left | right]; apply in_or_app; now left.
    + apply in_or_app. now left.
  - intros j k Hnth Hk. rewrite Hm. apply in_or_app. right.
    exact (only_web_events_nth ko kw O j k Hnth Hk).
  - exists evo. split; assumption.
  - rewrite Hm. exact Hr.
Qed.

Lemma index_match_pairs_first_candidate_witness :
  exists st,
    index_match Simple dup_cols dup_orig dup_web
                (acc_init (make_headers Simple dup_cols)) = Ok st
    /\ matched st = [EvCommon 0 0; EvDiff 1 0]
    /\ replay Simple dup_cols dup_orig dup_web (matched st)
              (acc_init (make_headers Simple dup_cols)) = Ok st.
Proof.
  eexists. split; [vm_compute; reflexivity|]. split; [reflexivity|].
  destruct (index_match_pairs_first_candidate Simple dup_cols dup_orig dup_web _
              eq_refl) as (ko & kw & _ & _ & _ & _ & _ & Hr).
  exact Hr.
Defined.

(** C4 as stated fails: on the "Gain Summary" example both original rows
    are paired with website row 0, which the first of them had claimed;
    website row 1 is paired with nothing. *)
Lemma first_candidate_is_reused :
  ~ (forall st,
        match_sheet to_datetime_unparsed "Gain Summary"
                    gain_cols gain_orig gain_web = Ok st ->
        no_candidate_reused (matched st)).
Proof.
  intros H.
  assert (Hrun : exists st,
             match_sheet to_datetime_unparsed "Gain Summary"
                         gain_cols gain_orig gain_web = Ok st
             /\ matched st = [EvCommon 0 0; EvDiff 1 0])
    by (eexists; split; [vm_compute; reflexivity | reflexivity]).
  destruct Hrun as (st & Hst & Hm).
  specialize (H st Hst). rewrite Hm in H.
  assert (Heq : 0%nat = 1%nat).
  { apply (H 0%nat 1%nat 0%nat); [left | right]; cbn; auto. }
  discriminate.
Qed.

(** ** The map matcher *)

Lemma acct_map_get_In (m : acct_map) (k : string) (p : nat) :
  acct_map_get m k = Some p -> In (k, p) m.
Proof.
  induction m as [|[k' i] m IH]; cbn; [discriminate|].
  destruct (String.eqb_spec k' k).
  - intros [= ->]. subst. now left.
  - intros H. right. now apply IH.
Qed.

Lemma acct_map_get_None (m : acct_map) (k : string) (p : nat) :
  acct_map_get m k = None -> ~ In (k, p) m.
Proof.
  induction m as [|[k' i] m IH]; cbn; [tauto|].
  destruct (String.eqb_spec k' k); [discriminate|].
  intros H [Heq | Hin]; [congruence | now apply IH].
Qed.

Lemma acct_map_get_NoDup (m : acct_map) (k : string) (p : nat) :
  NoDup (map fst m) -> In (k, p) m -> acct_map_get m k = Some p.
Proof.
  induction m as [|[k' i] m IH]; cbn; [tauto|].
  intros Hnd [Heq | Hin].
  - injection Heq as -> ->. now rewrite String.eqb_refl.
  - inversion Hnd as [|? ? Hnotin Hnd']; subst.
    destruct (String.eqb_spec k' k) as [->|].
    + exfalso. apply Hnotin. apply (in_map fst) in Hin. exact Hin.
    + now apply IH.
Qed.

Lemma acct_map_get_app (m : acct_map) (k k' : string) (i : nat) :
  acct_map_get (m ++ [(k, i)])%list k'
  = match acct_map_get m k' with
    | Some p => Some p
    | None => if String.eqb k k' then Some i else None
    end.
Proof.
  induction m as [|[k0 p0] m IH]; cbn; [reflexivity|].
  destruct (String.eqb k0 k'); [reflexivity | exact IH].
Qed.

Lemma first_occurrence_of_unique keyf rows (i j : nat) (k : string) :
  first_occurrence_of keyf rows i k -> first_occurrence_of keyf rows j k -> i = j.
Proof.
  intros (ri & Hi & Hki & Hmin_i) (rj & Hj & Hkj & Hmin_j).
  destruct (Nat.lt_trichotomy i j) as [Hlt | [Heq | Hgt]]; [|assumption|].
  - exfalso. exact (Hmin_j i ri Hlt Hi Hki).
  - exfalso. exact (Hmin_i j rj Hgt Hj Hkj).
Qed.

Section MapMatchFacts.

Variable keyf : Series -> result (option string).

Lemma map_inv_nil (rows : list Series) : map_inv keyf rows [] O.
Proof.
  split; [constructor|]. split.
  - intros k p [].
  - intros k _ p r Hp. lia.
Qed.

Lemma map_inv_step (all : list Series) (m : acct_map) (n : nat)
      (r : Series) (ko : option string) :
  map_inv keyf all m n ->
  nth_error all n = Some r -> keyf r = Ok ko ->
  map_inv keyf all
          match ko with
          | Some k => match acct_map_get m k with
                      | None => (m ++ [(k, n)])%list
                      | Some _ => m
                      end
          | None => m
          end (S n).
Proof.
  intros (Hnd & Hs & Hn) Hr Hk.
  assert (Hkeep : (forall k', acct_map_get m k' = None -> Ok ko <> Ok (Some k')) ->
                  map_inv keyf all m (S n)).
  { intros Hne. split; [assumption|]. split.
    - intros k p Hin. destruct (Hs k p Hin). split; [lia | assumption].
    - intros k' Hget p r' Hp Hr'.
      destruct (Nat.eq_dec p n) as [-> | Hpn].
      + rewrite Hr in Hr'. injection Hr' as <-. rewrite Hk. now apply Hne.
      + apply (Hn k' Hget p r'); [lia | assumption]. }
  destruct ko as [k|].
  - destruct (acct_map_get m k) as [p|] eqn:Hget.
    + apply Hkeep. intros k' Hget' [= ->]. congruence.
    + split; [|split].
      * rewrite map_app. cbn. apply NoDup_app; [assumption | repeat constructor; tauto |].
        intros a Ha [<- | []]. apply in_map_iff in Ha as ([k0 p0] & Heq & Hin).
        cbn in Heq. subst k0. exact (acct_map_get_None m k p0 Hget Hin).
      * intros k' p Hin. apply in_app_or in Hin as [Hin | [Heq | []]].
        -- destruct (Hs k' p Hin). split; [lia | assumption].
        -- injection Heq as <- <-. split; [lia|].
           exists r. split; [assumption|]. split; [assumption|].
           intros i' r' Hlt Hr'. exact (Hn k Hget i' r' Hlt Hr').
      * intros k' Hget' p r' Hp Hr'. rewrite acct_map_get_app in Hget'.
        destruct (acct_map_get m k') eqn:Hgm; [discriminate|].
        destruct (String.eqb_spec k k') as [|Hne]; [discriminate|].
        destruct (Nat.eq_dec p n) as [-> | Hpn].
        -- rewrite Hr in Hr'. injection Hr' as <-. rewrite Hk. congruence.
        -- apply (Hn k' Hgm p r'); [lia | assumption].
  - apply Hkeep. intros k' _. discriminate.
Qed.

Lemma build_acct_map_inv (all : list Series) :
  forall rows n m m',
    build_acct_map keyf rows n m = Ok m' ->
    rows = skipn n all ->
    map_inv keyf all m n ->
    map_inv keyf all m' (List.length all).
Proof.
  induction rows as [|r rows IH]; cbn; intros n m m' H Hrows Hinv.
  - injection H as <-. symmetry in Hrows. apply skipn_all_iff in Hrows.
    destruct Hinv as (Hnd & Hs & Hn). split; [assumption|]. split.
    + intros k p Hin. destruct (Hs k p Hin) as [_ Hf]. split; [|assumption].
      destruct Hf as (r & Hr & _). apply nth_error_Some. congruence.
    + intros k Hget p r Hp Hr. apply (Hn k Hget p r); [lia | assumption].
  - bind_inv H. rename a into ko, E into Hk.
    apply skipn_cons_nth in Hrows as [Hr Hrest].
    apply (IH (S n) _ m' H Hrest).
    exact (map_inv_step all m n r ko Hinv Hr Hk).
Qed.

(** The finished map holds exactly the first occurrences. *)
Lemma build_acct_map_first_occurrences (all : list Series) (m : acct_map) :
  build_acct_map keyf all O [] = Ok m ->
  NoDup (map fst m)
  /\ forall k p, In (k, p) m <-> first_occurrence_of keyf all p k.
Proof.
  intros H.
  destruct (build_acct_map_inv all all O [] m H eq_refl (map_inv_nil all))
    as (Hnd & Hs & Hn).
  split; [assumption|]. intros k p. split.
  - intros Hin. now destruct (Hs k p Hin).
  - intros Hf. pose proof Hf as (r & Hr & Hk & _).
    destruct (acct_map_get m k) as [p'|] eqn:Hget.
    + apply acct_map_get_In in Hget. destruct (Hs k p' Hget) as [_ Hf'].
      now rewrite (first_occurrence_of_unique keyf all p p' k Hf Hf').
    + exfalso. apply (Hn k Hget p r); [|assumption|assumption].
      apply nth_error_Some. congruence.
Qed.

End MapMatchFacts.

Lemma map_match_orig_loop_events cols dfo dfw web_map :
  forall entries st st',
    map_match_orig_loop cols dfo dfw web_map entries st = Ok st' ->
    exists evs, matched st' = (matched st ++ evs)%list
                /\ replay Tripled cols dfo dfw evs st = Ok st'
                /\ map_orig_events_ok web_map entries evs.
Proof.
  induction entries as [|[acc i] entries IH]; cbn; intros st st' H.
  - injection H as <-. exists []. cbn. rewrite app_nil_r. repeat split.
  - bind_inv H. rename a into o, E into Ho.
    bind_inv H. rename a into st1, E into Hstep.
    destruct (IH st1 st' H) as (evs & Hm & Hr & Hok).
    destruct (acct_map_get web_map acc) as [j|] eqn:Hget.
    + bind_inv Hstep. rename a into w, E into Hw.
      destruct (compare_pair_replay Tripled cols dfo dfw o w i j st st1 Hstep Ho Hw)
        as (ev & Hev & Hm1 & Hr1).
      exists (ev :: evs). split; [|split].
      * rewrite Hm, Hm1. now rewrite <- app_assoc.
      * cbn. rewrite Hr1. cbn. exact Hr.
      * cbn. split; assumption.
    + bind_inv Hstep. injection Hstep as <-.
      exists (EvOnlyOrig i :: evs). split; [|split].
      * rewrite Hm. cbn. now rewrite <- app_assoc.
      * cbn. rewrite Ho. cbn. rewrite E. cbn. exact Hr.
      * cbn. split; [reflexivity | assumption].
Qed.

Lemma map_match_web_loop_events cols dfo dfw orig_map :
  forall entries st st',
    map_match_web_loop cols dfw orig_map entries st = Ok st' ->
    matched st' = (matched st ++ map_only_web_events orig_map entries)%list
    /\ replay Tripled cols dfo dfw (map_only_web_events orig_map entries) st = Ok st'.
Proof.
  induction entries as [|[acc j] entries IH]; cbn; intros st st' H.
  - injection H as <-. now rewrite app_nil_r.
  - destruct (acct_map_get orig_map acc) as [i|]; [now apply IH|].
    bind_inv H. rename a into w, E into Hw.
    bind_inv H. rename a into row, E into Hrow.
    destruct (IH _ st' H) as (Hm & Hr). split.
    + rewrite Hm. cbn. now rewrite <- app_assoc.
    + cbn. rewrite Hw. cbn. rewrite Hrow. cbn. exact Hr.
Qed.

Lemma map_orig_events_uses_orig (wm : acct_map) :
  forall entries evs i,
    map_orig_events_ok wm entries evs ->
    (appears_orig evs i <-> exists acc, In (acc, i) entries).
Proof.
  induction entries as [|[acc i0] entries IH]; intros [|ev evs] i Hok;
    cbn in Hok; try contradiction.
  - split; [intros (ev & [] & _) | intros (acc & [])].
  - destruct Hok as [Hev Hok]. specialize (IH evs i Hok). split.
    + intros (ev' & [<- | Hin] & Hu).
      * exists acc. left.
        destruct (acct_map_get wm acc); [destruct Hev as [-> | ->] | subst ev];
          cbn in Hu; now subst.
      * destruct (proj1 IH (ex_intro _ ev' (conj Hin Hu))) as (acc' & Hacc).
        exists acc'. now right.
    + intros (acc' & [Heq | Hin]).
      * injection Heq as -> ->. exists ev. split; [now left|].
        destruct (acct_map_get wm acc'); [destruct Hev as [-> | ->] | subst ev];
          reflexivity.
      * destruct (proj2 IH (ex_intro _ acc' Hin)) as (ev' & Hin' & Hu).
        exists ev'. split; [now right | assumption].
Qed.

Lemma map_orig_events_uses_web (wm : acct_map) :
  forall entries evs j,
    map_orig_events_ok wm entries evs ->
    (appears_web evs j
     <-> exists acc i, In (acc, i) entries /\ acct_map_get wm acc = Some j).
Proof.
  induction entries as [|[acc i0] entries IH]; intros [|ev evs] j Hok;
    cbn in Hok; try contradiction.
  - split; [intros (ev & [] & _) | intros (acc & i & [] & _)].
  - destruct Hok as [Hev Hok]. specialize (IH evs j Hok). split.
    + intros (ev' & [<- | Hin] & Hu).
      * exists acc, i0. split; [now left|].
        destruct (acct_map_get wm acc); [destruct Hev as [-> | ->] | subst ev];
          cbn in Hu; [now subst | now subst | contradiction].
      * destruct (proj1 IH (ex_intro _ ev' (conj Hin Hu))) as (acc' & i' & Hacc & Hg).
        exists acc', i'. split; [now right | assumption].
    + intros (acc' & i' & [Heq | Hin] & Hg).
      * injection Heq as -> ->. exists ev. split; [now left|].
        rewrite Hg in Hev. destruct Hev as [-> | ->]; reflexivity.
      * destruct (proj2 IH (ex_intro _ acc' (ex_intro _ i' (conj Hin Hg))))
          as (ev' & Hin' & Hu).
        exists ev'. split; [now right | assumption].
Qed.

Lemma map_only_web_events_uses (om : acct_map) :
  forall entries,
    (forall i, ~ appears_orig (map_only_web_events om entries) i)
    /\ (forall j, appears_web (map_only_web_events om entries) j
                  <-> exists acc, In (acc, j) entries /\ acct_map_get om acc = None).
Proof.
  induction entries as [|[acc j0] entries [IHo IHw]]; cbn.
  - split; [intros i (ev & [] & _)|].
    intros j. split; [intros (ev & [] & _) | intros (acc & [] & _)].
  - destruct (acct_map_get om acc) as [i0|] eqn:Hget.
    + split; [assumption|]. intros j. rewrite IHw. split.
      * intros (acc' & Hin & Hg). exists acc'. split; [now right | assumption].
      * intros (acc' & [Heq | Hin] & Hg).
        -- injection Heq as -> ->. congruence.
        -- exists acc'. split; assumption.
    + split.
      * intros i (ev & [<- | Hin] & Hu); [exact Hu|].
        apply (IHo i). exists ev. split; assumption.
      * intros j. split.
        -- intros (ev & [<- | Hin] & Hu).
           ++ cbn in Hu. subst. exists acc. split; [now left | assumption].
           ++ destruct (proj1 (IHw j) (ex_intro _ ev (conj Hin Hu))) as (acc' & Hin' & Hg).
              exists acc'. split; [now right | assumption].
        -- intros (acc' & [Heq | Hin] & Hg).
           ++ injection Heq as -> ->. exists (EvOnlyWeb j). split; [now left | reflexivity].
           ++ destruct (proj2 (IHw j) (ex_intro _ acc' (conj Hin Hg))) as (ev & Hin' & Hu).
              exists ev. split; [now right | assumption].
Qed.

Lemma appears_orig_app (e1 e2 : list event) (i : nat) :
  appears_orig (e1 ++ e2)%list i <-> appears_orig e1 i \/ appears_orig e2 i.
Proof.
  unfold appears_orig. split.
  - intros (ev & Hin & Hu). apply in_app_or in Hin as [Hin | Hin]; eauto.
  - intros [(ev & Hin & Hu) | (ev & Hin & Hu)]; exists ev;
      (split; [apply in_or_app; auto | assumption]).
Qed.

Lemma appears_web_app (e1 e2 : list event) (j : nat) :
  appears_web (e1 ++ e2)%list j <-> appears_web e1 j \/ appears_web e2 j.
Proof.
  unfold appears_web. split.
  - intros (ev & Hin & Hu). apply in_app_or in Hin as [Hin | Hin]; eauto.
  - intros [(ev & Hin & Hu) | (ev & Hin & Hu)]; exists ev;
      (split; [apply in_or_app; auto | assumption]).
Qed.

(** The rows the map matcher writes are made from the first occurrence of
    every key, on each side, and from no other row. *)
Lemma map_match_appears keyf cols dfo dfw (h : list json) (st : acc) :
  map_match keyf cols dfo dfw (acc_init h) = Ok st ->
  replay Tripled cols dfo dfw (matched st) (acc_init h) = Ok st
  /\ (forall i, appears_orig (matched st) i <-> first_occurrence keyf (df_rows dfo) i)
  /\ (forall j, appears_web (matched st) j <-> first_occurrence keyf (df_rows dfw) j).
Proof.
  unfold map_match. intros H.
  bind_inv H. rename a into om, E into Hom.
  bind_inv H. rename a into wm, E into Hwm.
  bind_inv H. rename a into st1, E into Horig.
  apply build_acct_map_first_occurrences in Hom as (Hndo & Hfo).
  apply build_acct_map_first_occurrences in Hwm as (Hndw & Hfw).
  destruct (map_match_orig_loop_events cols dfo dfw wm om _ _ Horig)
    as (evs & Hm1 & Hr1 & Hok).
  destruct (map_match_web_loop_events cols dfo dfw om wm _ _ H) as (Hm2 & Hr2).
  cbn [matched acc_init app] in Hm1.
  assert (Hm : matched st = (evs ++ map_only_web_events om wm)%list)
    by (rewrite Hm2, Hm1; reflexivity).
  destruct (map_only_web_events_uses om wm) as (Hno & Hweb).
  split; [|split].
  - rewrite Hm. eapply replay_app; eassumption.
  - intros i. rewrite Hm, appears_orig_app,
      (map_orig_events_uses_orig wm om evs i Hok). split.
    + intros [(acc & Hin) | Hu]; [|now apply Hno in Hu].
      exists acc. now apply Hfo.
    + intros (k & Hf). left. exists k. now apply Hfo.
  - intros j. rewrite Hm, appears_web_app,
      (map_orig_events_uses_web wm om evs j Hok), Hweb. split.
    + intros [(acc & i & Hin & Hg) | (acc & Hin & Hg)]; exists acc; apply Hfw.
      * now apply acct_map_get_In.
      * assumption.
    + intros (k & Hf). apply Hfw in Hf.
      destruct (acct_map_get om k) as [i|] eqn:Hg.
      * left. exists k, i. split; [now apply acct_map_get_In|].
        now apply acct_map_get_NoDup.
      * right. exists k. split; assumption.
Qed.


(** [drop_duplicates] only removes rows. *)
Lemma drop_duplicates_loop_incl (subset : list string) :
  forall rows seen kept,
    drop_duplicates_loop rows subset seen = Ok kept -> incl kept rows.
Proof.
  induction rows as [|r rows IH]; cbn; intros seen kept H.
  - injection H as <-. apply incl_refl.
  - bind_inv H. destruct (existsb (values_eqb a) seen).
    + apply incl_tl. eapply IH; eassumption.
    + bind_inv H. injection H as <-.
      apply incl_cons; [now left|]. apply incl_tl. eapply IH; eassumption.
Qed.

Lemma drop_duplicates_incl (df df' : DataFrame) (subset : list string) :
  drop_duplicates df subset = Ok df' ->
  df_columns df' = df_columns df /\ incl (df_rows df') (df_rows df).
Proof.
  unfold drop_duplicates. intros H. bind_inv H. injection H as <-. cbn.
  split; [reflexivity|]. eapply drop_duplicates_loop_incl; eassumption.
Qed.

(** How a sheet reaches the map matcher: a keyed sheet other than "Gain
    Summary", with an "Account Number" column on both sides, is matched on
    the frames [drop_duplicates] leaves, whose rows are rows of the sheet. *)
Lemma match_sheet_map_path (to_datetime : value -> option string)
      (sheet_name : string) (common_cols : list string)
      (df_orig df_web : DataFrame) (st : acc) :
  mem_str sheet_name ["ScheduleFA"; "transaction_details";
                      "transaction_details_by_gain"] = true ->
  mem_str "Account Number" (df_columns df_orig) = true ->
  mem_str "Account Number" (df_columns df_web) = true ->
  match_sheet to_datetime sheet_name common_cols df_orig df_web = Ok st ->
  exists key_cols df_orig' df_web',
    (key_cols = ["Account Number"; "Investment Name"; "Purchase Date"]
     \/ key_cols = ["Account Number"])
    /\ incl (df_rows df_orig') (df_rows df_orig)
    /\ incl (df_rows df_web') (df_rows df_web)
    /\ map_match (map_key to_datetime key_cols) common_cols df_orig' df_web'
                 (acc_init (make_headers Tripled common_cols)) = Ok st.
Proof.
  intros Hname Ho Hw H. unfold match_sheet in H.
  assert (H4 : mem_str sheet_name ["Gain Summary"; "ScheduleFA"; "transaction_details";
                                   "transaction_details_by_gain"] = true).
  { unfold mem_str in *. cbn [existsb] in *. rewrite Hname. apply orb_true_r. }
  assert (Hgs : String.eqb sheet_name "Gain Summary" = false).
  { destruct (String.eqb_spec sheet_name "Gain Summary") as [-> |]; [|reflexivity].
    discriminate Hname. }
  rewrite H4, Ho, Hw, Hgs in H. cbn [andb] in H. cbv zeta in H.
  match type of H with
  | context [drop_duplicates df_orig ?k] => set (key_cols := k) in *
  end.
  assert (Hk : key_cols = ["Account Number"; "Investment Name"; "Purchase Date"]
               \/ key_cols = ["Account Number"]).
  { subst key_cols. match goal with |- context [if ?b then _ else _] => destruct b end;
      [now left | now right]. }
  exists key_cols.
  destruct (drop_duplicates df_orig key_cols) as [o|] eqn:Eo.
  - destruct (drop_duplicates df_web key_cols) as [w|] eqn:Ew.
    + exists o, w. apply drop_duplicates_incl in Eo as [_ Eo].
      apply drop_duplicates_incl in Ew as [_ Ew]. repeat split; assumption.
    + exists o, df_web. apply drop_duplicates_incl in Eo as [_ Eo].
      repeat split; try assumption. apply incl_refl.
  - exists df_orig, df_web. repeat split; try assumption; apply incl_refl.
Qed.



(** ** Composite keys *)

Lemma series_get_mem (row : Series) (col : string) :
  mem_str col (map fst row) = true -> exists v, series_get row col = Ok v.
Proof.
  induction row as [|[c v] row IH]; cbn; [discriminate|].
  rewrite String.eqb_sym. destruct (String.eqb c col); cbn; eauto.
Qed.

Section CompositeKeyFacts.

Variable to_datetime : value -> option string.

Lemma composite_parts_raise (row : Series) (key_cols : list string) (e : exn) :
  composite_parts to_datetime row key_cols = Raise e -> e = int_too_large.
Proof.
  induction key_cols as [|col rest IH]; cbn; [discriminate|].
  destruct (mem_str col (map fst row)) eqn:Hmem; cbn; [|discriminate].
  destruct (series_get_mem row col Hmem) as (v & ->). cbn.
  destruct (isna v); [discriminate|].
  destruct (String.eqb (PyStr.strip (py_str v)) ""); [discriminate|].
  destruct (String.eqb (PyStr.lower col) "account number").
  - destruct (to_int_or_none v) as [num|e'] eqn:Hint; cbn.
    + destruct (composite_parts to_datetime row rest); cbn;
        [discriminate | intros [= <-]; now apply IH].
    + intros [= <-]. eapply to_int_or_none_raise; eassumption.
  - destruct (PyStr.contains "date" (PyStr.lower col)); cbn;
      (destruct (composite_parts to_datetime row rest); cbn;
       [discriminate | intros [= <-]; now apply IH]).
Qed.

Lemma composite_parts_blank (row : Series) (key_cols : list string) (col : string) :
  In col key_cols -> key_column_blank row col ->
  forall parts, composite_parts to_datetime row key_cols <> Ok (Some parts).
Proof.
  induction key_cols as [|c rest IH]; cbn; [tauto|].
  intros [-> | Hin] Hblank parts.
  - destruct Hblank as [-> | (v & -> & Hv)]; cbn; [discriminate|].
    destruct (mem_str col (map fst row)); cbn; [|discriminate].
    destruct (isna v) eqn:Hna; [discriminate|].
    destruct Hv as [Hv | ->]; [congruence | cbn; discriminate].
  - destruct (mem_str c (map fst row)); cbn; [|discriminate].
    destruct (series_get row c) as [v|]; cbn; [|discriminate].
    destruct (isna v); [discriminate|].
    destruct (String.eqb (PyStr.strip (py_str v)) ""); [discriminate|].
    match goal with
    | |- bind ?p _ <> _ => destruct p as [part|]; cbn; [|discriminate]
    end.
    destruct (composite_parts to_datetime row rest) as [[ps|]|] eqn:Hrest; cbn;
      try discriminate.
    exfalso. exact (IH Hin Hblank ps eq_refl).
Qed.

Lemma composite_acct_key_blank (row : Series) (key_cols : list string) (col : string) :
  In col key_cols -> key_column_blank row col ->
  composite_acct_key to_datetime row key_cols = Ok None
  \/ composite_acct_key to_datetime row key_cols = Raise int_too_large.
Proof.
  intros Hin Hblank. unfold composite_acct_key.
  destruct (composite_parts to_datetime row key_cols) as [[ps|]|e] eqn:Hp; cbn.
  - exfalso. exact (composite_parts_blank row key_cols col Hin Hblank ps Hp).
  - now left.
  - right. f_equal. eapply composite_parts_raise; eassumption.
Qed.

End CompositeKeyFacts.

(** The key the map matcher uses: the account key of the "Account Number"
    cell when that is the only key column, the composite key of the three
    preferred columns when all are present. *)
Lemma map_key_selection (to_datetime : value -> option string) (r : Series) :
  map_key to_datetime ["Account Number"] r
  = (v <- series_get r "Account Number" ;; acct_key v)
  /\ map_key to_datetime ["Account Number"; "Investment Name"; "Purchase Date"] r
     = composite_acct_key to_datetime r
                          ["Account Number"; "Investment Name"; "Purchase Date"].
Proof. split; reflexivity. Qed.

(** C3, as the code has it.  [composite_acct_key] yields no key for a row
    that lacks a key column or holds it blank: it returns [None], unless an
    account number before the blank column is an integer too large for a
    float, which raises.  The map matcher enters only rows with a key into
    its maps and has no later pass over the others: a row without key is
    named by no event, so it is in none of the four lists, on either side. *)
Theorem composite_key_blank_rows_are_dropped
        (to_datetime : value -> option string) (key_cols : list string) :
  (forall row col,
      In col key_cols -> key_column_blank row col ->
      composite_acct_key to_datetime row key_cols = Ok None
      \/ composite_acct_key to_datetime row key_cols = Raise int_too_large)
  /\ (forall common_cols df_orig df_web st,
        map_match (fun r => composite_acct_key to_datetime r key_cols)
                  common_cols df_orig df_web
                  (acc_init (make_headers Tripled common_cols)) = Ok st ->
        replay Tripled common_cols df_orig df_web (matched st)
               (acc_init (make_headers Tripled common_cols)) = Ok st
        /\ (forall i row col,
              nth_error (df_rows df_orig) i = Some row ->
              In col key_cols -> key_column_blank row col ->
              ~ appears_orig (matched st) i)
        /\ (forall j row col,
              nth_error (df_rows df_web) j = Some row ->
              In col key_cols -> key_column_blank row col ->
              ~ appears_web (matched st) j)).
Proof.
  split; [intros row col; apply composite_acct_key_blank|].
  intros cols dfo dfw st H.
  apply map_match_appears in H as (Hr & Ho & Hw).
  split; [assumption|]. split.
  - intros i row col Hrow Hin Hblank Happ.
    apply Ho in Happ as (k & r & Hr' & Hk & _).
    rewrite Hrow in Hr'. injection Hr' as <-.
    destruct (composite_acct_key_blank to_datetime row key_cols col Hin Hblank);
      congruence.
  - intros j row col Hrow Hin Hblank Happ.
    apply Hw in Happ as (k & r & Hr' & Hk & _).
    rewrite Hrow in Hr'. injection Hr' as <-.
    destruct (composite_acct_key_blank to_datetime row key_cols col Hin Hblank);
      congruence.
Qed.

Lemma composite_key_blank_rows_are_dropped_witness :
  key_column_blank txn_blank_row "Investment Name"
  /\ composite_acct_key to_datetime_unparsed txn_blank_row
                        ["Account Number"; "Investment Name"; "Purchase Date"]
     = Ok None
  /\ exists st,
      map_match (fun r => composite_acct_key to_datetime_unparsed r
                            ["Account Number"; "Investment Name"; "Purchase Date"])
                txn_cols txn_orig txn_web
                (acc_init (make_headers Tripled txn_cols)) = Ok st
      /\ ~ appears_orig (matched st) 0.
Proof.
  assert (Hblank : key_column_blank txn_blank_row "Investment Name").
  { right. exists VNone. split; [reflexivity | now left]. }
  assert (Hin : In "Investment Name"
                   ["Account Number"; "Investment Name"; "Purchase Date"])
    by (right; now left).
  destruct (composite_key_blank_rows_are_dropped
              to_datetime_unparsed
              ["Account Number"; "Investment Name"; "Purchase Date"])
    as (Hkey & Hdrop).
  split; [exact Hblank|]. split; [reflexivity|].
  eexists. split; [vm_compute; reflexivity|].
  refine (proj1 (proj2 (Hdrop txn_cols txn_orig txn_web _ _))
                0%nat txn_blank_row "Investment Name" eq_refl Hin Hblank).
  vm_compute. reflexivity.
Defined.

(** C3 as stated fails: the original row of the example, whose investment
    name is blank, is reported neither as only in the original nor as only
    in the website. *)
Lemma blank_key_row_disappears :
  ~ (forall st,
        match_sheet to_datetime_unparsed "transaction_details"
                    txn_cols txn_orig txn_web = Ok st ->
        data_rows (structured_only_orig st) <> []
        \/ data_rows (structured_only_web st) <> []).
Proof.
  intros H.
  assert (Hrun : exists st,
             match_sheet to_datetime_unparsed "transaction_details"
                         txn_cols txn_orig txn_web = Ok st
             /\ data_rows (structured_only_orig st) = []
             /\ data_rows (structured_only_web st) = [])
    by (eexists; split; [vm_compute; reflexivity | split; reflexivity]).
  destruct Hrun as (st & Hst & Ho & Hw).
  destruct (H st Hst) as [Hne | Hne]; apply Hne; assumption.
Qed.

(** ** The orchestrator *)

Lemma dict_get_set_same (d : list (string * sheet_entry)) (k : string) (v : sheet_entry) :
  dict_get (dict_set d k v) k = Some v.
Proof.
  induction d as [|[k' v'] d IH]; cbn.
  - now rewrite String.eqb_refl.
  - destruct (String.eqb k' k) eqn:E; cbn; rewrite E; [reflexivity | exact IH].
Qed.

Lemma dict_get_set_other (d : list (string * sheet_entry)) (k k' : string)
      (v : sheet_entry) :
  k <> k' -> dict_get (dict_set d k v) k' = dict_get d k'.
Proof.
  intros Hne. induction d as [|[k0 v0] d IH]; cbn.
  - destruct (String.eqb_spec k k'); [contradiction | reflexivity].
  - destruct (String.eqb_spec k0 k) as [->|]; cbn.
    + destruct (String.eqb_spec k k'); [contradiction | reflexivity].
    + destruct (String.eqb k0 k'); [reflexivity | exact IH].
Qed.

Lemma dict_set_keys_new (d : list (string * sheet_entry)) (k : string) (v : sheet_entry) :
  ~ In k (map fst d) -> map fst (dict_set d k v) = (map fst d ++ [k])%list.
Proof.
  induction d as [|[k' v'] d IH]; cbn; [reflexivity|].
  intros Hnotin. destruct (String.eqb_spec k' k) as [->|]; [tauto|].
  cbn. f_equal. apply IH. tauto.
Qed.

(** *** Titles that openpyxl accepts *)













Section OrchestratorFacts.

Variable to_datetime : value -> option string.
Variable avoid_duplicate_name : list string -> string -> string.
Variables original website : document.

Let step := sheet_step to_datetime original website.
Let outcome := fun item : string * sheet_cfg =>
  sheet_outcome to_datetime original website (fst item) (snd item).

Lemma fold_summary_rows (config : sheets_config_t) (out : comparison) :
  summary_rows (fold_left step config out)
  = (summary_rows out ++ map (fun item => snd (outcome item)) config)%list.
Proof.
  revert out. induction config as [|item config IH]; intros out; cbn.
  - now rewrite app_nil_r.
  - rewrite IH. cbn. now rewrite <- app_assoc.
Qed.

Lemma fold_sheets_other (config : sheets_config_t) (out : comparison) (name : string) :
  ~ In name (map fst config) ->
  dict_get (sheets (fold_left step config out)) name = dict_get (sheets out) name.
Proof.
  revert out. induction config as [|item config IH]; intros out Hnotin; cbn.
  - reflexivity.
  - rewrite IH by (cbn in Hnotin; tauto). cbn.
    apply dict_get_set_other. cbn in Hnotin. tauto.
Qed.

Lemma fold_sheets_get (config : sheets_config_t) (out : comparison)
      (name : string) (cfg : sheet_cfg) :
  NoDup (map fst config) -> In (name, cfg) config ->
  dict_get (sheets (fold_left step config out)) name
  = Some (fst (outcome (name, cfg))).
Proof.
  revert out. induction config as [|item config IH]; intros out Hnd Hin; cbn.
  - contradiction.
  - inversion Hnd as [|? ? Hnotin Hnd']; subst.
    destruct Hin as [-> | Hin].
    + rewrite fold_sheets_other by exact Hnotin. cbn.
      apply dict_get_set_same.
    + now apply IH.
Qed.

Lemma fold_sheets_keys (config : sheets_config_t) (out : comparison) :
  NoDup (map fst (sheets out) ++ map fst config)%list ->
  map fst (sheets (fold_left step config out))
  = (map fst (sheets out) ++ map fst config)%list.
Proof.
  revert out. induction config as [|item config IH]; intros out Hnd; cbn.
  - now rewrite app_nil_r.
  - cbn in Hnd. pose proof (NoDup_remove_2 _ _ _ Hnd) as Hnotin.
    assert (Hkeys : map fst (sheets (step out item))
                    = (map fst (sheets out) ++ [fst item])%list).
    { cbn. apply dict_set_keys_new. intros H. apply Hnotin.
      apply in_or_app. now left. }
    rewrite IH; rewrite Hkeys.
    + now rewrite <- app_assoc.
    + rewrite <- app_assoc. exact Hnd.
Qed.


(** The loop with the output workbook returns what the loop over the
    entries and the summary rows alone builds. *)
Lemma run_out_fold (config : sheets_config_t) (st : run) :
  run_out (fold_left (run_step to_datetime avoid_duplicate_name original website)
                     config st)
  = fold_left step config (run_out st).
Proof.
  revert st. induction config as [|item config IH]; intros st; cbn; [reflexivity|].
  now rewrite IH.
Qed.

(** What the loop leaves: the outcome of every configured sheet, and nothing
    else. *)
Lemma loop_outcomes (config : sheets_config_t) :
  NoDup (map fst config) ->
  let out := fold_left step config (mkComparison [summary_header] []) in
  map fst (sheets out) = map fst config
  /\ summary_rows out = summary_header :: map (fun item => snd (outcome item)) config
  /\ forall name cfg, In (name, cfg) config ->
       dict_get (sheets out) name = Some (fst (outcome (name, cfg)))
       /\ In (snd (outcome (name, cfg))) (summary_rows out).
Proof.
  intros Hnd out. subst out. split; [|split].
  - rewrite fold_sheets_keys; [reflexivity | exact Hnd].
  - now rewrite fold_summary_rows.
  - intros name cfg Hin. split.
    + now apply fold_sheets_get.
    + rewrite fold_summary_rows. apply in_or_app. right.
      apply (in_map (fun item => snd (outcome item)) config (name, cfg) Hin).
Qed.

(** A run that returns has opened both workbooks and returns what the loop
    has left. *)
Lemma compare_India_returned_loop (sheets_config : option sheets_config_t)
      (out : comparison) :
  let config := match sheets_config with
                | None => default_sheets_config
                | Some c => c
                end in
  compare_excel_with_gain_summary_inline_India
    to_datetime avoid_duplicate_name original website sheets_config = Ok out ->
  load_workbook original = Ok tt /\ load_workbook website = Ok tt
  /\ out = fold_left step config (mkComparison [summary_header] []).
Proof.
  intros config H. unfold compare_excel_with_gain_summary_inline_India in H.
  fold config in H.
  destruct (load_workbook original) as [[]|]; [|discriminate].
  destruct (load_workbook website) as [[]|]; [|discriminate].
  cbn [bind] in H. cbv zeta in H. bind_inv H. injection H as <-.
  split; [reflexivity|]. split; [reflexivity|]. apply run_out_fold.
Qed.

(** A run that returns holds the outcome of every configured sheet, and
    nothing else. *)
Lemma compare_India_outcomes (sheets_config : option sheets_config_t)
      (out : comparison) :
  let config := match sheets_config with
                | None => default_sheets_config
                | Some c => c
                end in
  NoDup (map fst config) ->
  compare_excel_with_gain_summary_inline_India
    to_datetime avoid_duplicate_name original website sheets_config = Ok out ->
  map fst (sheets out) = map fst config
  /\ summary_rows out
     = summary_header :: map (fun item => snd (outcome item)) config
  /\ forall name cfg, In (name, cfg) config ->
       dict_get (sheets out) name = Some (fst (outcome (name, cfg)))
       /\ In (snd (outcome (name, cfg))) (summary_rows out).
Proof.
  intros config Hnd H.
  apply compare_India_returned_loop in H as (_ & _ & ->).
  exact (loop_outcomes _ Hnd).
Qed.


End OrchestratorFacts.




(** ** Sheets without common columns *)




(** ** The comparator of [utils.py] *)

Lemma process_sheet_row_shape to_datetime original website name cfg entry row :
  process_sheet to_datetime original website name cfg = Ok (entry, row) ->
  exists counts, row = JStr name :: counts /\ List.length counts = 5%nat.
Proof.
  unfold process_sheet. intros H.
  bind_inv H. bind_inv H. bind_inv H. bind_inv H.
  match type of H with
  | context [match ?l with [] => _ | _ :: _ => _ end] => destruct l
  end.
  - injection H as <- <-. eexists. split; reflexivity.
  - bind_inv H. injection H as <- <-. eexists. split; reflexivity.
Qed.



(** ** Runs that return

    On well-formed frames both matchers return: the statements above about
    what a returned accumulator holds apply to every such sheet. *)

Lemma cell_converts_coerce (v : value) :
  cell_converts v -> exists r, coerce_numeric v = Ok r.
Proof.
  intros (r & H). unfold to_int_or_none in H.
  destruct (coerce_numeric v); [eauto | discriminate].
Qed.

Lemma values_equal_returns (a b : value) (tol : Z) :
  cell_converts a -> cell_converts b -> exists r, values_equal a b tol = Ok r.
Proof.
  intros (ra & Ha) (rb & Hb). unfold values_equal. rewrite Ha, Hb. cbn.
  destruct ra, rb; eauto.
Qed.

Lemma values_different_returns (a b : value) (tol : Z) :
  cell_converts a -> cell_converts b -> exists r, values_different a b tol = Ok r.
Proof.
  intros Ha Hb. unfold values_different.
  destruct (values_equal_returns a b tol Ha Hb) as (r & ->). cbn. eauto.
Qed.

Lemma row_key_loop_returns (cols : Series) :
  (forall c v, In (c, v) cols -> cell_converts v) ->
  forall key_parts max_parts, exists k, row_key_loop cols key_parts max_parts = Ok k.
Proof.
  induction cols as [|[c v] cols IH]; intros Hok kp n; cbn; [eauto|].
  destruct (Hok c v (or_introl eq_refl)) as (r & ->). cbn.
  match goal with |- context [Nat.leb n ?l] => destruct (Nat.leb n l) end; [eauto|].
  apply IH. intros c' v' Hin. apply (Hok c' v'). now right.
Qed.

Lemma row_keys_returns (cols : list string) (rows : list Series) :
  Forall (row_ok cols) rows -> exists ks, row_keys rows = Ok ks.
Proof.
  induction 1 as [|r rows [_ Hr] _ (ks & IH)]; cbn; [eauto|].
  destruct (row_key_loop_returns r Hr [] 2%nat) as (k & Hk).
  unfold row_key. rewrite Hk, IH. cbn. eauto.
Qed.

Lemma row_keys_length (rows : list Series) (ks : list row_key_t) :
  row_keys rows = Ok ks -> List.length ks = List.length rows.
Proof.
  revert ks. induction rows as [|r rows IH]; cbn; intros ks H.
  - now injection H as <-.
  - bind_inv H. bind_inv H. injection H as <-. cbn. f_equal. now apply IH.
Qed.

Lemma build_key_index_loop_returns (cols : list string) (rows : list Series) :
  Forall (row_ok cols) rows ->
  forall i idx, exists idx', build_key_index_loop rows i idx 2 = Ok idx'.
Proof.
  induction 1 as [|r rows [_ Hr] _ IH]; intros i idx; cbn; [eauto|].
  destruct (row_key_loop_returns r Hr [] 2%nat) as (k & Hk).
  unfold row_key. rewrite Hk. cbn. apply IH.
Qed.

Lemma positions_bound (k : row_key_t) (ks : list row_key_t) :
  forall i j, In j (positions k ks i) -> (j < i + List.length ks)%nat.
Proof.
  induction ks as [|k' ks IH]; cbn; intros i j; [tauto|].
  destruct (key_eqb k' k); cbn; [intros [<- | H] | intros H];
    try lia; apply IH in H; lia.
Qed.

Lemma row_values_returns (cols : list string) (row : Series) :
  row_ok cols row -> exists vs, row_values cols row = Ok vs.
Proof.
  intros [Hcols _]. induction cols as [|c cols IH]; cbn; [eauto|].
  destruct (Hcols c (or_introl eq_refl)) as (v & -> & _). cbn.
  destruct IH as (vs & ->); [|cbn; eauto].
  intros col Hin. apply Hcols. now right.
Qed.

Lemma all_values_equal_returns (cols : list string) (o w : Series) :
  row_ok cols o -> row_ok cols w -> exists b, all_values_equal cols o w = Ok b.
Proof.
  intros [Ho _] [Hw _]. induction cols as [|c cols IH]; cbn; [eauto|].
  destruct (Ho c (or_introl eq_refl)) as (vo & -> & Hco).
  destruct (Hw c (or_introl eq_refl)) as (vw & -> & Hcw). cbn.
  destruct (values_equal_returns vo vw NUMERIC_TOLERANCE Hco Hcw) as (b & ->). cbn.
  destruct b; [|eauto].
  apply IH; intros col Hin; [apply Ho | apply Hw]; now right.
Qed.

Lemma diff_triples_returns (cols : list string) (o w : Series) :
  row_ok cols o -> row_ok cols w -> exists r, diff_triples cols o w = Ok r.
Proof.
  intros [Ho _] [Hw _]. induction cols as [|c cols IH]; cbn; [eauto|].
  assert (Ho' : forall col, In col cols ->
                  exists v, series_get o col = Ok v /\ cell_converts v)
    by (intros col Hin; apply Ho; now right).
  assert (Hw' : forall col, In col cols ->
                  exists v, series_get w col = Ok v /\ cell_converts v)
    by (intros col Hin; apply Hw; now right).
  destruct (Ho c (or_introl eq_refl)) as (vo & -> & Hco).
  destruct (Hw c (or_introl eq_refl)) as (vw & -> & Hcw). cbn.
  destruct (values_different_returns vo vw NUMERIC_TOLERANCE Hco Hcw) as (b & ->).
  cbn. unfold diff_value.
  destruct (cell_converts_coerce vo Hco) as (fo & Hfo).
  destruct (cell_converts_coerce vw Hcw) as (fw & Hfw).
  destruct (IH Ho' Hw') as (r & ->).
  destruct b; [rewrite Hfo, Hfw; cbn; destruct fo, fw|]; cbn; eauto.
Qed.

Lemma diff_simple_returns (cols : list string) (o w : Series) :
  row_ok cols o -> row_ok cols w -> exists r, diff_simple cols o w = Ok r.
Proof.
  intros [Ho _] [Hw _]. induction cols as [|c cols IH]; cbn; [eauto|].
  assert (Ho' : forall col, In col cols ->
                  exists v, series_get o col = Ok v /\ cell_converts v)
    by (intros col Hin; apply Ho; now right).
  assert (Hw' : forall col, In col cols ->
                  exists v, series_get w col = Ok v /\ cell_converts v)
    by (intros col Hin; apply Hw; now right).
  destruct (Ho c (or_introl eq_refl)) as (vo & -> & Hco).
  destruct (Hw c (or_introl eq_refl)) as (vw & -> & Hcw). cbn.
  destruct (values_different_returns vo vw NUMERIC_TOLERANCE Hco Hcw) as (b & ->).
  cbn. destruct (IH Ho' Hw') as (r & ->). cbn. eauto.
Qed.

Lemma render_diff_returns (mode : header_mode) (cols : list string) (o w : Series) :
  row_ok cols o -> row_ok cols w -> exists r, render_diff mode cols o w = Ok r.
Proof.
  intros Ho Hw. destruct mode; cbn.
  - now apply diff_triples_returns.
  - destruct (diff_simple_returns cols o w Ho Hw) as (r & ->). cbn. eauto.
Qed.

Lemma compare_pair_returns mode cols (o w : Series) (i j : nat) (st : acc) :
  row_ok cols o -> row_ok cols w ->
  exists st', compare_pair mode cols o w i j st = Ok st'.
Proof.
  intros Ho Hw. unfold compare_pair.
  destruct (all_values_equal_returns cols o w Ho Hw) as (b & ->). cbn.
  destruct b.
  - unfold render_common. destruct (row_values_returns cols o Ho) as (vs & ->).
    cbn. eauto.
  - destruct (render_diff_returns mode cols o w Ho Hw) as (r & ->). cbn. eauto.
Qed.

Lemma df_loc_ok (cols : list string) (df : DataFrame) (j : nat) :
  frame_ok cols df -> (j < List.length (df_rows df))%nat ->
  exists w, df_loc df j = Ok w /\ row_ok cols w.
Proof.
  intros Hf Hj. unfold df_loc.
  destruct (nth_error (df_rows df) j) as [w|] eqn:Hn.
  - exists w. split; [reflexivity|].
    unfold frame_ok in Hf. rewrite Forall_forall in Hf.
    apply Hf. eapply nth_error_In; eassumption.
  - apply nth_error_None in Hn. lia.
Qed.

Lemma index_match_orig_loop_returns mode cols idx dfw :
  frame_ok cols dfw ->
  (forall k j, In j (index_get idx k) -> (j < List.length (df_rows dfw))%nat) ->
  forall rows, Forall (row_ok cols) rows ->
  forall i st, exists st',
      index_match_orig_loop mode cols idx dfw rows i st = Ok st'.
Proof.
  intros Hfw Hidx. induction 1 as [|r rows Hr _ IH]; intros i st; cbn; [eauto|].
  assert (Hstep : exists st1,
             index_match_orig_step mode cols idx dfw i r st = Ok st1).
  { unfold index_match_orig_step.
    destruct (row_key_loop_returns r (proj2 Hr) [] 2%nat) as (k & Hk).
    unfold row_key. rewrite Hk. cbn.
    destruct (index_get idx k) as [|j js] eqn:Hget.
    - unfold render_only_orig.
      destruct (row_values_returns cols r Hr) as (vs & ->). cbn. eauto.
    - destruct (df_loc_ok cols dfw j Hfw) as (w & -> & Hw).
      + apply (Hidx k). rewrite Hget. now left.
      + cbn. now apply compare_pair_returns. }
  destruct Hstep as (st1 & ->). cbn. apply IH.
Qed.

Lemma index_match_web_loop_returns mode cols oks :
  forall rows, Forall (row_ok cols) rows ->
  forall j st, exists st', index_match_web_loop mode cols oks rows j st = Ok st'.
Proof.
  induction 1 as [|r rows Hr _ IH]; intros j st; cbn; [eauto|].
  destruct (row_key_loop_returns r (proj2 Hr) [] 2%nat) as (k & Hk).
  unfold row_key. rewrite Hk. cbn.
  destruct (key_in k oks); [apply IH|].
  unfold render_only_web. destruct (row_values_returns cols r Hr) as (vs & ->).
  cbn. apply IH.
Qed.

(** The indexed matcher returns on well-formed frames. *)
Lemma index_match_returns mode cols dfo dfw (st : acc) :
  frame_ok cols dfo -> frame_ok cols dfw ->
  exists st', index_match mode cols dfo dfw st = Ok st'.
Proof.
  intros Ho Hw. unfold index_match, build_key_index.
  destruct (build_key_index_loop_returns cols (df_rows dfw) Hw O []) as (idx & Hidx).
  rewrite Hidx. cbn.
  destruct (row_keys_returns cols (df_rows dfo) Ho) as (ko & ->). cbn.
  apply build_key_index_loop_spec in Hidx as (kw & Hkw & Hget).
  destruct (index_match_orig_loop_returns mode cols idx dfw Hw) with
    (rows := df_rows dfo) (i := O) (st := st) as (st1 & ->).
  - intros k j Hin. rewrite Hget in Hin. cbn in Hin.
    apply positions_bound in Hin. rewrite (row_keys_length _ _ Hkw) in Hin. lia.
  - exact Ho.
  - cbn. now apply index_match_web_loop_returns.
Qed.

Lemma build_acct_map_returns keyf (rows : list Series) :
  Forall (fun r => exists ko, keyf r = Ok ko) rows ->
  forall i m, exists m', build_acct_map keyf rows i m = Ok m'.
Proof.
  induction 1 as [|r rows (ko & Hk) _ IH]; intros i m; cbn; [eauto|].
  rewrite Hk. cbn. apply IH.
Qed.

Lemma map_match_orig_loop_returns cols dfo dfw wm :
  frame_ok cols dfo -> frame_ok cols dfw ->
  (forall k j, acct_map_get wm k = Some j -> (j < List.length (df_rows dfw))%nat) ->
  forall entries st,
    (forall k p, In (k, p) entries -> (p < List.length (df_rows dfo))%nat) ->
    exists st', map_match_orig_loop cols dfo dfw wm entries st = Ok st'.
Proof.
  intros Ho Hw Hwm. induction entries as [|[acc i] entries IH]; intros st Hin; cbn;
    [eauto|].
  destruct (df_loc_ok cols dfo i Ho) as (o & -> & Hro);
    [apply (Hin acc); now left|]. cbn.
  assert (Hstep : exists st1,
             match acct_map_get wm acc with
             | Some web_idx =>
                 web_row <- df_loc dfw web_idx ;;
                 compare_pair Tripled cols o web_row i web_idx st
             | None =>
                 row <- render_only_orig Tripled cols o ;;
                 Ok (add_only_orig st row i)
             end = Ok st1).
  { destruct (acct_map_get wm acc) as [j|] eqn:Hget.
    - destruct (df_loc_ok cols dfw j Hw (Hwm acc j Hget)) as (w & -> & Hrw). cbn.
      now apply compare_pair_returns.
    - unfold render_only_orig. destruct (row_values_returns cols o Hro) as (vs & ->).
      cbn. eauto. }
  destruct Hstep as (st1 & ->). cbn. apply IH.
  intros k p H. apply (Hin k p). now right.
Qed.

Lemma map_match_web_loop_returns cols dfw om :
  frame_ok cols dfw ->
  forall entries st,
    (forall k p, In (k, p) entries -> (p < List.length (df_rows dfw))%nat) ->
    exists st', map_match_web_loop cols dfw om entries st = Ok st'.
Proof.
  intros Hw. induction entries as [|[acc j] entries IH]; intros st Hin; cbn; [eauto|].
  assert (Hrest : forall k p, In (k, p) entries -> (p < List.length (df_rows dfw))%nat)
    by (intros k p H; apply (Hin k p); now right).
  destruct (acct_map_get om acc); [now apply IH|].
  destruct (df_loc_ok cols dfw j Hw) as (w & -> & Hrw); [apply (Hin acc); now left|].
  cbn. unfold render_only_web. destruct (row_values_returns cols w Hrw) as (vs & ->).
  cbn. now apply IH.
Qed.

(** The map matcher returns on well-formed frames whose rows all have a key
    or no key. *)
Lemma map_match_returns keyf cols dfo dfw (st : acc) :
  frame_ok cols dfo -> frame_ok cols dfw ->
  Forall (fun r => exists ko, keyf r = Ok ko) (df_rows dfo) ->
  Forall (fun r => exists ko, keyf r = Ok ko) (df_rows dfw) ->
  exists st', map_match keyf cols dfo dfw st = Ok st'.
Proof.
  intros Ho Hw Hko Hkw. unfold map_match.
  destruct (build_acct_map_returns keyf _ Hko O []) as (om & Hom).
  destruct (build_acct_map_returns keyf _ Hkw O []) as (wm & Hwm).
  rewrite Hom, Hwm. cbn.
  apply build_acct_map_first_occurrences in Hom as (_ & Hfo).
  apply build_acct_map_first_occurrences in Hwm as (_ & Hfw).
  assert (Hbo : forall k p, In (k, p) om -> (p < List.length (df_rows dfo))%nat).
  { intros k p Hin. apply Hfo in Hin as (r & Hr & _).
    apply nth_error_Some. congruence. }
  assert (Hbw : forall k p, In (k, p) wm -> (p < List.length (df_rows dfw))%nat).
  { intros k p Hin. apply Hfw in Hin as (r & Hr & _).
    apply nth_error_Some. congruence. }
  destruct (map_match_orig_loop_returns cols dfo dfw wm Ho Hw) with
    (entries := om) (st := st) as (st1 & ->).
  - intros k j Hget. apply (Hbw k). now apply acct_map_get_In.
  - exact Hbo.
  - cbn. now apply map_match_web_loop_returns.
Qed.

Lemma to_int_or_none_text_returns (s : string) :
  exists r, to_int_or_none (VStr s) = Ok r.
Proof.
  unfold to_int_or_none, coerce_numeric. cbn.
  destruct (coerce_numeric_text s) as [f|]; cbn; [|eauto].
  destruct (PyFloat.to_Z f); eauto.
Qed.

Lemma acct_key_returns (v : value) : exists ko, acct_key v = Ok ko.
Proof.
  unfold acct_key. destruct (isna v); [eauto|].
  destruct (String.eqb (PyStr.strip (py_str v)) ""); [eauto|].
  destruct (to_int_or_none_text_returns (PyStr.strip (py_str v))) as (r & ->).
  cbn. destruct r; eauto.
Qed.

Lemma series_get_In (row : Series) (c : string) (v : value) :
  series_get row c = Ok v -> In (c, v) row.
Proof.
  induction row as [|[c' v'] row IH]; cbn; [discriminate|].
  destruct (String.eqb_spec c' c) as [->|].
  - intros [= ->]. now left.
  - intros H. right. now apply IH.
Qed.

Lemma composite_parts_returns to_datetime (row : Series) (key_cols : list string) :
  (forall c v, In (c, v) row -> cell_converts v) ->
  exists ps, composite_parts to_datetime row key_cols = Ok ps.
Proof.
  intros Hrow. induction key_cols as [|col rest (ps & IH)]; cbn; [eauto|].
  destruct (mem_str col (map fst row)) eqn:Hmem; cbn; [|eauto].
  destruct (series_get_mem row col Hmem) as (v & Hv). rewrite Hv. cbn.
  destruct (isna v); [eauto|].
  destruct (String.eqb (PyStr.strip (py_str v)) ""); [eauto|].
  destruct (Hrow col v (series_get_In row col v Hv)) as (r & Hr).
  destruct (String.eqb (PyStr.lower col) "account number");
    [rewrite Hr | destruct (PyStr.contains "date" (PyStr.lower col))];
    cbn; rewrite IH; cbn; eauto.
Qed.

Lemma map_key_returns to_datetime (key_cols cols : list string) (r : Series) :
  row_ok cols r -> In "Account Number" cols ->
  exists ko, map_key to_datetime key_cols r = Ok ko.
Proof.
  intros [Hcols Hcells] Hin.
  assert (Hc : exists ko, composite_acct_key to_datetime r key_cols = Ok ko).
  { unfold composite_acct_key.
    destruct (composite_parts_returns to_datetime r key_cols Hcells) as (ps & ->).
    cbn. eauto. }
  unfold map_key. destruct key_cols as [|k [|k' rest]]; try exact Hc.
  destruct (String.eqb k "Account Number"); [|exact Hc].
  destruct (Hcols _ Hin) as (v & -> & _). cbn. apply acct_key_returns.
Qed.

Lemma drop_duplicates_frame_ok (cols subset : list string) (df df' : DataFrame) :
  frame_ok cols df -> drop_duplicates df subset = Ok df' -> frame_ok cols df'.
Proof.
  unfold frame_ok. intros Hf H. apply drop_duplicates_incl in H as [_ Hincl].
  rewrite Forall_forall in *. auto.
Qed.

Lemma mem_str_In (x : string) (l : list string) : mem_str x l = true -> In x l.
Proof.
  unfold mem_str. intros H. apply existsb_exists in H as (y & Hin & Heq).
  apply String.eqb_eq in Heq. now subst.
Qed.

(** Every branch of [match_sheet] returns on well-formed frames. *)
Lemma match_sheet_returns to_datetime (sheet_name : string) (cols : list string)
      (dfo dfw : DataFrame) :
  frame_ok cols dfo -> frame_ok cols dfw ->
  df_columns dfo = cols ->
  exists st, match_sheet to_datetime sheet_name cols dfo dfw = Ok st.
Proof.
  intros Ho Hw Hcols. unfold match_sheet.
  destruct (mem_str sheet_name _); cbn [andb];
    [|now apply index_match_returns].
  destruct (mem_str "Account Number" (df_columns dfo)) eqn:Han; cbn [andb];
    [|now apply index_match_returns].
  destruct (mem_str "Account Number" (df_columns dfw)); cbn [andb];
    [|now apply index_match_returns].
  apply mem_str_In in Han. rewrite Hcols in Han. cbv zeta.
  match goal with
  | |- context [drop_duplicates dfo ?k] => set (key_cols := k)
  end.
  assert (Hdd : exists o w,
             match drop_duplicates dfo key_cols, drop_duplicates dfw key_cols with
             | Ok o, Ok w => (o, w)
             | Ok o, Raise _ => (o, dfw)
             | Raise _, _ => (dfo, dfw)
             end = (o, w) /\ frame_ok cols o /\ frame_ok cols w).
  { destruct (drop_duplicates dfo key_cols) as [o|] eqn:Eo.
    - destruct (drop_duplicates dfw key_cols) as [w|] eqn:Ew.
      + exists o, w. split; [reflexivity|]. split.
        * exact (drop_duplicates_frame_ok cols _ _ _ Ho Eo).
        * exact (drop_duplicates_frame_ok cols _ _ _ Hw Ew).
      + exists o, dfw. split; [reflexivity|]. split; [|assumption].
        exact (drop_duplicates_frame_ok cols _ _ _ Ho Eo).
    - exists dfo, dfw. split; [reflexivity|]. split; assumption. }
  destruct Hdd as (o & w & -> & Hfo & Hfw).
  destruct (String.eqb sheet_name "Gain Summary");
    [now apply index_match_returns|].
  apply map_match_returns; try assumption.
  - unfold frame_ok in Hfo. rewrite Forall_forall in *. intros r Hr.
    eapply map_key_returns; [apply Hfo; exact Hr | exact Han].
  - unfold frame_ok in Hfw. rewrite Forall_forall in *. intros r Hr.
    eapply map_key_returns; [apply Hfw; exact Hr | exact Han].
Qed.

Lemma series_get_project (row : Series) (cols : list string) (c : string) (v : value) :
  In c cols -> series_get row c = Ok v -> series_get (project row cols) c = Ok v.
Proof.
  intros Hin Hv. induction cols as [|c0 cols IH]; [contradiction|].
  unfold project. cbn [flat_map]. fold (project row cols).
  destruct (String.eqb_spec c0 c) as [->|Hne].
  - rewrite Hv. cbn. now rewrite String.eqb_refl.
  - destruct Hin as [->|Hin]; [contradiction|].
    destruct (series_get row c0); cbn; [|now apply IH].
    destruct (String.eqb_spec c0 c); [contradiction | now apply IH].
Qed.

Lemma In_project (row : Series) (cols : list string) (c : string) (v : value) :
  In (c, v) (project row cols) -> In (c, v) row.
Proof.
  unfold project. intros H. apply in_flat_map in H as (c0 & _ & H).
  destruct (series_get row c0) as [v0|] eqn:Hv; [|contradiction].
  destruct H as [[= <- <-] | []]. now apply series_get_In.
Qed.

Lemma select_columns_frame_ok (df : DataFrame) (cols : list string) :
  read_ok df -> incl cols (df_columns df) -> frame_ok cols (select_columns df cols).
Proof.
  unfold read_ok, frame_ok, select_columns. cbn. intros Hr Hincl.
  rewrite Forall_forall in *. intros row' Hin.
  apply in_map_iff in Hin as (row & <- & Hin). destruct (Hr row Hin) as [Hc Hcells].
  split.
  - intros col Hcol. destruct (Hc col (Hincl col Hcol)) as (v & Hv).
    exists v. split; [now apply series_get_project|].
    apply (Hcells col). now apply series_get_In.
  - intros c v H. apply (Hcells c). eapply In_project; eassumption.
Qed.

(** A sheet whose two frames are read and well formed is processed without
    error. *)
Lemma process_sheet_returns to_datetime (original website : document)
      (sheet_name : string) (cfg : sheet_cfg) (header_row : Z)
      (df_orig df_web : DataFrame) :
  cfg_get cfg "header_row" = Ok header_row ->
  read_excel original sheet_name (header_row - 1) = Ok df_orig ->
  read_excel website sheet_name (header_row - 1) = Ok df_web ->
  read_ok df_orig -> read_ok df_web ->
  exists entry row,
    process_sheet to_datetime original website sheet_name cfg = Ok (entry, row)
    /\ error entry = None.
Proof.
  intros Hcfg Ho Hw Hro Hrw. unfold process_sheet.
  rewrite Hcfg. cbn [bind]. rewrite Ho, Hw. cbn [bind].
  match goal with
  | |- context [match ?l with [] => _ | _ :: _ => _ end] =>
      remember l as common_cols eqn:Hcc
  end.
  destruct common_cols as [|c cols]; [do 2 eexists; split; reflexivity|].
  assert (Ho' : incl (c :: cols) (df_columns df_orig)
                /\ incl (c :: cols) (df_columns df_web)).
  { rewrite Hcc. split; intros x Hx;
      (destruct (mem_str sheet_name _);
       [apply filter_In in Hx as [Hx _]|]; apply filter_In in Hx as [Hx Hm]);
      try assumption; now apply mem_str_In. }
  destruct Ho' as [Hio Hiw].
  destruct (match_sheet_returns to_datetime sheet_name (c :: cols)
              (select_columns df_orig (c :: cols))
              (select_columns df_web (c :: cols))) as (st & ->).
  - now apply select_columns_frame_ok.
  - now apply select_columns_frame_ok.
  - reflexivity.
  - cbn. do 2 eexists. split; reflexivity.
Qed.

(** * Further properties of the code *)

(** ** Characters and trimming *)

Ltac by_ascii_cases :=
  let c := fresh "c" in
  intros c; destruct c as [[] [] [] [] [] [] [] []];
  vm_compute; try reflexivity; try discriminate;
  intros; try reflexivity; try discriminate.

Lemma space_is_not_numeric :
  forall c, PyStr.isspace c = true ->
            (PyStr.isdigit c || Ascii.eqb c "." || Ascii.eqb c "-")
            && negb (Ascii.eqb c ",") = false.
Proof. by_ascii_cases. Qed.

Lemma lower_char_idempotent :
  forall c, PyStr.lower_char (PyStr.lower_char c) = PyStr.lower_char c.
Proof. by_ascii_cases. Qed.

Lemma filter_filter (p q : ascii -> bool) (s : string) :
  PyStr.filter p (PyStr.filter q s) = PyStr.filter (fun c => p c && q c) s.
Proof.
  induction s as [|c s IH]; cbn; [reflexivity|].
  destruct (q c); cbn.
  - rewrite andb_true_r. destruct (p c); now rewrite IH.
  - now rewrite andb_false_r.
Qed.

Lemma filter_rstrip (keep : ascii -> bool) (s : string) :
  (forall c, PyStr.isspace c = true -> keep c = false) ->
  PyStr.filter keep (PyStr.rstrip s) = PyStr.filter keep s.
Proof.
  intros Hk. induction s as [|c s IH]; cbn; [reflexivity|].
  destruct (PyStr.rstrip s) as [|c' r].
  - cbn in IH. rewrite <- IH.
    destruct (PyStr.isspace c) eqn:Hc; cbn; [now rewrite (Hk c Hc)|].
    reflexivity.
  - cbn [PyStr.filter]. now rewrite <- IH.
Qed.

Lemma rstrip_app_nonspace (s : string) (c : ascii) :
  PyStr.isspace c = false ->
  PyStr.rstrip (s ++ String c "") = s ++ String c "".
Proof.
  intros Hc. induction s as [|a s IH]; cbn.
  - now rewrite Hc.
  - rewrite IH. destruct s; reflexivity.
Qed.

Lemma endswith_char_app (s : string) (c : ascii) :
  PyStr.endswith_char c (s ++ String c "") = true.
Proof.
  induction s as [|a s IH]; cbn.
  - apply Ascii.eqb_refl.
  - destruct s; exact IH.
Qed.

Lemma drop_last_app (s : string) (c : ascii) :
  PyStr.drop_last (s ++ String c "") = s.
Proof.
  induction s as [|a s IH]; cbn; [reflexivity|].
  destruct s; cbn in *; [reflexivity | now rewrite IH].
Qed.

Lemma lstrip_idempotent (s : string) :
  PyStr.lstrip (PyStr.lstrip s) = PyStr.lstrip s.
Proof.
  induction s as [|c s IH]; cbn; [reflexivity|].
  destruct (PyStr.isspace c) eqn:Hc; [exact IH|]. cbn. now rewrite Hc.
Qed.

Lemma rstrip_cons (c : ascii) (s : string) :
  PyStr.rstrip (String c s)
  = match PyStr.rstrip s with
    | EmptyString => if PyStr.isspace c then EmptyString else String c EmptyString
    | r => String c r
    end.
Proof. reflexivity. Qed.

Lemma rstrip_idempotent (s : string) :
  PyStr.rstrip (PyStr.rstrip s) = PyStr.rstrip s.
Proof.
  induction s as [|c s IH]; cbn; [reflexivity|].
  destruct (PyStr.rstrip s) as [|c' r] eqn:Hr.
  - destruct (PyStr.isspace c) eqn:Hc; cbn; [reflexivity|]. now rewrite Hc.
  - rewrite rstrip_cons, IH. reflexivity.
Qed.

Lemma lstrip_rstrip_fixed (s : string) :
  PyStr.lstrip s = s -> PyStr.lstrip (PyStr.rstrip s) = PyStr.rstrip s.
Proof.
  destruct s as [|c s]; [reflexivity|]. cbn.
  destruct (PyStr.isspace c) eqn:Hc.
  - intros H. exfalso.
    assert (Hlen : (String.length (PyStr.lstrip s) <= String.length s)%nat).
    { clear. induction s as [|a s IH]; cbn; [lia|].
      destruct (PyStr.isspace a); cbn; lia. }
    rewrite H in Hlen. cbn in Hlen. lia.
  - intros _. destruct (PyStr.rstrip s); cbn; now rewrite Hc.
Qed.

Lemma strip_idempotent (s : string) : PyStr.strip (PyStr.strip s) = PyStr.strip s.
Proof.
  unfold PyStr.strip.
  rewrite (lstrip_rstrip_fixed (PyStr.lstrip s) (lstrip_idempotent s)).
  apply rstrip_idempotent.
Qed.

(** ** Value normaliser: errors, blanks, notation *)

(** X1. Reading a cell as a number raises for one kind of cell only: a
    Python [int] too large for a float.  Texts, floats, booleans, missing
    cells and every other object are read without error, and the comparator
    raises exactly when the reading of one of its two values does. *)
Theorem numeric_reading_raises_only_on_huge_int :
  (forall v e,
      coerce_numeric v = Raise e
      <-> exists z, v = VInt z /\ PyFloat.of_Z z = Raise e)
  /\ (forall v e, to_int_or_none v = Raise e <-> coerce_numeric v = Raise e)
  /\ (forall a b tol e,
        values_equal a b tol = Raise e
        <-> to_int_or_none a = Raise e
            \/ ((exists r, to_int_or_none a = Ok r) /\ to_int_or_none b = Raise e)).
Proof.
  split; [|split].
  - intros v e. split.
    + unfold coerce_numeric. destruct (isna v); [discriminate|].
      destruct v; try discriminate.
      destruct (PyFloat.of_Z z) eqn:E; cbn; [discriminate|].
      intros [= <-]. eauto.
    + intros (z & -> & H). unfold coerce_numeric. cbn. now rewrite H.
  - intros v e. unfold to_int_or_none.
    destruct (coerce_numeric v) as [[f|]|e']; cbn.
    + destruct (PyFloat.to_Z f); split; discriminate.
    + split; discriminate.
    + split; intros [= ->]; reflexivity.
  - intros a b tol e. unfold values_equal.
    destruct (to_int_or_none a) as [ra|ea]; cbn.
    + destruct (to_int_or_none b) as [rb|eb]; cbn.
      * split; [destruct ra, rb; discriminate|].
        intros [H | [_ H]]; discriminate.
      * split; [intros [= <-]; right; eauto|].
        intros [H | [_ [= ->]]]; [discriminate | reflexivity].
    + split; [intros [= <-]; now left|].
      intros [[= ->] | [(r & Hr) _]]; [reflexivity | discriminate].
Qed.

Lemma numeric_reading_raises_only_on_huge_int_witness :
  coerce_numeric (VInt (2 ^ 1024)) = Raise int_too_large
  /\ to_int_or_none (VInt (2 ^ 1024)) = Raise int_too_large
  /\ values_equal (VInt 1) (VInt (2 ^ 1024)) 1 = Raise int_too_large.
Proof.
  destruct numeric_reading_raises_only_on_huge_int as (Hc & Ht & Hv).
  assert (H : coerce_numeric (VInt (2 ^ 1024)) = Raise int_too_large).
  { apply Hc. exists (2 ^ 1024). split; [reflexivity | vm_compute; reflexivity]. }
  split; [exact H|]. split; [now apply Ht|].
  apply Hv. right. split; [eexists; vm_compute; reflexivity | now apply Ht].
Defined.

(** X2. A value is tolerant-equal to itself under every tolerance that is
    not negative, provided its reading raises nothing. *)
Theorem values_equal_reflexive (v : value) (tol : Z) :
  0 <= tol -> cell_converts v ->
  values_equal v v tol = Ok true /\ values_different v v tol = Ok false.
Proof.
  intros Htol (r & Hr).
  assert (H : values_equal v v tol = Ok true).
  { unfold values_equal. rewrite Hr. cbn. destruct r as [z|].
    - rewrite Z.sub_diag. cbn. f_equal. now apply Z.leb_le.
    - now rewrite String.eqb_refl. }
  split; [exact H|]. unfold values_different. now rewrite H.
Qed.

Lemma values_equal_reflexive_witness :
  values_equal (VStr "1,000") (VStr "1,000") 0 = Ok true
  /\ values_different (VStr "1,000") (VStr "1,000") 0 = Ok false.
Proof.
  apply values_equal_reflexive; [lia|]. eexists. vm_compute. reflexivity.
Defined.

Lemma norm_text_blank (v : value) : missing_or_blank v -> norm_text v = "".
Proof.
  intros [Hna | (s & [-> | ->] & Hs)]; unfold norm_text.
  - now rewrite Hna.
  - exact Hs.
  - exact Hs.
Qed.

(** X3. Missing and blank cells are all alike: any two of them ([None],
    [NaN], an empty or a white text) are tolerant-equal under every
    tolerance, and neither is read as a number. *)
Theorem blank_cells_are_equal (a b : value) (tol : Z) :
  missing_or_blank a -> missing_or_blank b ->
  to_int_or_none a = Ok None
  /\ values_equal a b tol = Ok true
  /\ values_different a b tol = Ok false.
Proof.
  intros Ha Hb.
  assert (Hia : to_int_or_none a = Ok None)
    by (unfold to_int_or_none; now rewrite (coerce_numeric_blank a Ha)).
  assert (Hib : to_int_or_none b = Ok None)
    by (unfold to_int_or_none; now rewrite (coerce_numeric_blank b Hb)).
  assert (H : values_equal a b tol = Ok true).
  { unfold values_equal. rewrite Hia, Hib. cbn.
    now rewrite (norm_text_blank a Ha), (norm_text_blank b Hb). }
  split; [exact Hia|]. split; [exact H|].
  unfold values_different. now rewrite H.
Qed.

Lemma blank_cells_are_equal_witness :
  values_equal VNone (VStr "   ") 0 = Ok true.
Proof.
  refine (proj1 (proj2 (blank_cells_are_equal VNone (VStr "   ") 0 _ _))).
  - now left.
  - right. exists "   ". split; [now left | reflexivity].
Defined.

(** X4. Accounting notation is the minus sign: a text in parentheses is read
    as the same text behind a minus, whatever the text. *)
Theorem parentheses_read_as_minus (s : string) :
  coerce_numeric (VStr ("(" ++ s ++ ")")) = coerce_numeric (VStr ("-" ++ s))
  /\ to_int_or_none (VStr ("(" ++ s ++ ")")) = to_int_or_none (VStr ("-" ++ s)).
Proof.
  assert (H : coerce_numeric_text ("(" ++ s ++ ")") = coerce_numeric_text ("-" ++ s)).
  { assert (Hl : PyStr.strip ("(" ++ s ++ ")") = String "(" (s ++ ")")).
    { unfold PyStr.strip. change ("(" ++ s ++ ")") with (String "(" (s ++ ")")).
      change (PyStr.lstrip (String "(" (s ++ ")"))) with (String "(" (s ++ ")")).
      rewrite rstrip_cons, rstrip_app_nonspace by reflexivity.
      destruct s; reflexivity. }
    assert (Hr : PyStr.strip ("-" ++ s) = String "-" (PyStr.rstrip s)).
    { unfold PyStr.strip. change ("-" ++ s) with (String "-" s).
      change (PyStr.lstrip (String "-" s)) with (String "-" s).
      rewrite rstrip_cons. destruct (PyStr.rstrip s); reflexivity. }
    assert (He : PyStr.endswith_char ")" (String "(" (s ++ ")")) = true).
    { pose proof (endswith_char_app s ")") as He. destruct s; exact He. }
    unfold coerce_numeric_text. rewrite Hl, Hr.
    change (String.eqb (String "(" (s ++ ")")) "") with false.
    change (String.eqb (String "-" (PyStr.rstrip s)) "") with false.
    change (PyStr.startswith_char "(" (String "(" (s ++ ")"))) with true.
    change (PyStr.startswith_char "(" (String "-" (PyStr.rstrip s))) with false.
    rewrite He. cbv iota zeta. cbn [andb].
    change (PyStr.slice_1_m1 (String "(" (s ++ ")")))
      with (PyStr.drop_last (s ++ ")")).
    rewrite drop_last_app.
    unfold PyStr.remove_commas, PyStr.keep_numeric_chars.
    rewrite !filter_filter.
    change ("-" ++ s) with (String "-" s).
    set (keep := fun c : ascii =>
                   (PyStr.isdigit c || Ascii.eqb c "." || Ascii.eqb c "-")
                   && negb (Ascii.eqb c ",")).
    change (PyStr.filter keep (String "-" s))
      with (String "-" (PyStr.filter keep s)).
    change (PyStr.filter keep (String "-" (PyStr.rstrip s)))
      with (String "-" (PyStr.filter keep (PyStr.rstrip s))).
    rewrite (filter_rstrip keep s space_is_not_numeric). reflexivity. }
  assert (Hc : forall t, coerce_numeric (VStr t) = Ok (coerce_numeric_text t))
    by reflexivity.
  unfold to_int_or_none. rewrite !Hc, H. split; reflexivity.
Qed.

(** X5. The normalised text of a cell is trimmed for good: normalising it
    again changes nothing. *)
Theorem norm_text_idempotent (v : value) :
  norm_text (VStr (norm_text v)) = norm_text v.
Proof.
  unfold norm_text. cbn [isna py_str].
  destruct (isna v); [reflexivity | apply strip_idempotent].
Qed.

(** ** Keys: letter case, shape, lookup *)

Lemma isspace_lower_char : forall c, PyStr.isspace (PyStr.lower_char c) = PyStr.isspace c.
Proof. by_ascii_cases. Qed.

Lemma numeric_char_lower_char :
  forall c, numeric_char (PyStr.lower_char c) = numeric_char c.
Proof. by_ascii_cases. Qed.

Lemma numeric_char_is_lower :
  forall c, numeric_char c = true -> PyStr.lower_char c = c.
Proof. by_ascii_cases. Qed.

Lemma paren_lower_char :
  forall c, Ascii.eqb "(" (PyStr.lower_char c) = Ascii.eqb "(" c
            /\ Ascii.eqb ")" (PyStr.lower_char c) = Ascii.eqb ")" c.
Proof. by_ascii_cases; split; reflexivity. Qed.

Lemma lstrip_lower (s : string) :
  PyStr.lstrip (PyStr.lower s) = PyStr.lower (PyStr.lstrip s).
Proof.
  induction s as [|c s IH]; cbn; [reflexivity|].
  rewrite isspace_lower_char. destruct (PyStr.isspace c); [exact IH | reflexivity].
Qed.

Lemma rstrip_lower (s : string) :
  PyStr.rstrip (PyStr.lower s) = PyStr.lower (PyStr.rstrip s).
Proof.
  induction s as [|c s IH]; [reflexivity|].
  cbn [PyStr.lower]. rewrite !rstrip_cons, IH, isspace_lower_char.
  destruct (PyStr.rstrip s); cbn; [destruct (PyStr.isspace c)|]; reflexivity.
Qed.

Lemma strip_lower (s : string) :
  PyStr.strip (PyStr.lower s) = PyStr.lower (PyStr.strip s).
Proof. unfold PyStr.strip. now rewrite lstrip_lower, rstrip_lower. Qed.

Lemma lower_empty (s : string) : String.eqb (PyStr.lower s) "" = String.eqb s "".
Proof. destruct s; reflexivity. Qed.

Lemma lower_idempotent (s : string) : PyStr.lower (PyStr.lower s) = PyStr.lower s.
Proof.
  induction s as [|c s IH]; cbn; [reflexivity|].
  now rewrite lower_char_idempotent, IH.
Qed.

Lemma endswith_char_lower (s : string) :
  PyStr.endswith_char ")" (PyStr.lower s) = PyStr.endswith_char ")" s.
Proof.
  induction s as [|c s IH]; [reflexivity|].
  cbn [PyStr.lower]. destruct s as [|c' s].
  - cbn. apply paren_lower_char.
  - exact IH.
Qed.

Lemma drop_last_lower (s : string) :
  PyStr.drop_last (PyStr.lower s) = PyStr.lower (PyStr.drop_last s).
Proof.
  induction s as [|c s IH]; [reflexivity|].
  cbn [PyStr.lower]. destruct s as [|c' s]; [reflexivity|].
  cbn [PyStr.lower] in *. cbn [PyStr.drop_last]. cbn [PyStr.drop_last] in IH.
  cbn [PyStr.lower]. now rewrite <- IH.
Qed.

Lemma filter_numeric_lower (s : string) :
  PyStr.filter numeric_char (PyStr.lower s) = PyStr.filter numeric_char s.
Proof.
  induction s as [|c s IH]; cbn; [reflexivity|].
  rewrite numeric_char_lower_char, IH.
  destruct (numeric_char c) eqn:E; [|reflexivity].
  now rewrite (numeric_char_is_lower c E).
Qed.

Lemma numeric_chars_filter (s : string) :
  PyStr.keep_numeric_chars (PyStr.remove_commas s) = PyStr.filter numeric_char s.
Proof.
  unfold PyStr.keep_numeric_chars, PyStr.remove_commas. rewrite filter_filter.
  reflexivity.
Qed.

Lemma coerce_numeric_text_lower (s : string) :
  coerce_numeric_text (PyStr.lower s) = coerce_numeric_text s.
Proof.
  unfold coerce_numeric_text. rewrite strip_lower, lower_empty.
  destruct (String.eqb (PyStr.strip s) ""); [reflexivity|].
  rewrite !numeric_chars_filter, endswith_char_lower.
  assert (Hs : PyStr.startswith_char "(" (PyStr.lower (PyStr.strip s))
               = PyStr.startswith_char "(" (PyStr.strip s)).
  { destruct (PyStr.strip s); [reflexivity|]. cbn. apply paren_lower_char. }
  rewrite Hs.
  destruct (PyStr.startswith_char "(" (PyStr.strip s)
            && PyStr.endswith_char ")" (PyStr.strip s)).
  - assert (Hm : "-" ++ PyStr.slice_1_m1 (PyStr.lower (PyStr.strip s))
                 = PyStr.lower ("-" ++ PyStr.slice_1_m1 (PyStr.strip s))).
    { destruct (PyStr.strip s) as [|c t]; [reflexivity|].
      cbn [PyStr.lower PyStr.slice_1_m1]. rewrite drop_last_lower. reflexivity. }
    rewrite Hm, filter_numeric_lower. reflexivity.
  - rewrite filter_numeric_lower. reflexivity.
Qed.

Lemma to_int_or_none_lower_cell (v : value) :
  to_int_or_none (lower_cell v) = to_int_or_none v.
Proof.
  destruct v; try reflexivity.
  unfold to_int_or_none, coerce_numeric. cbn [lower_cell isna py_str].
  now rewrite coerce_numeric_text_lower.
Qed.

Lemma norm_text_lower_cell (v : value) :
  norm_text (lower_cell v) = match v with
                             | VStr _ => PyStr.lower (norm_text v)
                             | _ => norm_text v
                             end.
Proof.
  destruct v; try reflexivity. unfold norm_text. cbn [lower_cell isna py_str].
  apply strip_lower.
Qed.

Lemma row_key_loop_lower (row : Series) :
  forall kp n, row_key_loop (lower_row row) kp n = row_key_loop row kp n.
Proof.
  induction row as [|[c v] row IH]; intros kp n; [reflexivity|].
  cbn [lower_row map fst snd row_key_loop]. fold (lower_row row).
  rewrite to_int_or_none_lower_cell.
  destruct (to_int_or_none v) as [[iv|]|e]; cbn [bind]; try reflexivity.
  - now rewrite IH.
  - rewrite norm_text_lower_cell.
    assert (H : (if negb (String.eqb match v with
                                     | VStr _ => PyStr.lower (norm_text v)
                                     | _ => norm_text v
                                     end "")
                 then (kp ++ [KStr (PyStr.lower match v with
                                     | VStr _ => PyStr.lower (norm_text v)
                                     | _ => norm_text v
                                     end)])%list else kp)
                = (if negb (String.eqb (norm_text v) "")
                   then (kp ++ [KStr (PyStr.lower (norm_text v))])%list else kp)).
    { destruct v; try reflexivity. now rewrite lower_empty, lower_idempotent. }
    rewrite H. now rewrite IH.
Qed.

(** X6. The keys ignore letter case: turning the text cells of a row into
    lower case changes neither its generic row key nor its account key. *)
Theorem keys_ignore_letter_case :
  (forall row max_parts, row_key (lower_row row) max_parts = row_key row max_parts)
  /\ (forall v, acct_key (lower_cell v) = acct_key v).
Proof.
  split.
  - intros row n. apply row_key_loop_lower.
  - intros v. destruct v; try reflexivity.
    unfold acct_key. cbn [lower_cell isna py_str].
    rewrite strip_lower, lower_empty.
    destruct (String.eqb (PyStr.strip s) ""); [reflexivity|].
    change (VStr (PyStr.lower (PyStr.strip s))) with (lower_cell (VStr (PyStr.strip s))).
    rewrite to_int_or_none_lower_cell, lower_idempotent. reflexivity.
Qed.

Lemma lower_nonempty (s : string) : s <> "" -> PyStr.lower s <> "".
Proof. destruct s; [congruence | discriminate]. Qed.

Lemma row_key_loop_shape (row : Series) :
  forall kp n k,
    row_key_loop row kp n = Ok k ->
    (List.length kp < Nat.max 1 n)%nat ->
    Forall text_part_ok kp ->
    (List.length k <= Nat.max 1 n)%nat
    /\ (List.length k <= List.length kp + List.length row)%nat
    /\ Forall text_part_ok k.
Proof.
  induction row as [|[c v] row IH]; cbn [row_key_loop]; intros kp n k H Hlen Hok.
  - injection H as <-. repeat split; [lia | lia | assumption].
  - bind_inv H. rename a into iv.
    set (kp' := match iv with
                | Some iv => (kp ++ [KNum iv])%list
                | None => if negb (String.eqb (norm_text v) "")
                          then (kp ++ [KStr (PyStr.lower (norm_text v))])%list
                          else kp
                end) in *.
    assert (Hlen' : (List.length kp' <= S (List.length kp))%nat).
    { subst kp'. destruct iv; [rewrite length_app; cbn; lia|].
      destruct (negb _); [rewrite length_app; cbn; lia | lia]. }
    assert (Hok' : Forall text_part_ok kp').
    { subst kp'. destruct iv.
      - apply Forall_app. split; [assumption|]. constructor; [exact I | constructor].
      - destruct (String.eqb_spec (norm_text v) "") as [Hs | Hs]; cbn [negb];
          [assumption|].
        apply Forall_app. split; [assumption|]. constructor; [|constructor].
        split; [now apply lower_nonempty|]. split; [apply lower_idempotent|].
        unfold norm_text. destruct (isna v); [reflexivity|].
        rewrite strip_lower. f_equal. apply strip_idempotent. }
    cbv zeta in H. fold kp' in H.
    destruct (Nat.leb_spec n (List.length kp')) as [Hge | Hlt].
    + injection H as <-. cbn [List.length]. repeat split; [lia | lia | assumption].
    + destruct (IH kp' n k H) as (H1 & H2 & H3); [lia | assumption |].
      cbn [List.length]. repeat split; [lia | lia | assumption].
Qed.

(** X7. A generic row key has at most [max(1, max_parts)] parts and at
    most one part per cell, and each of its text parts is a trimmed text in
    lower case that is not empty. *)
Theorem row_key_shape (row : Series) (max_parts : nat) (k : row_key_t) :
  row_key row max_parts = Ok k ->
  (List.length k <= Nat.max 1 max_parts)%nat
  /\ (List.length k <= List.length row)%nat
  /\ Forall text_part_ok k.
Proof.
  intros H. apply row_key_loop_shape in H; [exact H | cbn [List.length]; lia | constructor].
Qed.

Lemma row_key_shape_witness :
  row_key [("Name", VStr "  Fund A "); ("Units", VStr "n/a"); ("Amount", VInt 5)] 2
  = Ok [KStr "fund a"; KStr "n/a"]
  /\ Forall text_part_ok [KStr "fund a"; KStr "n/a"].
Proof.
  split; [vm_compute; reflexivity|].
  refine (proj2 (proj2 (row_key_shape
            [("Name", VStr "  Fund A "); ("Units", VStr "n/a"); ("Amount", VInt 5)]
            2 _ _))).
  vm_compute. reflexivity.
Defined.

Lemma row_key_loop_blank (row : Series) :
  forall kp n, (List.length kp < Nat.max 1 n)%nat ->
    (forall c v, In (c, v) row -> missing_or_blank v) ->
    row_key_loop row kp n = Ok kp.
Proof.
  induction row as [|[c v] row IH]; intros kp n Hlen Hb; [reflexivity|].
  cbn [row_key_loop].
  assert (Hv : missing_or_blank v) by (apply (Hb c); now left).
  assert (Hi : to_int_or_none v = Ok None).
  { unfold to_int_or_none. now rewrite (coerce_numeric_blank v Hv). }
  rewrite Hi. cbn [bind]. rewrite (norm_text_blank v Hv). cbn [String.eqb negb].
  destruct (Nat.leb_spec n (List.length kp)) as [Hge | Hlt]; [reflexivity|].
  apply IH; [assumption|]. intros c' v' Hin. apply (Hb c'). now right.
Qed.

(** X8. A row all of whose cells are missing or blank has the empty
    key, whatever [max_parts]: all such rows share one key. *)
Theorem blank_rows_share_the_empty_key (row : Series) (max_parts : nat) :
  (forall c v, In (c, v) row -> missing_or_blank v) ->
  row_key row max_parts = Ok [].
Proof.
  intros H. apply row_key_loop_blank; [cbn [List.length]; lia | exact H].
Qed.

Lemma blank_rows_share_the_empty_key_witness : row_key blank_row 2 = Ok [].
Proof.
  apply blank_rows_share_the_empty_key.
  intros c v [[= <- <-] | [[= <- <-] | [[= <- <-] | []]]].
  - now left.
  - right. exists "  ". split; [now left | reflexivity].
  - right. exists "". split; [now left | reflexivity].
Defined.

Lemma positions_In (k : row_key_t) (ks : list row_key_t) :
  forall i j, In j (positions k ks i)
              <-> (i <= j)%nat /\ nth_error ks (j - i) = Some k.
Proof.
  induction ks as [|k' ks IH]; intros i j; cbn [positions].
  - split; [intros [] | intros [_ H]]. destruct (j - i)%nat; discriminate.
  - assert (Hrest : In j (positions k ks (S i))
                    <-> (i < j)%nat /\ nth_error (k' :: ks) (j - i) = Some k).
    { rewrite IH. split; intros [Hle H]; (split; [lia|]).
      - replace (j - i)%nat with (S (j - S i)) by lia. exact H.
      - replace (j - i)%nat with (S (j - S i)) in H by lia. exact H. }
    destruct (key_eqb k' k) eqn:E.
    + apply key_eqb_eq in E. subst k'. cbn [In]. rewrite Hrest. split.
      * intros [<- | [Hlt H]]; [|split; [lia | exact H]].
        split; [lia|]. now rewrite Nat.sub_diag.
      * intros [Hle H]. destruct (Nat.eq_dec i j) as [-> | Hne]; [now left|].
        right. split; [lia | exact H].
    + rewrite Hrest. split; [intros [Hlt H]; split; [lia | exact H]|].
      intros [Hle H]. split; [|exact H].
      destruct (Nat.eq_dec i j) as [-> | Hne]; [|lia].
      rewrite Nat.sub_diag in H. cbn in H. injection H as ->.
      rewrite (proj2 (key_eqb_eq k k) eq_refl) in E. discriminate.
Qed.

Lemma positions_sorted (k : row_key_t) (ks : list row_key_t) :
  forall i, StronglySorted lt (positions k ks i).
Proof.
  induction ks as [|k' ks IH]; intros i; cbn [positions]; [constructor|].
  destruct (key_eqb k' k); [|apply IH].
  constructor; [apply IH|]. apply Forall_forall. intros j Hj.
  apply positions_In in Hj. lia.
Qed.

(** X9. The index built from a frame maps a key to the positions of
    exactly the rows that carry it, in ascending order. *)
Theorem build_key_index_lookup (df : DataFrame) (idx : key_index) :
  build_key_index df 2 = Ok idx ->
  exists keys,
    row_keys (df_rows df) = Ok keys
    /\ (forall k j, In j (index_get idx k) <-> nth_error keys j = Some k)
    /\ (forall k, StronglySorted lt (index_get idx k)).
Proof.
  unfold build_key_index. intros H.
  apply build_key_index_loop_spec in H as (ks & Hks & Hget).
  exists ks. split; [exact Hks|]. split.
  - intros k j. rewrite Hget. cbn [index_get app]. rewrite positions_In.
    rewrite Nat.sub_0_r. split; [now intros [_ H] | intros H; split; [lia | exact H]].
  - intros k. rewrite Hget. apply positions_sorted.
Qed.

Lemma build_key_index_lookup_witness :
  exists idx, build_key_index dup_web 2 = Ok idx
    /\ index_get idx [KNum 1; KStr "x"] = [0%nat; 1%nat]
    /\ StronglySorted lt (index_get idx [KNum 1; KStr "x"]).
Proof.
  eexists. split; [vm_compute; reflexivity|]. split; [reflexivity|].
  destruct (build_key_index_lookup dup_web _ eq_refl) as (ks & _ & _ & Hs).
  apply Hs.
Defined.

Lemma of_Z_nonempty (z : Z) : PyStr.of_Z z <> "".
Proof.
  unfold PyStr.of_Z, NilZero.string_of_int, NilZero.string_of_uint.
  destruct (Z.to_int z) as [d | d]; destruct d; discriminate.
Qed.

Lemma of_Z_lower (z : Z) : PyStr.lower (PyStr.of_Z z) = PyStr.of_Z z.
Proof.
  assert (H : forall d, PyStr.lower (NilEmpty.string_of_uint d)
                        = NilEmpty.string_of_uint d).
  { induction d; cbn; [reflexivity | now rewrite IHd ..]. }
  unfold PyStr.of_Z, NilZero.string_of_int, NilZero.string_of_uint.
  destruct (Z.to_int z) as [d | d]; destruct d; cbn; rewrite ?H; reflexivity.
Qed.

(** X10. [acct_key] raises nothing; it gives no key exactly for a missing
    or blank cell, and a key is never empty and is in lower case. *)
Theorem acct_key_blank_or_key (v : value) :
  (acct_key v = Ok None <-> isna v = true \/ PyStr.strip (py_str v) = "")
  /\ (forall k, acct_key v = Ok (Some k) -> k <> "" /\ PyStr.lower k = k)
  /\ (exists r, acct_key v = Ok r).
Proof.
  unfold acct_key. destruct (isna v).
  - split; [split; [now left | reflexivity]|]. split; [discriminate | eauto].
  - destruct (String.eqb_spec (PyStr.strip (py_str v)) "") as [Hs | Hs].
    + split; [split; [now right | reflexivity]|]. split; [discriminate | eauto].
    + destruct (to_int_or_none_text_returns (PyStr.strip (py_str v))) as (r & Hr).
      rewrite Hr. cbn [bind]. destruct r as [num|].
      * split; [split; [discriminate | intros [H | H]; [discriminate | contradiction]]|].
        split; [|eauto]. intros k [= <-]. split; [apply of_Z_nonempty|].
        apply of_Z_lower.
      * split; [split; [discriminate | intros [H | H]; [discriminate | contradiction]]|].
        split; [|eauto]. intros k [= <-].
        split; [now apply lower_nonempty | apply lower_idempotent].
Qed.

Lemma acct_key_blank_or_key_witness :
  acct_key (VStr "   ") = Ok None
  /\ acct_key (VStr " HDFC ") = Ok (Some "hdfc") /\ "hdfc" <> "".
Proof.
  split; [|split].
  - apply (proj1 (acct_key_blank_or_key (VStr "   "))). right. reflexivity.
  - vm_compute. reflexivity.
  - refine (proj1 (proj1 (proj2 (acct_key_blank_or_key (VStr " HDFC "))) "hdfc" _)).
    vm_compute. reflexivity.
Defined.

(** ** Texts read as numbers *)

Lemma filter_lstrip (keep : ascii -> bool) (s : string) :
  (forall c, PyStr.isspace c = true -> keep c = false) ->
  PyStr.filter keep (PyStr.lstrip s) = PyStr.filter keep s.
Proof.
  intros Hk. induction s as [|c s IH]; cbn; [reflexivity|].
  destruct (PyStr.isspace c) eqn:Hc; [|reflexivity].
  now rewrite (Hk c Hc).
Qed.

Lemma filter_numeric_strip (s : string) :
  PyStr.filter numeric_char (PyStr.strip s) = PyStr.filter numeric_char s.
Proof.
  unfold PyStr.strip.
  rewrite (filter_rstrip numeric_char _ space_is_not_numeric).
  apply (filter_lstrip numeric_char _ space_is_not_numeric).
Qed.

Lemma coerce_numeric_text_plain (s : string) :
  accounting s = false ->
  coerce_numeric_text s
  = if String.eqb (PyStr.strip s) "" then None
    else match PyFloat.of_numeric_text (PyStr.filter numeric_char s) with
         | Ok f => Some f
         | Raise _ => None
         end.
Proof.
  unfold accounting, coerce_numeric_text. intros ->.
  now rewrite numeric_chars_filter, filter_numeric_strip.
Qed.

Lemma coerce_numeric_text_strip (s : string) :
  coerce_numeric_text (PyStr.strip s) = coerce_numeric_text s.
Proof. unfold coerce_numeric_text. now rewrite strip_idempotent. Qed.

Lemma to_int_or_none_strip (s : string) :
  to_int_or_none (VStr (PyStr.strip s)) = to_int_or_none (VStr s).
Proof.
  unfold to_int_or_none, coerce_numeric. cbn [isna py_str].
  now rewrite coerce_numeric_text_strip.
Qed.

(** X11. Outside accounting notation a text is read by its digits, dots
    and minus signs alone: when one text reads as an integer, every text with
    the same such characters reads as the same integer, is tolerant-equal to
    it under every tolerance, and has the same account key. *)
Theorem texts_are_read_by_their_numeric_characters (s t : string) (z tol : Z) :
  accounting s = false -> accounting t = false ->
  PyStr.filter numeric_char s = PyStr.filter numeric_char t ->
  to_int_or_none (VStr s) = Ok (Some z) ->
  0 <= tol ->
  to_int_or_none (VStr t) = Ok (Some z)
  /\ values_equal (VStr s) (VStr t) tol = Ok true
  /\ acct_key (VStr s) = Ok (Some (PyStr.of_Z z))
  /\ acct_key (VStr t) = Ok (Some (PyStr.of_Z z)).
Proof.
  intros Hs Ht Hf Hz Htol.
  assert (Hc : forall u, to_int_or_none (VStr u)
                         = match coerce_numeric_text u with
                           | None => Ok None
                           | Some f => match PyFloat.to_Z f with
                                       | Ok z => Ok (Some z)
                                       | Raise _ => Ok None
                                       end
                           end).
  { intros u. unfold to_int_or_none, coerce_numeric. cbn [isna py_str bind].
    destruct (coerce_numeric_text u); reflexivity. }
  assert (Hne : forall u, to_int_or_none (VStr u) = Ok (Some z) ->
                          String.eqb (PyStr.strip u) "" = false).
  { intros u Hu. rewrite Hc in Hu. unfold coerce_numeric_text in Hu.
    destruct (String.eqb (PyStr.strip u) ""); [discriminate | reflexivity]. }
  assert (Hzt : to_int_or_none (VStr t) = Ok (Some z)).
  { rewrite Hc in Hz |- *. rewrite (coerce_numeric_text_plain s Hs) in Hz.
    rewrite (coerce_numeric_text_plain t Ht), <- Hf.
    destruct (String.eqb (PyStr.strip s) "") eqn:Es; [discriminate|].
    destruct (String.eqb_spec (PyStr.strip t) "") as [Et | Et]; [|exact Hz].
    exfalso.
    assert (Hempty : PyStr.filter numeric_char t = "")
      by (rewrite <- filter_numeric_strip, Et; reflexivity).
    rewrite Hf, Hempty in Hz. vm_compute in Hz. discriminate. }
  split; [exact Hzt|]. split; [|split].
  - unfold values_equal. rewrite Hz, Hzt. cbn [bind]. rewrite Z.sub_diag.
    f_equal. now apply Z.leb_le.
  - unfold acct_key. cbn [isna py_str]. rewrite (Hne s Hz), to_int_or_none_strip, Hz.
    reflexivity.
  - unfold acct_key. cbn [isna py_str]. rewrite (Hne t Hzt), to_int_or_none_strip, Hzt.
    reflexivity.
Qed.

Lemma texts_are_read_by_their_numeric_characters_witness :
  values_equal (VStr "AB-12") (VStr "XY -1 2") 0 = Ok true
  /\ acct_key (VStr "AB-12") = Ok (Some "-12")
  /\ acct_key (VStr "XY -1 2") = Ok (Some "-12").
Proof.
  refine (proj2 (texts_are_read_by_their_numeric_characters
                   "AB-12" "XY -1 2" (-12) 0 _ _ _ _ _)).
  - reflexivity.
  - reflexivity.
  - reflexivity.
  - vm_compute. reflexivity.
  - lia.
Defined.

(** X12. Values that are tolerant-equal stay so under every larger
    tolerance. *)
Theorem larger_tolerance_keeps_values_equal (a b : value) (tol tol' : Z) :
  tol <= tol' ->
  values_equal a b tol = Ok true -> values_equal a b tol' = Ok true.
Proof.
  intros Hle. unfold values_equal.
  destruct (to_int_or_none a) as [oa|]; [|discriminate].
  destruct (to_int_or_none b) as [ob|]; [|discriminate]. cbn [bind].
  destruct oa as [x|], ob as [y|]; try exact (fun H => H).
  intros [= H]. f_equal. apply Z.leb_le in H. apply Z.leb_le. lia.
Qed.

Lemma larger_tolerance_keeps_values_equal_witness :
  values_equal (VStr "1,000") (VInt 999) 5 = Ok true.
Proof.
  apply (larger_tolerance_keeps_values_equal (VStr "1,000") (VInt 999) 1 5); [lia|].
  vm_compute. reflexivity.
Defined.

(** ** Sheet titles *)

Lemma length_append (s t : string) :
  String.length (s ++ t) = (String.length s + String.length t)%nat.
Proof. induction s as [|c s IH]; cbn; [reflexivity | now rewrite IH]. Qed.

Lemma take_length (n : nat) (s : string) :
  (String.length (PyStr.take n s) <= n)%nat.
Proof.
  revert s. induction n as [|n IH]; intros [|c s]; cbn; try lia.
  specialize (IH s). lia.
Qed.

Lemma suffixed_title_length (base : string) (i : Z) :
  (String.length (suffixed_title base i) <= 31)%nat.
Proof.
  unfold suffixed_title.
  set (suffix := " (" ++ PyStr.of_Z i ++ ")").
  destruct (Z.ltb_spec 0 (31 - Z.of_nat (String.length suffix))) as [Hpos | Hneg].
  - rewrite length_append.
    pose proof (take_length (Z.to_nat (31 - Z.of_nat (String.length suffix))) base).
    lia.
  - apply take_length.
Qed.

Lemma make_safe_title_loop_spec (sheetnames : list string) (base : string) :
  forall fuel safe i,
    1 <= i <= 999 -> 1000 <= i + Z.of_nat fuel ->
    (String.length safe <= 31)%nat ->
    let r := make_safe_title_loop fuel sheetnames base safe i in
    (String.length r <= 31)%nat
    /\ (mem_str safe sheetnames = false -> r = safe)
    /\ (mem_str r sheetnames = true ->
        r = suffixed_title base 999
        /\ mem_str safe sheetnames = true
        /\ forall j, i <= j <= 998 -> mem_str (suffixed_title base j) sheetnames = true).
Proof.
  induction fuel as [|fuel IH]; intros safe i Hi Hfuel Hlen; cbn [make_safe_title_loop].
  - exfalso. lia.
  - destruct (mem_str safe sheetnames) eqn:Hsafe.
    + cbv zeta. destruct (Z.ltb_spec 999 (i + 1)) as [Hlast | Hmore].
      * split; [apply suffixed_title_length|]. split; [discriminate|].
        intros _. assert (i = 999) by lia. subst i.
        split; [reflexivity|]. split; [reflexivity|]. intros j Hj. lia.
      * destruct (IH (suffixed_title base i) (i + 1)) as (Hl & Hfresh & Htaken);
          [lia | lia | apply suffixed_title_length |].
        split; [exact Hl|]. split; [discriminate|].
        intros Hm. destruct (Htaken Hm) as (Hr & Hs & Hall).
        split; [exact Hr|]. split; [reflexivity|].
        intros j Hj. destruct (Z.eq_dec j i) as [-> | Hne]; [exact Hs|].
        apply Hall. lia.
    + split; [assumption|]. split; [reflexivity|].
      intros Hm. rewrite Hm in Hsafe. discriminate.
Qed.

(** X13. A safe title has at most 31 characters; it is the cut title
    when no sheet has that name; and it names an existing sheet only when the
    cut title and the candidates 1 to 998 are all taken, in which case it is
    candidate 999, returned unchecked. *)
Theorem make_safe_title_fits_and_is_fresh
        (title : option string) (sheetnames : list string) :
  let base := PyStr.take 31 match title with
                            | None => ""
                            | Some t => t
                            end in
  let safe := make_safe_title title sheetnames in
  (String.length safe <= 31)%nat
  /\ (mem_str base sheetnames = false -> safe = base)
  /\ (mem_str safe sheetnames = true ->
      safe = suffixed_title base 999
      /\ mem_str base sheetnames = true
      /\ forall j, 1 <= j <= 998 -> mem_str (suffixed_title base j) sheetnames = true).
Proof.
  intros base safe. subst safe. unfold make_safe_title. fold base.
  apply make_safe_title_loop_spec; [lia | cbn; lia | apply take_length].
Qed.

Lemma make_safe_title_fits_and_is_fresh_witness :
  make_safe_title (Some "Gain Summary") ["FBAR"] = "Gain Summary".
Proof.
  refine (proj1 (proj2 (make_safe_title_fits_and_is_fresh
                          (Some "Gain Summary") ["FBAR"])) _).
  reflexivity.
Defined.

(** ** The HTML report *)

Lemma prefix_refl (n : string) : String.prefix n n = true.
Proof.
  induction n as [|c n IH]; cbn; [reflexivity|].
  destruct (ascii_dec c c); [exact IH | contradiction].
Qed.

Lemma prefix_append_l (n : string) :
  forall p t, String.prefix n p = true -> String.prefix n (p ++ t) = true.
Proof.
  induction n as [|c n IH]; intros p t H.
  - destruct (p ++ t); reflexivity.
  - destruct p as [|c' p]; cbn in H |- *; [discriminate|].
    destruct (ascii_dec c c'); [now apply IH | discriminate].
Qed.

Lemma contains_self (n : string) : n <> "" -> PyStr.contains n n = true.
Proof.
  destruct n as [|c n]; [congruence|]. intros _. cbn [PyStr.contains].
  now rewrite prefix_refl.
Qed.

Lemma contains_append_r (n s t : string) :
  PyStr.contains n t = true -> PyStr.contains n (s ++ t) = true.
Proof.
  intros H. induction s as [|c s IH]; cbn [append PyStr.contains]; [exact H|].
  rewrite IH. apply orb_true_r.
Qed.

Lemma contains_append_l (n s t : string) :
  n <> "" -> PyStr.contains n s = true -> PyStr.contains n (s ++ t) = true.
Proof.
  intros Hn. induction s as [|c s IH]; cbn [PyStr.contains]; intros H.
  - apply String.eqb_eq in H. contradiction.
  - change (String c s ++ t) with (String c (s ++ t)). cbn [PyStr.contains].
    apply orb_true_iff in H as [H | H]; apply orb_true_iff.
    + left. exact (prefix_append_l n (String c s) t H).
    + right. now apply IH.
Qed.

Lemma contains_concat_str (n p : string) (parts : list string) :
  n <> "" -> In p parts -> PyStr.contains n p = true ->
  PyStr.contains n (concat_str parts) = true.
Proof.
  intros Hn Hin Hp. induction parts as [|q parts IH]; [contradiction|].
  cbn [concat_str]. destruct Hin as [-> | Hin].
  - now apply contains_append_l.
  - apply contains_append_r. now apply IH.
Qed.

Lemma html_report_contains_cell
      (summary_rows : list (list json)) (row : list json) (cell : json) :
  In row (tl summary_rows) -> In cell row ->
  PyStr.contains ("<td>" ++ json_str cell ++ "</td>")
                 (write_html_report_India summary_rows) = true.
Proof.
  intros Hrow Hcell.
  set (td := fun c : json => "<td>" ++ json_str c ++ "</td>").
  assert (Hn : td cell <> "") by discriminate.
  change (PyStr.contains (td cell) (write_html_report_India summary_rows) = true).
  unfold write_html_report_India.
  apply contains_append_r, contains_append_l; [exact Hn|].
  apply (contains_concat_str _ (html_row row)); [exact Hn | now apply in_map |].
  unfold html_row. apply contains_append_r, contains_append_l; [exact Hn|].
  apply (contains_concat_str _ (td cell)); [exact Hn | | now apply contains_self].
  exact (in_map td row cell Hcell).
Qed.

(** X14. The HTML report holds, for every cell of every row after the
    first, the text of the cell between the cell tags, character for
    character: nothing is escaped. *)
Theorem html_report_inserts_cells_verbatim
        (summary_rows : list (list json)) (row : list json) (cell : json) :
  In row (tl summary_rows) -> In cell row ->
  PyStr.contains ("<td>" ++ json_str cell ++ "</td>")
                 (write_html_report_India summary_rows) = true.
Proof. apply html_report_contains_cell. Qed.

Lemma html_report_inserts_cells_verbatim_witness :
  PyStr.contains "<td><b>8938</b></td>"
    (write_html_report_India
       [summary_header;
        [JStr "<b>8938</b>"; JInt 0; JStr "ERROR: x"; JInt 0; JInt 0; JInt 0]]) = true.
Proof.
  apply (html_report_inserts_cells_verbatim
           [summary_header;
            [JStr "<b>8938</b>"; JInt 0; JStr "ERROR: x"; JInt 0; JInt 0; JInt 0]]
           [JStr "<b>8938</b>"; JInt 0; JStr "ERROR: x"; JInt 0; JInt 0; JInt 0]
           (JStr "<b>8938</b>")).
  - cbn. now left.
  - cbn. now left.
Defined.

(** X15. The report made from the summary of a run names every
    configured sheet, and shows the error text of every sheet that failed. *)
Theorem html_report_names_every_configured_sheet
        (to_datetime : value -> option string)
        (avoid_duplicate_name : list string -> string -> string)
        (original website : document)
        (sheets_config : option sheets_config_t) (out : comparison) :
  let config := match sheets_config with
                | None => default_sheets_config
                | Some c => c
                end in
  NoDup (map fst config) ->
  compare_excel_with_gain_summary_inline_India
    to_datetime avoid_duplicate_name original website sheets_config = Ok out ->
  forall name cfg,
    In (name, cfg) config ->
    PyStr.contains ("<td>" ++ name ++ "</td>")
                   (write_html_report_India (summary_rows out)) = true
    /\ forall e,
         process_sheet to_datetime original website name cfg = Raise e ->
         PyStr.contains ("<td>ERROR: " ++ exn_str e ++ "</td>")
                        (write_html_report_India (summary_rows out)) = true.
Proof.
  intros config Hnd H name cfg Hin.
  destruct (compare_India_outcomes to_datetime avoid_duplicate_name original website
              sheets_config out Hnd H) as (_ & Hrows & Hget).
  fold config in Hrows, Hget.
  destruct (Hget name cfg Hin) as (_ & Hrow).
  assert (Htl : In (snd (sheet_outcome to_datetime original website name cfg))
                   (tl (summary_rows out))).
  { rewrite Hrows. cbn [tl].
    apply (in_map (fun item => snd (sheet_outcome to_datetime original website
                                                   (fst item) (snd item)))
                  config (name, cfg) Hin). }
  unfold sheet_outcome in Htl.
  destruct (process_sheet to_datetime original website name cfg)
    as [[entry row]|e] eqn:Hp; cbn [snd] in Htl.
  - split; [|discriminate].
    destruct (process_sheet_row_shape _ _ _ _ _ _ _ Hp) as (counts & -> & _).
    apply (html_report_contains_cell _ _ (JStr name) Htl). now left.
  - split.
    + apply (html_report_contains_cell _ _ (JStr name) Htl). now left.
    + intros e' [= <-].
      apply (html_report_contains_cell
               _ _ (JStr ("ERROR: " ++ exn_str e)) Htl).
      cbn. tauto.
Qed.

Lemma html_report_names_every_configured_sheet_witness :
  exists out,
    compare_excel_with_gain_summary_inline_India
      to_datetime_unparsed title_kept plain_original plain_website
      (Some two_sheets_config) = Ok out
    /\ PyStr.contains "<td>ERROR: Worksheet named 'Missing' not found</td>"
                      (write_html_report_India (summary_rows out)) = true.
Proof.
  eexists. split; [vm_compute; reflexivity|].
  refine (proj2 (html_report_names_every_configured_sheet
                   to_datetime_unparsed title_kept plain_original plain_website
                   (Some two_sheets_config) _ _ _ "Missing" plain_cfg _)
                (ReadError "Worksheet named 'Missing' not found") _).
  - repeat constructor; cbn; intuition discriminate.
  - vm_compute. reflexivity.
  - cbn. tauto.
  - vm_compute. reflexivity.
Defined.

(** ** What the matchers preserve

    Both matchers change the accumulators in four ways only: a row only in
    the original, a common row, a differing row, a row only in the website.
    A property kept by these four steps holds of what a matcher returns. *)

Section MatcherInvariant.

Variables (mode : header_mode) (common_cols : list string).
Variables (df_orig df_web : DataFrame).
Variable P : acc -> Prop.

Hypothesis P_only_orig :
  forall st o row i,
    P st -> df_loc df_orig i = Ok o ->
    render_only_orig mode common_cols o = Ok row ->
    P (add_only_orig st row i).
Hypothesis P_common :
  forall st o w row i j,
    P st -> df_loc df_orig i = Ok o -> df_loc df_web j = Ok w ->
    all_values_equal common_cols o w = Ok true ->
    render_common mode common_cols o = Ok row ->
    P (add_common st row i j).
Hypothesis P_diff :
  forall st o w r i j,
    P st -> df_loc df_orig i = Ok o -> df_loc df_web j = Ok w ->
    all_values_equal common_cols o w = Ok false ->
    render_diff mode common_cols o w = Ok r ->
    P (add_diff st (fst r) (snd r) i j).
Hypothesis P_only_web :
  forall st w row j,
    P st -> df_loc df_web j = Ok w ->
    render_only_web mode common_cols w = Ok row ->
    P (add_only_web st row j).

Lemma compare_pair_preserves (o w : Series) (i j : nat) (st st' : acc) :
  P st -> df_loc df_orig i = Ok o -> df_loc df_web j = Ok w ->
  compare_pair mode common_cols o w i j st = Ok st' -> P st'.
Proof.
  intros HP Ho Hw H. unfold compare_pair in H. bind_inv H. destruct a.
  - bind_inv H. injection H as <-. eapply P_common; eassumption.
  - bind_inv H. injection H as <-. eapply P_diff; eassumption.
Qed.

Lemma index_match_orig_loop_preserves (idx : key_index) :
  forall rows i st st',
    P st -> rows = skipn i (df_rows df_orig) ->
    index_match_orig_loop mode common_cols idx df_web rows i st = Ok st' -> P st'.
Proof.
  induction rows as [|r rows IH]; cbn; intros i st st' HP Hrows H.
  - now injection H as <-.
  - bind_inv H. rename a into st1, E into Hstep.
    pose proof (df_loc_skipn df_orig i r rows Hrows) as Hloc.
    apply skipn_cons_nth in Hrows as [_ Hrest].
    apply (IH (S i) st1 st'); [|assumption|assumption].
    unfold index_match_orig_step in Hstep. bind_inv Hstep.
    destruct (index_get idx a) as [|j js].
    + bind_inv Hstep. injection Hstep as <-. eapply P_only_orig; eassumption.
    + bind_inv Hstep. eapply compare_pair_preserves; eassumption.
Qed.

Lemma index_match_web_loop_preserves (oks : list row_key_t) :
  forall rows j st st',
    P st -> rows = skipn j (df_rows df_web) ->
    index_match_web_loop mode common_cols oks rows j st = Ok st' -> P st'.
Proof.
  induction rows as [|r rows IH]; cbn; intros j st st' HP Hrows H.
  - now injection H as <-.
  - bind_inv H.
    pose proof (df_loc_skipn df_web j r rows Hrows) as Hloc.
    apply skipn_cons_nth in Hrows as [_ Hrest].
    destruct (key_in a oks).
    + exact (IH (S j) st st' HP Hrest H).
    + bind_inv H. refine (IH (S j) _ st' _ Hrest H).
      eapply P_only_web; eassumption.
Qed.

Lemma index_match_preserves (st st' : acc) :
  P st -> index_match mode common_cols df_orig df_web st = Ok st' -> P st'.
Proof.
  intros HP H. unfold index_match in H.
  bind_inv H. bind_inv H. bind_inv H.
  refine (index_match_web_loop_preserves _ _ O _ st' _ eq_refl H).
  exact (index_match_orig_loop_preserves _ _ O st _ HP eq_refl E1).
Qed.

Hypothesis mode_tripled : mode = Tripled.

Lemma map_match_orig_loop_preserves (web_map : acct_map) :
  forall entries st st',
    P st ->
    map_match_orig_loop common_cols df_orig df_web web_map entries st = Ok st' ->
    P st'.
Proof.
  induction entries as [|[k i] entries IH]; cbn; intros st st' HP H.
  - now injection H as <-.
  - bind_inv H. rename a into o, E into Ho.
    bind_inv H. rename a into st1, E into Hstep.
    apply (IH st1 st'); [|assumption].
    destruct (acct_map_get web_map k) as [j|].
    + bind_inv Hstep. rewrite <- mode_tripled in Hstep.
      eapply compare_pair_preserves; eassumption.
    + bind_inv Hstep. injection Hstep as <-. rewrite <- mode_tripled in E.
      eapply P_only_orig; eassumption.
Qed.

Lemma map_match_web_loop_preserves (orig_map : acct_map) :
  forall entries st st',
    P st ->
    map_match_web_loop common_cols df_web orig_map entries st = Ok st' -> P st'.
Proof.
  induction entries as [|[k j] entries IH]; cbn; intros st st' HP H.
  - now injection H as <-.
  - destruct (acct_map_get orig_map k) as [i|]; [eapply IH; eassumption|].
    bind_inv H. bind_inv H. rewrite <- mode_tripled in E0.
    eapply IH; [|eassumption]. eapply P_only_web; eassumption.
Qed.

Lemma map_match_preserves (keyf : Series -> result (option string)) (st st' : acc) :
  P st -> map_match keyf common_cols df_orig df_web st = Ok st' -> P st'.
Proof.
  intros HP H. unfold map_match in H.
  bind_inv H. bind_inv H. bind_inv H.
  eapply map_match_web_loop_preserves; [|eassumption].
  eapply map_match_orig_loop_preserves; eassumption.
Qed.

End MatcherInvariant.

(** From the matchers to a sheet: an invariant that does not look at the
    frames holds of what [match_sheet] returns. *)
Lemma match_sheet_preserves (to_datetime : value -> option string)
      (sheet_name : string) (common_cols : list string)
      (df_orig df_web : DataFrame) (P : acc -> Prop) (st : acc) :
  let mode := sheet_mode sheet_name df_orig df_web in
  (forall st o row i, P st -> render_only_orig mode common_cols o = Ok row ->
                      P (add_only_orig st row i)) ->
  (forall st o w row i j, P st -> all_values_equal common_cols o w = Ok true ->
                          render_common mode common_cols o = Ok row ->
                          P (add_common st row i j)) ->
  (forall st o w r i j, P st -> all_values_equal common_cols o w = Ok false ->
                        render_diff mode common_cols o w = Ok r ->
                        P (add_diff st (fst r) (snd r) i j)) ->
  (forall st w row j, P st -> render_only_web mode common_cols w = Ok row ->
                      P (add_only_web st row j)) ->
  P (acc_init (make_headers mode common_cols)) ->
  match_sheet to_datetime sheet_name common_cols df_orig df_web = Ok st ->
  P st.
Proof.
  intros mode Hoo Hc Hd Hw Hinit H. unfold match_sheet in H.
  subst mode. unfold sheet_mode, keyed_sheet in *.
  destruct (mem_str sheet_name _ && mem_str "Account Number" (df_columns df_orig)
            && mem_str "Account Number" (df_columns df_web)).
  - cbv zeta in H.
    match type of H with
    | context [drop_duplicates df_orig ?k] => set (key_cols := k) in *
    end.
    destruct (match drop_duplicates df_orig key_cols, drop_duplicates df_web key_cols with
              | Ok o, Ok w => (o, w)
              | Ok o, Raise _ => (o, df_web)
              | Raise _, _ => (df_orig, df_web)
              end) as [dfo dfw].
    destruct (String.eqb sheet_name "Gain Summary").
    + eapply (index_match_preserves Tripled common_cols dfo dfw P); eauto.
    + eapply (map_match_preserves Tripled common_cols dfo dfw P); eauto.
  - eapply (index_match_preserves Simple common_cols df_orig df_web P); eauto.
Qed.

(** ** Lists and counters of a sheet *)

Lemma row_values_length (cols : list string) (row : Series) (vs : list json) :
  row_values cols row = Ok vs -> List.length vs = List.length cols.
Proof.
  revert vs. induction cols as [|c cols IH]; cbn; intros vs H.
  - now injection H as <-.
  - bind_inv H. bind_inv H. injection H as <-. cbn. f_equal. now apply IH.
Qed.

Lemma flat_map_triple_length {A B : Type} (f g h : A -> B) (l : list A) :
  List.length (flat_map (fun x => [f x; g x; h x]) l) = (3 * List.length l)%nat.
Proof. induction l as [|x l IH]; cbn [flat_map List.length app]; lia. Qed.

Lemma make_headers_length (mode : header_mode) (cols : list string) :
  List.length (make_headers mode cols)
  = match mode with
    | Tripled => (3 * List.length cols)%nat
    | Simple => S (List.length cols)
    end.
Proof.
  destruct mode; unfold make_headers.
  - apply flat_map_triple_length.
  - rewrite length_app, length_map. cbn. lia.
Qed.

Lemma rendered_row_length (mode : header_mode) (cols : list string)
      (f g h : json -> json) (status : json) (vs : list json) :
  List.length vs = List.length cols ->
  List.length match mode with
              | Tripled => flat_map (fun x => [f x; g x; h x]) vs
              | Simple => (vs ++ [status])%list
              end
  = List.length (make_headers mode cols).
Proof.
  intros Hvs. rewrite make_headers_length. destruct mode.
  - rewrite flat_map_triple_length. lia.
  - rewrite length_app. cbn. lia.
Qed.

Lemma render_only_orig_length mode cols (o : Series) (row : list json) :
  render_only_orig mode cols o = Ok row ->
  List.length row = List.length (make_headers mode cols).
Proof.
  unfold render_only_orig. intros H. bind_inv H. injection H as <-.
  apply row_values_length in E.
  exact (rendered_row_length mode cols (fun x => x) (fun _ => JStr "")
           (fun _ => JStr "Only in Original") _ a E).
Qed.

Lemma render_only_web_length mode cols (w : Series) (row : list json) :
  render_only_web mode cols w = Ok row ->
  List.length row = List.length (make_headers mode cols).
Proof.
  unfold render_only_web. intros H. bind_inv H. injection H as <-.
  apply row_values_length in E.
  exact (rendered_row_length mode cols (fun _ => JStr "") (fun x => x)
           (fun _ => JStr "Only in Website") _ a E).
Qed.

Lemma render_common_length mode cols (o : Series) (row : list json) :
  render_common mode cols o = Ok row ->
  List.length row = List.length (make_headers mode cols).
Proof.
  unfold render_common. intros H. bind_inv H. injection H as <-.
  apply row_values_length in E.
  exact (rendered_row_length mode cols (fun x => x) (fun x => x)
           (fun _ => JStr "") _ a E).
Qed.

Lemma diff_triples_shape (cols : list string) (o w : Series) :
  forall r, diff_triples cols o w = Ok r ->
            List.length (fst r) = (3 * List.length cols)%nat
            /\ 0 <= snd r <= Z.of_nat (List.length cols).
Proof.
  induction cols as [|c cols IH]; cbn [diff_triples]; intros r H.
  - injection H as <-. cbn. lia.
  - bind_inv H. bind_inv H. bind_inv H. bind_inv H. bind_inv H.
    injection H as <-. destruct (IH _ E3) as (Hl & Hn).
    cbn [fst snd List.length]. split; [lia|]. destruct a1; lia.
Qed.

Lemma diff_simple_shape (cols : list string) (o w : Series) :
  forall r, diff_simple cols o w = Ok r ->
            List.length (fst r) = List.length cols
            /\ 0 <= snd r <= Z.of_nat (List.length cols).
Proof.
  induction cols as [|c cols IH]; cbn [diff_simple]; intros r H.
  - injection H as <-. cbn. lia.
  - bind_inv H. bind_inv H. bind_inv H. bind_inv H.
    injection H as <-. destruct (IH _ E2) as (Hl & Hn).
    cbn [fst snd List.length]. split; [lia|]. destruct a1; lia.
Qed.

Lemma render_diff_shape mode cols (o w : Series) (r : list json * Z) :
  render_diff mode cols o w = Ok r ->
  List.length (fst r) = List.length (make_headers mode cols)
  /\ 0 <= snd r <= Z.of_nat (List.length cols).
Proof.
  rewrite make_headers_length. destruct mode; cbn [render_diff]; intros H.
  - exact (diff_triples_shape cols o w r H).
  - bind_inv H. injection H as <-. apply diff_simple_shape in E as (Hl & Hn).
    cbn [fst snd]. rewrite length_app. cbn. split; [lia | assumption].
Qed.

(** A row that is not all equal has a column that counts as different. *)
Lemma diff_triples_positive (cols : list string) (o w : Series) :
  forall r, all_values_equal cols o w = Ok false ->
            diff_triples cols o w = Ok r -> 1 <= snd r.
Proof.
  induction cols as [|c cols IH]; cbn [all_values_equal diff_triples]; intros r Ha H.
  - discriminate.
  - bind_inv Ha. bind_inv Ha. bind_inv Ha.
    rewrite E, E0 in H. cbn [bind] in H. unfold values_different in H.
    rewrite E1 in H. cbn [bind] in H.
    bind_inv H. bind_inv H. injection H as <-. cbn [snd].
    pose proof (diff_triples_shape cols o w _ E3) as (_ & Hn).
    destruct a1; cbn [negb]; [|lia].
    specialize (IH _ Ha E3). lia.
Qed.

Lemma diff_simple_positive (cols : list string) (o w : Series) :
  forall r, all_values_equal cols o w = Ok false ->
            diff_simple cols o w = Ok r -> 1 <= snd r.
Proof.
  induction cols as [|c cols IH]; cbn [all_values_equal diff_simple]; intros r Ha H.
  - discriminate.
  - bind_inv Ha. bind_inv Ha. bind_inv Ha.
    rewrite E, E0 in H. cbn [bind] in H. unfold values_different in H.
    rewrite E1 in H. cbn [bind] in H.
    bind_inv H. injection H as <-. cbn [snd].
    pose proof (diff_simple_shape cols o w _ E2) as (_ & Hn).
    destruct a1; cbn [negb]; [|lia].
    specialize (IH _ Ha E2). lia.
Qed.

Lemma render_diff_positive mode cols (o w : Series) (r : list json * Z) :
  all_values_equal cols o w = Ok false ->
  render_diff mode cols o w = Ok r -> 1 <= snd r.
Proof.
  destruct mode; cbn [render_diff]; intros Ha H.
  - eapply diff_triples_positive; eassumption.
  - bind_inv H. injection H as <-. cbn [snd].
    eapply diff_simple_positive; eassumption.
Qed.

Lemma headed_snoc (h row : list json) (l : list (list json)) :
  headed h l -> List.length row = List.length h -> headed h (l ++ [row]).
Proof.
  intros (rows & -> & Hrows) Hrow. exists (rows ++ [row])%list. split; [reflexivity|].
  apply Forall_app. split; [assumption|]. constructor; [assumption | constructor].
Qed.

Lemma count_rows_snoc (h row : list json) (l : list (list json)) :
  headed h l -> count_rows (l ++ [row]) = count_rows l + 1.
Proof.
  intros (rows & -> & _). unfold count_rows, data_rows. cbn [app tl].
  rewrite length_app. cbn. lia.
Qed.

Lemma sheet_inv_init (h : list json) (n : nat) : sheet_inv h n (acc_init h).
Proof.
  assert (Hh : headed h [h]) by (exists []; split; [reflexivity | constructor]).
  unfold sheet_inv, acc_init. cbn. repeat split; try assumption; lia.
Qed.

Lemma match_sheet_inv (to_datetime : value -> option string)
      (sheet_name : string) (cols : list string) (df_orig df_web : DataFrame) (st : acc) :
  match_sheet to_datetime sheet_name cols df_orig df_web = Ok st ->
  sheet_inv (make_headers (sheet_mode sheet_name df_orig df_web) cols)
            (List.length cols) st.
Proof.
  set (mode := sheet_mode sheet_name df_orig df_web).
  set (h := make_headers mode cols).
  assert (Hmax : 1 <= Z.max 1 (Z.of_nat (List.length cols))) by lia.
  assert (Hmax' : Z.of_nat (List.length cols) <= Z.max 1 (Z.of_nat (List.length cols)))
    by lia.
  apply (match_sheet_preserves to_datetime sheet_name cols df_orig df_web
           (sheet_inv h (List.length cols)) st); fold mode; fold h.
  - intros st0 o row i (Hc & Hd & Ho & Hw & Hrc & Hlo & Hhi) Hrow.
    apply render_only_orig_length in Hrow. fold h in Hrow.
    unfold sheet_inv, add_only_orig. cbn.
    rewrite (count_rows_snoc h row _ Ho).
    repeat split; try assumption; [now apply headed_snoc | lia | lia | nia].
  - intros st0 o w row i j (Hc & Hd & Ho & Hw & Hrc & Hlo & Hhi) _ Hrow.
    apply render_common_length in Hrow. fold h in Hrow.
    unfold sheet_inv, add_common. cbn.
    repeat split; try assumption. now apply headed_snoc.
  - intros st0 o w r i j (Hc & Hd & Ho & Hw & Hrc & Hlo & Hhi) Hne Hr.
    pose proof (render_diff_positive mode cols o w r Hne Hr) as Hpos.
    apply render_diff_shape in Hr as (Hlen & Hn). fold h in Hlen.
    unfold sheet_inv, add_diff. cbn.
    rewrite (count_rows_snoc h (fst r) _ Hd).
    repeat split; try assumption; [now apply headed_snoc | lia | lia | nia].
  - intros st0 w row j (Hc & Hd & Ho & Hw & Hrc & Hlo & Hhi) Hrow.
    apply render_only_web_length in Hrow. fold h in Hrow.
    unfold sheet_inv, add_only_web. cbn.
    rewrite (count_rows_snoc h row _ Hw).
    repeat split; try assumption; [now apply headed_snoc | lia | lia | nia].
  - apply sheet_inv_init.
Qed.

(** X16. The four lists of a sheet all start with the header row of
    the sheet, and every row of every list has the width of that header. *)
Theorem sheet_lists_share_header_and_width
        (to_datetime : value -> option string) (sheet_name : string)
        (common_cols : list string) (df_orig df_web : DataFrame) (st : acc) :
  match_sheet to_datetime sheet_name common_cols df_orig df_web = Ok st ->
  let h := make_headers (sheet_mode sheet_name df_orig df_web) common_cols in
  headed h (structured_common st) /\ headed h (structured_diff st)
  /\ headed h (structured_only_orig st) /\ headed h (structured_only_web st).
Proof.
  intros H. apply match_sheet_inv in H as (Hc & Hd & Ho & Hw & _).
  repeat split; assumption.
Qed.

Lemma sheet_lists_share_header_and_width_witness :
  exists st,
    match_sheet to_datetime_unparsed "Plain" scenario_cols scenario_orig scenario_web
    = Ok st
    /\ headed scenario_header (structured_only_orig st).
Proof.
  eexists. split; [vm_compute; reflexivity|].
  refine (proj1 (proj2 (proj2 (sheet_lists_share_header_and_width
            to_datetime_unparsed "Plain" scenario_cols scenario_orig scenario_web
            _ _)))).
  vm_compute. reflexivity.
Defined.

(** X17. Cells different is at least rows compared and at most rows
    compared times the number of common columns. *)
Theorem cells_different_is_bounded_by_rows_compared
        (to_datetime : value -> option string) (sheet_name : string)
        (common_cols : list string) (df_orig df_web : DataFrame) (st : acc) :
  match_sheet to_datetime sheet_name common_cols df_orig df_web = Ok st ->
  rows_compared st <= diff_count st
  /\ diff_count st <= rows_compared st * Z.max 1 (Z.of_nat (List.length common_cols)).
Proof.
  intros H. apply match_sheet_inv in H as (_ & _ & _ & _ & _ & Hlo & Hhi).
  split; assumption.
Qed.

Lemma cells_different_is_bounded_by_rows_compared_witness :
  exists st,
    match_sheet to_datetime_unparsed "Plain" scenario_cols scenario_orig scenario_web
    = Ok st
    /\ rows_compared st <= diff_count st
    /\ diff_count st <= rows_compared st * 2.
Proof.
  eexists. split; [vm_compute; reflexivity|].
  refine (cells_different_is_bounded_by_rows_compared
            to_datetime_unparsed "Plain" scenario_cols scenario_orig scenario_web _ _).
  vm_compute. reflexivity.
Defined.

Lemma norm_for_json_not_nan (v : value) : not_nan (norm_for_json v).
Proof.
  unfold norm_for_json. destruct (isna v) eqn:E; [exact I|].
  destruct v; try exact I. exact E.
Qed.

Lemma row_values_not_nan (cols : list string) (row : Series) :
  forall vs, row_values cols row = Ok vs -> Forall not_nan vs.
Proof.
  induction cols as [|c cols IH]; cbn [row_values]; intros vs H.
  - injection H as <-. constructor.
  - bind_inv H. bind_inv H. injection H as <-.
    constructor; [apply norm_for_json_not_nan | now apply IH].
Qed.

Lemma make_headers_not_nan mode cols : Forall not_nan (make_headers mode cols).
Proof.
  destruct mode; cbn [make_headers].
  - induction cols as [|c cols IH]; cbn; [constructor|].
    repeat (constructor; [exact I|]). exact IH.
  - apply Forall_app. split; [|repeat constructor].
    apply Forall_forall. intros x Hx. apply in_map_iff in Hx as (s & <- & _). exact I.
Qed.

Lemma rendered_row_not_nan (mode : header_mode) (f g h : json -> json) (status : json)
      (vs : list json) :
  (forall x, not_nan x -> not_nan (f x) /\ not_nan (g x) /\ not_nan (h x)) ->
  not_nan status -> Forall not_nan vs ->
  Forall not_nan match mode with
                 | Tripled => flat_map (fun x => [f x; g x; h x]) vs
                 | Simple => (vs ++ [status])%list
                 end.
Proof.
  intros Hf Hs Hvs. destruct mode.
  - induction Hvs as [|x vs Hx _ IH]; cbn; [constructor|].
    destruct (Hf x Hx) as (H1 & H2 & H3). repeat (constructor; [assumption|]). exact IH.
  - apply Forall_app. split; [assumption | repeat constructor; assumption].
Qed.

Lemma diff_triples_not_nan (cols : list string) (o w : Series) :
  forall r, diff_triples cols o w = Ok r -> Forall not_nan (fst r).
Proof.
  induction cols as [|c cols IH]; cbn [diff_triples]; intros r H.
  - injection H as <-. constructor.
  - bind_inv H. bind_inv H. bind_inv H. bind_inv H. bind_inv H. injection H as <-.
    cbn [fst]. repeat (constructor; [apply norm_for_json_not_nan|]). now apply IH.
Qed.

Lemma diff_simple_not_nan (cols : list string) (o w : Series) :
  forall r, diff_simple cols o w = Ok r -> Forall not_nan (fst r).
Proof.
  induction cols as [|c cols IH]; cbn [diff_simple]; intros r H.
  - injection H as <-. constructor.
  - bind_inv H. bind_inv H. bind_inv H. bind_inv H. injection H as <-.
    cbn [fst]. constructor; [apply norm_for_json_not_nan | now apply IH].
Qed.

Lemma no_nan_snoc (l : list (list json)) (row : list json) :
  no_nan l -> Forall not_nan row -> no_nan (l ++ [row]).
Proof.
  intros Hl Hrow. apply Forall_app. split; [assumption | repeat constructor; assumption].
Qed.

(** X18. No cell of the four lists of a sheet is a NaN float. *)
Theorem output_holds_no_nan
        (to_datetime : value -> option string) (sheet_name : string)
        (common_cols : list string) (df_orig df_web : DataFrame) (st : acc) :
  match_sheet to_datetime sheet_name common_cols df_orig df_web = Ok st ->
  no_nan (structured_common st) /\ no_nan (structured_diff st)
  /\ no_nan (structured_only_orig st) /\ no_nan (structured_only_web st).
Proof.
  apply (match_sheet_preserves to_datetime sheet_name common_cols df_orig df_web
           acc_no_nan st).
  - intros s o row i (Hc & Hd & Ho & Hw) H. unfold render_only_orig in H.
    bind_inv H. injection H as <-. apply row_values_not_nan in E.
    unfold acc_no_nan. cbn. repeat split; try assumption.
    apply no_nan_snoc; [assumption|].
    apply (rendered_row_not_nan _ (fun x => x) (fun _ => JStr "")
             (fun _ => JStr "Only in Original")); [|exact I | exact E].
    intros x Hx. repeat split; assumption.
  - intros s o w row i j (Hc & Hd & Ho & Hw) _ H. unfold render_common in H.
    bind_inv H. injection H as <-. apply row_values_not_nan in E.
    unfold acc_no_nan. cbn. repeat split; try assumption.
    apply no_nan_snoc; [assumption|].
    apply (rendered_row_not_nan _ (fun x => x) (fun x => x) (fun _ => JStr ""));
      [|exact I | exact E].
    intros x Hx. repeat split; assumption.
  - intros s o w r i j (Hc & Hd & Ho & Hw) _ H.
    unfold acc_no_nan. cbn. repeat split; try assumption.
    apply no_nan_snoc; [assumption|].
    destruct (sheet_mode sheet_name df_orig df_web); cbn [render_diff] in H.
    + eapply diff_triples_not_nan; eassumption.
    + bind_inv H. injection H as <-. cbn [fst]. apply Forall_app.
      split; [eapply diff_simple_not_nan; eassumption | repeat constructor].
  - intros s w row j (Hc & Hd & Ho & Hw) H. unfold render_only_web in H.
    bind_inv H. injection H as <-. apply row_values_not_nan in E.
    unfold acc_no_nan. cbn. repeat split; try assumption.
    apply no_nan_snoc; [assumption|].
    apply (rendered_row_not_nan _ (fun _ => JStr "") (fun x => x)
             (fun _ => JStr "Only in Website")); [|exact I | exact E].
    intros x Hx. repeat split; assumption.
  - unfold acc_no_nan, acc_init, no_nan. cbn.
    repeat split; repeat constructor; apply make_headers_not_nan.
Qed.

Lemma output_holds_no_nan_witness :
  exists st,
    match_sheet to_datetime_unparsed "Plain" scenario_cols scenario_orig scenario_web
    = Ok st
    /\ no_nan (structured_only_web st).
Proof.
  eexists. split; [vm_compute; reflexivity|].
  refine (proj2 (proj2 (proj2 (output_holds_no_nan
            to_datetime_unparsed "Plain" scenario_cols scenario_orig scenario_web
            _ _)))).
  vm_compute. reflexivity.
Defined.

Lemma process_sheet_cases to_datetime original website name cfg entry row :
  process_sheet to_datetime original website name cfg = Ok (entry, row) ->
  (entry = mkEntry [] [] [] [] 0 0 None
   /\ row = [JStr name; JInt 0; JInt 0; JInt 0; JInt 0; JInt 0])
  \/ exists h n st,
       sheet_inv h n st
       /\ entry = mkEntry (structured_common st) (structured_diff st)
                          (structured_only_orig st) (structured_only_web st)
                          (rows_compared st) (diff_count st) None
       /\ row = [JStr name; JInt (rows_compared st); JInt (diff_count st);
                 len (structured_common st); len (structured_only_orig st);
                 len (structured_only_web st)].
Proof.
  unfold process_sheet. intros H.
  bind_inv H. bind_inv H. bind_inv H. bind_inv H.
  match type of H with
  | context [match ?l with [] => _ | _ :: _ => _ end] => destruct l as [|c cols] eqn:Hcols
  end.
  - injection H as <- <-. now left.
  - bind_inv H. injection H as <- <-. right.
    apply match_sheet_inv in E3. do 3 eexists.
    split; [exact E3 | split; reflexivity].
Qed.

Lemma headed_length (h : list json) (l : list (list json)) :
  headed h l -> Z.of_nat (List.length l) = 1 + count_rows l.
Proof.
  intros (rows & -> & _). unfold count_rows, data_rows. cbn [tl List.length]. lia.
Qed.

(** X19. Rows compared is the number of data rows of the differing,
    only-in-original and only-in-website lists together; cells different is
    at least as large, and is zero exactly when rows compared is. *)
Theorem rows_compared_counts_the_three_lists
        (to_datetime : value -> option string) (original website : document)
        (sheet_name : string) (cfg : sheet_cfg) (entry : sheet_entry) (row : list json) :
  process_sheet to_datetime original website sheet_name cfg = Ok (entry, row) ->
  entry_rows_compared entry
  = count_rows (different_rows entry) + count_rows (only_in_original_rows entry)
    + count_rows (only_in_website_rows entry)
  /\ entry_rows_compared entry <= entry_cells_different entry
  /\ (entry_cells_different entry = 0 <-> entry_rows_compared entry = 0).
Proof.
  intros H. apply process_sheet_cases in H as [(-> & _) | (h & n & st & Hinv & -> & _)].
  - cbn. repeat split; lia.
  - destruct Hinv as (_ & _ & _ & _ & Hrc & Hlo & Hhi). cbn [entry_rows_compared
      entry_cells_different different_rows only_in_original_rows only_in_website_rows].
    split; [exact Hrc|]. split; [exact Hlo|].
    assert (0 <= rows_compared st) by (rewrite Hrc; unfold count_rows; lia).
    split; intros; nia.
Qed.

Lemma rows_compared_counts_the_three_lists_witness :
  exists entry row,
    process_sheet to_datetime_unparsed plain_original plain_website "Plain" plain_cfg
    = Ok (entry, row)
    /\ entry_rows_compared entry = 2
    /\ entry_rows_compared entry
       = count_rows (different_rows entry) + count_rows (only_in_original_rows entry)
         + count_rows (only_in_website_rows entry).
Proof.
  do 2 eexists. split; [vm_compute; reflexivity|]. split; [reflexivity|].
  refine (proj1 (rows_compared_counts_the_three_lists
                   to_datetime_unparsed plain_original plain_website "Plain" plain_cfg
                   _ _ _)).
  vm_compute. reflexivity.
Defined.

(** X20. In the summary row of a sheet with common columns the three
    row counts are lengths of lists that include the header row: each is one
    more than the number of data rows. *)
Theorem summary_counts_include_header_row
        (to_datetime : value -> option string) (original website : document)
        (sheet_name : string) (cfg : sheet_cfg) (entry : sheet_entry) (row : list json) :
  process_sheet to_datetime original website sheet_name cfg = Ok (entry, row) ->
  common_rows entry <> [] ->
  row = [JStr sheet_name; JInt (entry_rows_compared entry);
         JInt (entry_cells_different entry);
         JInt (1 + count_rows (common_rows entry));
         JInt (1 + count_rows (only_in_original_rows entry));
         JInt (1 + count_rows (only_in_website_rows entry))].
Proof.
  intros H Hne.
  apply process_sheet_cases in H as [(-> & _) | (h & n & st & Hinv & -> & ->)].
  - now contradiction Hne.
  - destruct Hinv as (Hc & _ & Ho & Hw & _). cbn. unfold len.
    now rewrite (headed_length h _ Hc), (headed_length h _ Ho), (headed_length h _ Hw).
Qed.

Lemma summary_counts_include_header_row_witness :
  exists entry row,
    process_sheet to_datetime_unparsed plain_original plain_website "Plain" plain_cfg
    = Ok (entry, row)
    /\ data_rows (common_rows entry) = []
    /\ row = [JStr "Plain"; JInt 2; JInt 2; JInt 1; JInt 2; JInt 2]
    /\ row = [JStr "Plain"; JInt (entry_rows_compared entry);
              JInt (entry_cells_different entry);
              JInt (1 + count_rows (common_rows entry));
              JInt (1 + count_rows (only_in_original_rows entry));
              JInt (1 + count_rows (only_in_website_rows entry))].
Proof.
  do 2 eexists. split; [vm_compute; reflexivity|]. split; [reflexivity|].
  split; [reflexivity|].
  apply (summary_counts_include_header_row
           to_datetime_unparsed plain_original plain_website "Plain" plain_cfg).
  - vm_compute. reflexivity.
  - discriminate.
Defined.

(** ** The callers of the comparator *)

Lemma has_data_row_headed (h : list json) (l : list (list json)) :
  headed h l -> has_data_row l = (0 <? count_rows l).
Proof.
  intros (rows & -> & _). unfold has_data_row, count_rows, data_rows. cbn [tl List.length].
  destruct rows; reflexivity.
Qed.

Lemma reports_difference_rows_compared to_datetime original website name cfg entry row :
  process_sheet to_datetime original website name cfg = Ok (entry, row) ->
  reports_difference entry = (0 <? entry_rows_compared entry).
Proof.
  intros H. apply process_sheet_cases in H as [(-> & _) | (h & n & st & Hinv & -> & _)].
  - reflexivity.
  - destruct Hinv as (_ & Hd & Ho & Hw & Hrc & _). unfold reports_difference.
    cbn [different_rows only_in_original_rows only_in_website_rows entry_rows_compared].
    rewrite (has_data_row_headed h _ Hd), (has_data_row_headed h _ Ho),
      (has_data_row_headed h _ Hw), Hrc.
    unfold count_rows.
    destruct (List.length (data_rows (structured_diff st)));
      destruct (List.length (data_rows (structured_only_orig st)));
      destruct (List.length (data_rows (structured_only_web st))); cbn; try reflexivity;
      symmetry; apply Z.ltb_lt; lia.
Qed.

Lemma dict_get_In (d : list (string * sheet_entry)) (k : string) (v : sheet_entry) :
  NoDup (map fst d) -> (In (k, v) d <-> dict_get d k = Some v).
Proof.
  induction d as [|[k' v'] d IH]; cbn; intros Hnd.
  - split; [contradiction | discriminate].
  - inversion Hnd as [|? ? Hnotin Hnd']; subst.
    destruct (String.eqb_spec k' k) as [-> | Hne].
    + split.
      * intros [[= ->] | Hin]; [reflexivity|].
        exfalso. apply Hnotin. apply (in_map fst) in Hin. exact Hin.
      * intros [= ->]. now left.
    + rewrite <- (IH Hnd'). split; [intros [[= -> _] | Hin] | intros Hin].
      * contradiction.
      * assumption.
      * now right.
Qed.

Lemma dict_get_None (d : list (string * sheet_entry)) (k : string) :
  ~ In k (map fst d) -> dict_get d k = None.
Proof.
  induction d as [|[k' v'] d IH]; cbn; intros Hnotin; [reflexivity|].
  destruct (String.eqb_spec k' k) as [-> | Hne]; [tauto|]. apply IH. tauto.
Qed.

(** In a run that returns, the dictionary of the sheets holds the outcome of
    every configured sheet, and nothing else. *)
Lemma compare_India_returned to_datetime avoid_duplicate_name original website
      sheets_config out :
  let config := match sheets_config with
                | None => default_sheets_config
                | Some c => c
                end in
  NoDup (map fst config) ->
  compare_excel_with_gain_summary_inline_India
    to_datetime avoid_duplicate_name original website sheets_config = Ok out ->
  map fst (sheets out) = map fst config
  /\ forall name cfg, In (name, cfg) config ->
       dict_get (sheets out) name
       = Some (fst (sheet_outcome to_datetime original website name cfg)).
Proof.
  intros config Hnd H.
  destruct (compare_India_outcomes to_datetime avoid_duplicate_name original website
              sheets_config out Hnd H) as (Hkeys & _ & Hget).
  split; [exact Hkeys|]. intros name cfg Hin. exact (proj1 (Hget name cfg Hin)).
Qed.

(** X21. [compare_excel_sheets_inline_India] lists a sheet exactly when
    its processing returned and rows compared is positive; a sheet whose
    processing failed is never listed. *)
Theorem listed_sheets_have_rows_compared
        (to_datetime : value -> option string)
        (avoid_duplicate_name : list string -> string -> string)
        (original website : document)
        (sheets_config : option sheets_config_t) (names : list string) :
  let config := match sheets_config with
                | None => default_sheets_config
                | Some c => c
                end in
  NoDup (map fst config) ->
  compare_excel_sheets_inline_India to_datetime avoid_duplicate_name
                                    original website sheets_config
  = Ok names ->
  forall name,
    In name names
    <-> exists cfg entry row,
          In (name, cfg) config
          /\ process_sheet to_datetime original website name cfg = Ok (entry, row)
          /\ 0 < entry_rows_compared entry.
Proof.
  intros config Hnd H name. unfold compare_excel_sheets_inline_India in H.
  bind_inv H. rename a into out, E into Hrun. injection H as <-.
  destruct (compare_India_returned to_datetime avoid_duplicate_name original website
              sheets_config out Hnd Hrun) as (Hkeys & Hget).
  fold config in Hkeys, Hget.
  assert (Hnd' : NoDup (map fst (sheets out))) by (rewrite Hkeys; exact Hnd).
  rewrite in_map_iff. split.
  - intros ([name' entry] & Hname & Hin). cbn in Hname. subst name'.
    apply filter_In in Hin as (Hin & Hrep). cbn [snd] in Hrep.
    assert (Hcfg : exists cfg, In (name, cfg) config).
    { apply (in_map fst) in Hin. rewrite Hkeys in Hin. cbn in Hin.
      apply in_map_iff in Hin as ([n c] & Hn & Hc). cbn in Hn. subst n. eauto. }
    destruct Hcfg as (cfg & Hcfg).
    apply (dict_get_In _ _ _ Hnd') in Hin. rewrite (Hget name cfg Hcfg) in Hin.
    injection Hin as Hentry. unfold sheet_outcome in Hentry.
    destruct (process_sheet to_datetime original website name cfg)
      as [[entry' row]|e] eqn:Hp; cbn [fst] in Hentry; subst entry.
    + exists cfg, entry', row. split; [assumption|]. split; [exact Hp|].
      apply Z.ltb_lt. change (reports_difference entry' = true) in Hrep.
      now rewrite <- (reports_difference_rows_compared _ _ _ _ _ _ _ Hp).
    + discriminate Hrep.
  - intros (cfg & entry & row & Hcfg & Hp & Hpos).
    exists (name, entry). split; [reflexivity|]. apply filter_In. split.
    + apply (dict_get_In _ _ _ Hnd'). rewrite (Hget name cfg Hcfg).
      unfold sheet_outcome. now rewrite Hp.
    + cbn [snd]. change (reports_difference entry = true).
      rewrite (reports_difference_rows_compared _ _ _ _ _ _ _ Hp).
      now apply Z.ltb_lt.
Qed.

Lemma listed_sheets_have_rows_compared_witness :
  compare_excel_sheets_inline_India to_datetime_unparsed title_kept
                                    plain_original plain_website
                                    (Some two_sheets_config) = Ok ["Plain"]
  /\ In "Plain" ["Plain"].
Proof.
  split; [vm_compute; reflexivity|].
  refine (proj2 (listed_sheets_have_rows_compared
                   to_datetime_unparsed title_kept plain_original plain_website
                   (Some two_sheets_config) ["Plain"] _ _ "Plain") _).
  - repeat constructor; cbn; intuition discriminate.
  - vm_compute. reflexivity.
  - exists plain_cfg. do 2 eexists. split; [cbn; tauto|].
    split; [vm_compute; reflexivity | reflexivity].
Defined.

(** X22. [compare_single_sheet_diff_inline_India] returns the four
    lists of the entry of the sheet; for a sheet whose processing failed, as
    for a sheet that is not configured, these are four empty lists. *)
Theorem single_sheet_diff_hides_failures
        (to_datetime : value -> option string)
        (avoid_duplicate_name : list string -> string -> string)
        (original website : document)
        (sheet_name : string) (sheets_config : option sheets_config_t) (d : sheet_diff) :
  let config := match sheets_config with
                | None => default_sheets_config
                | Some c => c
                end in
  NoDup (map fst config) ->
  compare_single_sheet_diff_inline_India to_datetime avoid_duplicate_name
                                         original website sheet_name
                                         sheets_config = Ok d ->
  (forall cfg entry row,
      In (sheet_name, cfg) config ->
      process_sheet to_datetime original website sheet_name cfg = Ok (entry, row) ->
      d = mkSheetDiff sheet_name (common_rows entry) (different_rows entry)
                      (only_in_original_rows entry) (only_in_website_rows entry))
  /\ (forall cfg e,
        In (sheet_name, cfg) config ->
        process_sheet to_datetime original website sheet_name cfg = Raise e ->
        d = mkSheetDiff sheet_name [] [] [] [])
  /\ (~ In sheet_name (map fst config) -> d = mkSheetDiff sheet_name [] [] [] []).
Proof.
  intros config Hnd H. unfold compare_single_sheet_diff_inline_India in H.
  bind_inv H. rename a into out, E into Hrun.
  destruct (compare_India_returned to_datetime avoid_duplicate_name original website
              sheets_config out Hnd Hrun) as (Hkeys & Hget).
  fold config in Hkeys, Hget.
  split; [|split].
  - intros cfg entry row Hcfg Hp. rewrite (Hget _ cfg Hcfg) in H.
    unfold sheet_outcome in H. rewrite Hp in H. cbn [fst] in H. now injection H as <-.
  - intros cfg e Hcfg Hp. rewrite (Hget _ cfg Hcfg) in H.
    unfold sheet_outcome in H. rewrite Hp in H. cbn in H. now injection H as <-.
  - intros Hnotin. rewrite dict_get_None in H by (rewrite Hkeys; exact Hnotin).
    now injection H as <-.
Qed.

Lemma single_sheet_diff_hides_failures_witness :
  compare_single_sheet_diff_inline_India to_datetime_unparsed title_kept
                                         plain_original plain_website "Missing"
                                         (Some two_sheets_config)
  = Ok (mkSheetDiff "Missing" [] [] [] []).
Proof.
  assert (H : exists d,
             compare_single_sheet_diff_inline_India
               to_datetime_unparsed title_kept plain_original plain_website "Missing"
               (Some two_sheets_config) = Ok d)
    by (eexists; vm_compute; reflexivity).
  destruct H as (d & Hd). rewrite Hd. f_equal.
  refine (proj1 (proj2 (single_sheet_diff_hides_failures
                          to_datetime_unparsed title_kept plain_original plain_website
                          "Missing"
                          (Some two_sheets_config) d _ Hd))
                plain_cfg (ReadError "Worksheet named 'Missing' not found") _ _).
  - repeat constructor; cbn; intuition discriminate.
  - cbn. tauto.
  - vm_compute. reflexivity.
Defined.

(** ** Pairs, rows and duplicates in the matchers *)

Lemma all_values_equal_true (cols : list string) (o w : Series) :
  all_values_equal cols o w = Ok true <-> Forall (column_equal o w) cols.
Proof.
  induction cols as [|c cols IH]; cbn [all_values_equal].
  - split; [constructor | reflexivity].
  - split.
    + intros H. bind_inv H. bind_inv H. bind_inv H.
      destruct a1; [|discriminate]. constructor; [|now apply IH].
      exists a, a0. repeat split; assumption.
    + intros H. inversion H as [|? ? (ov & wv & Ho & Hw & He) Hrest]; subst.
      rewrite Ho, Hw. cbn [bind]. rewrite He. cbn [bind]. now apply IH.
Qed.

Lemma all_values_equal_false (cols : list string) (o w : Series) :
  all_values_equal cols o w = Ok false -> Exists (column_differs o w) cols.
Proof.
  induction cols as [|c cols IH]; cbn [all_values_equal]; [discriminate|].
  intros H. bind_inv H. bind_inv H. bind_inv H. destruct a1.
  - right. now apply IH.
  - left. exists a, a0. repeat split; assumption.
Qed.

Lemma df_loc_nth (df : DataFrame) (i : nat) (r : Series) :
  df_loc df i = Ok r -> nth_error (df_rows df) i = Some r.
Proof.
  unfold df_loc. destruct (nth_error (df_rows df) i); [now intros [= ->] | discriminate].
Qed.

Lemma judged_step (cols : list string) (dfo dfw : DataFrame) (evs : list event)
      (ev : event) :
  judged cols dfo dfw evs ->
  (forall i j, ev = EvCommon i j ->
     exists o w, nth_error (df_rows dfo) i = Some o
                 /\ nth_error (df_rows dfw) j = Some w
                 /\ Forall (column_equal o w) cols) ->
  (forall i j, ev = EvDiff i j ->
     exists o w, nth_error (df_rows dfo) i = Some o
                 /\ nth_error (df_rows dfw) j = Some w
                 /\ Exists (column_differs o w) cols) ->
  judged cols dfo dfw (evs ++ [ev]).
Proof.
  intros Hj Hc Hd i j. destruct (Hj i j) as [Hjc Hjd]. split; intros Hin;
    apply in_app_or in Hin as [Hin | [Heq | []]]; auto.
Qed.

Section Judged.

Variables (mode : header_mode) (cols : list string) (dfo dfw : DataFrame).

Let P := fun st : acc => judged cols dfo dfw (matched st).

Lemma judged_only_orig :
  forall st o row i, P st -> df_loc dfo i = Ok o ->
    render_only_orig mode cols o = Ok row -> P (add_only_orig st row i).
Proof.
  intros st o row i HP _ _. apply judged_step; [exact HP | discriminate..].
Qed.

Lemma judged_common :
  forall st o w row i j, P st -> df_loc dfo i = Ok o -> df_loc dfw j = Ok w ->
    all_values_equal cols o w = Ok true -> render_common mode cols o = Ok row ->
    P (add_common st row i j).
Proof.
  intros st o w row i j HP Ho Hw He _. apply judged_step; [exact HP | | discriminate].
  intros i' j' [= <- <-]. exists o, w.
  split; [now apply df_loc_nth|]. split; [now apply df_loc_nth|].
  now apply all_values_equal_true.
Qed.

Lemma judged_diff :
  forall st o w r i j, P st -> df_loc dfo i = Ok o -> df_loc dfw j = Ok w ->
    all_values_equal cols o w = Ok false -> render_diff mode cols o w = Ok r ->
    P (add_diff st (fst r) (snd r) i j).
Proof.
  intros st o w r i j HP Ho Hw He _. apply judged_step; [exact HP | discriminate |].
  intros i' j' [= <- <-]. exists o, w.
  split; [now apply df_loc_nth|]. split; [now apply df_loc_nth|].
  now apply all_values_equal_false.
Qed.

Lemma judged_only_web :
  forall st w row j, P st -> df_loc dfw j = Ok w ->
    render_only_web mode cols w = Ok row -> P (add_only_web st row j).
Proof.
  intros st w row j HP _ _. apply judged_step; [exact HP | discriminate..].
Qed.

End Judged.

Lemma judged_nil cols dfo dfw : judged cols dfo dfw [].
Proof. intros i j. split; intros []. Qed.

(** X23. In both matchers a pair is written as a common row only when
    every common column is tolerant-equal, and as a differing row only when
    some common column differs. *)
Theorem pairs_are_judged_by_their_columns
        (mode : header_mode) (keyf : Series -> result (option string))
        (common_cols : list string) (df_orig df_web : DataFrame) (st : acc) :
  index_match mode common_cols df_orig df_web
              (acc_init (make_headers mode common_cols)) = Ok st
  \/ map_match keyf common_cols df_orig df_web
               (acc_init (make_headers Tripled common_cols)) = Ok st ->
  judged common_cols df_orig df_web (matched st).
Proof.
  intros [H | H].
  - apply (index_match_preserves mode common_cols df_orig df_web
             (fun st => judged common_cols df_orig df_web (matched st))
             (judged_only_orig mode common_cols df_orig df_web)
             (judged_common mode common_cols df_orig df_web)
             (judged_diff mode common_cols df_orig df_web)
             (judged_only_web mode common_cols df_orig df_web) _ st) in H;
      [exact H | apply judged_nil].
  - apply (map_match_preserves Tripled common_cols df_orig df_web
             (fun st => judged common_cols df_orig df_web (matched st))
             (judged_only_orig Tripled common_cols df_orig df_web)
             (judged_common Tripled common_cols df_orig df_web)
             (judged_diff Tripled common_cols df_orig df_web)
             (judged_only_web Tripled common_cols df_orig df_web) eq_refl keyf _ st) in H;
      [exact H | apply judged_nil].
Qed.

Lemma pairs_are_judged_by_their_columns_witness :
  exists st,
    index_match Simple dup_cols dup_orig dup_web
                (acc_init (make_headers Simple dup_cols)) = Ok st
    /\ In (EvDiff 1 0) (matched st)
    /\ judged dup_cols dup_orig dup_web (matched st).
Proof.
  eexists. split; [vm_compute; reflexivity|]. split; [cbn; tauto|].
  refine (pairs_are_judged_by_their_columns
            Simple (fun _ => Ok None) dup_cols dup_orig dup_web _ (or_introl _)).
  vm_compute. reflexivity.
Defined.

Lemma compare_pair_classifies mode cols (o w : Series) (i j : nat) (st st' : acc) :
  compare_pair mode cols o w i j st = Ok st' ->
  classified st' = S (classified st)
  /\ structured_only_web st' = structured_only_web st.
Proof.
  unfold compare_pair. intros H. bind_inv H. destruct a.
  - bind_inv H. injection H as <-. unfold classified. cbn.
    rewrite length_app. cbn. split; [lia | reflexivity].
  - bind_inv H. injection H as <-. unfold classified. cbn.
    rewrite length_app. cbn. split; [lia | reflexivity].
Qed.

Lemma index_match_orig_loop_classifies mode cols idx dfw :
  forall rows i st st',
    index_match_orig_loop mode cols idx dfw rows i st = Ok st' ->
    classified st' = (classified st + List.length rows)%nat
    /\ structured_only_web st' = structured_only_web st.
Proof.
  induction rows as [|r rows IH]; cbn [index_match_orig_loop]; intros i st st' H.
  - injection H as <-. split; [cbn; lia | reflexivity].
  - bind_inv H. rename a into st1, E into Hstep.
    destruct (IH _ _ _ H) as (Hc & Hw).
    assert (Hs : classified st1 = S (classified st)
                 /\ structured_only_web st1 = structured_only_web st).
    { unfold index_match_orig_step in Hstep. bind_inv Hstep.
      destruct (index_get idx a) as [|j js].
      - bind_inv Hstep. injection Hstep as <-. unfold classified. cbn.
        rewrite length_app. cbn. split; [lia | reflexivity].
      - bind_inv Hstep. eapply compare_pair_classifies; eassumption. }
    destruct Hs as (Hc1 & Hw1). cbn [List.length]. split; [lia | congruence].
Qed.

Lemma index_match_web_loop_classifies mode cols oks :
  forall rows j st st',
    index_match_web_loop mode cols oks rows j st = Ok st' ->
    classified st' = classified st
    /\ (List.length (structured_only_web st)
        <= List.length (structured_only_web st')
        <= List.length (structured_only_web st) + List.length rows)%nat.
Proof.
  induction rows as [|r rows IH]; cbn [index_match_web_loop]; intros j st st' H.
  - injection H as <-. split; [reflexivity | cbn; lia].
  - bind_inv H. destruct (key_in a oks).
    + destruct (IH _ _ _ H) as (Hc & Hw). split; [exact Hc | cbn [List.length]; lia].
    + bind_inv H. destruct (IH _ _ _ H) as (Hc & Hw). split; [exact Hc|].
      cbn [add_only_web structured_only_web] in Hw. rewrite length_app in Hw.
      cbn [List.length] in *. lia.
Qed.

Lemma snoc_nonempty {A : Type} (l : list A) (x : A) : (l ++ [x])%list <> [].
Proof. destruct l; discriminate. Qed.

Lemma count_rows_length (l : list (list json)) :
  l <> [] -> count_rows l = Z.of_nat (List.length l) - 1.
Proof.
  destruct l; [congruence|]. intros _. unfold count_rows, data_rows.
  cbn [tl List.length]. lia.
Qed.

Lemma index_match_lists_nonempty mode cols dfo dfw (st st' : acc) :
  lists_nonempty st -> index_match mode cols dfo dfw st = Ok st' -> lists_nonempty st'.
Proof.
  apply (index_match_preserves mode cols dfo dfw lists_nonempty).
  - intros s o row i (Hc & Hd & Ho & Hw) _ _. unfold lists_nonempty. cbn.
    repeat split; try assumption. apply snoc_nonempty.
  - intros s o w row i j (Hc & Hd & Ho & Hw) _ _ _ _. unfold lists_nonempty. cbn.
    repeat split; try assumption. apply snoc_nonempty.
  - intros s o w r i j (Hc & Hd & Ho & Hw) _ _ _ _. unfold lists_nonempty. cbn.
    repeat split; try assumption. apply snoc_nonempty.
  - intros s w row j (Hc & Hd & Ho & Hw) _ _. unfold lists_nonempty. cbn.
    repeat split; try assumption. apply snoc_nonempty.
Qed.

(** X24. The indexed matcher writes exactly one row per original row
    into the common, differing and only-in-original lists, and at most one
    only-in-website row per website row. *)
Theorem index_match_classifies_every_original_row
        (mode : header_mode) (common_cols : list string)
        (df_orig df_web : DataFrame) (h : list json) (st : acc) :
  index_match mode common_cols df_orig df_web (acc_init h) = Ok st ->
  count_rows (structured_common st) + count_rows (structured_diff st)
  + count_rows (structured_only_orig st)
  = Z.of_nat (List.length (df_rows df_orig))
  /\ count_rows (structured_only_web st) <= Z.of_nat (List.length (df_rows df_web)).
Proof.
  intros H.
  assert (Hne : lists_nonempty st).
  { apply (index_match_lists_nonempty mode common_cols df_orig df_web _ _) with (2 := H).
    unfold lists_nonempty. cbn. repeat split; discriminate. }
  destruct Hne as (Hc & Hd & Ho & Hw).
  unfold index_match in H. bind_inv H. bind_inv H. bind_inv H.
  apply index_match_orig_loop_classifies in E1 as (Hcl1 & Hw1).
  apply index_match_web_loop_classifies in H as (Hcl2 & Hw2).
  rewrite Hw1 in Hw2. rewrite Hcl1 in Hcl2. unfold classified in Hcl2.
  cbn [acc_init structured_common structured_diff structured_only_orig
       structured_only_web List.length] in Hcl2, Hw2.
  rewrite !count_rows_length by assumption. lia.
Qed.

Lemma index_match_classifies_every_original_row_witness :
  exists st,
    index_match Simple dup_cols dup_orig dup_web
                (acc_init (make_headers Simple dup_cols)) = Ok st
    /\ count_rows (structured_common st) + count_rows (structured_diff st)
       + count_rows (structured_only_orig st) = 2.
Proof.
  eexists. split; [vm_compute; reflexivity|].
  refine (proj1 (index_match_classifies_every_original_row
                   Simple dup_cols dup_orig dup_web _ _ _)).
  vm_compute. reflexivity.
Defined.

Lemma first_index_nth (k : row_key_t) (ks : list row_key_t) :
  forall j0 j, first_index k ks j0 = Some j ->
               (j0 <= j)%nat /\ nth_error ks (j - j0) = Some k.
Proof.
  induction ks as [|k' ks IH]; cbn [first_index]; intros j0 j H; [discriminate|].
  destruct (key_eqb k' k) eqn:E.
  - injection H as <-. apply key_eqb_eq in E. subst k'.
    rewrite Nat.sub_diag. split; [lia | reflexivity].
  - apply IH in H as (Hle & Hn). split; [lia|].
    replace (j - j0)%nat with (S (j - S j0)) by lia. exact Hn.
Qed.

Lemma orig_events_web (kw : list row_key_t) :
  forall ko evo i0 j,
    orig_events_ok kw i0 ko evo -> appears_web evo j ->
    exists k, In k ko /\ first_index k kw O = Some j.
Proof.
  induction ko as [|k0 ko IH]; intros [|ev evo] i0 j Hok (ev' & Hin & Hu);
    cbn in Hok; try contradiction.
  destruct Hok as [Hev Hok]. destruct Hin as [<- | Hin].
  - exists k0. split; [now left|].
    destruct (first_index k0 kw O) as [j'|].
    + destruct Hev as [-> | ->]; cbn in Hu; now subst.
    + subst ev. contradiction.
  - destruct (IH evo (S i0) j Hok (ex_intro _ ev' (conj Hin Hu))) as (k & Hk & Hf).
    exists k. split; [now right | assumption].
Qed.

Lemma only_web_events_web (oks : list row_key_t) :
  forall kw j0 j,
    appears_web (only_web_events oks kw j0) j ->
    exists k, (j0 <= j)%nat /\ nth_error kw (j - j0) = Some k /\ key_in k oks = false.
Proof.
  induction kw as [|k0 kw IH]; cbn [only_web_events]; intros j0 j (ev & Hin & Hu).
  - contradiction.
  - assert (Hrest : appears_web (only_web_events oks kw (S j0)) j ->
                    exists k, (j0 <= j)%nat /\ nth_error (k0 :: kw) (j - j0) = Some k
                              /\ key_in k oks = false).
    { intros Ha. destruct (IH (S j0) j Ha) as (k & Hle & Hn & Hk).
      exists k. split; [lia|]. split; [|assumption].
      replace (j - j0)%nat with (S (j - S j0)) by lia. exact Hn. }
    destruct (key_in k0 oks) eqn:Hk0.
    + apply Hrest. exists ev. split; assumption.
    + destruct Hin as [<- | Hin].
      * cbn in Hu. subst j. exists k0. rewrite Nat.sub_diag.
        split; [lia|]. split; [reflexivity | assumption].
      * apply Hrest. exists ev. split; assumption.
Qed.

(** X25. In the indexed matcher a website row whose key an original
    row has, and which is not the first website row of that key, is used for
    no row of the output. *)
Theorem index_match_drops_later_website_duplicates
        (mode : header_mode) (common_cols : list string)
        (df_orig df_web : DataFrame) (h : list json) (st : acc)
        (orig_keys web_keys : list row_key_t) (j : nat) (k : row_key_t) :
  index_match mode common_cols df_orig df_web (acc_init h) = Ok st ->
  row_keys (df_rows df_orig) = Ok orig_keys ->
  row_keys (df_rows df_web) = Ok web_keys ->
  nth_error web_keys j = Some k ->
  key_in k orig_keys = true ->
  first_index k web_keys O <> Some j ->
  ~ appears_web (matched st) j.
Proof.
  intros H Hko Hkw Hj Hin Hfirst Happ.
  apply index_match_events in H as (ko & kw & evo & Hko' & Hkw' & Hok & Hm & _).
  rewrite Hko in Hko'. injection Hko' as <-.
  rewrite Hkw in Hkw'. injection Hkw' as <-.
  cbn [acc_init matched app] in Hm. rewrite Hm in Happ.
  apply appears_web_app in Happ as [Happ | Happ].
  - destruct (orig_events_web web_keys orig_keys evo O j Hok Happ) as (k' & _ & Hf).
    pose proof (first_index_nth k' web_keys O j Hf) as (_ & Hn).
    rewrite Nat.sub_0_r, Hj in Hn. injection Hn as ->. contradiction.
  - destruct (only_web_events_web orig_keys web_keys O j Happ) as (k' & _ & Hn & Hk).
    rewrite Nat.sub_0_r, Hj in Hn. injection Hn as <-. congruence.
Qed.

Lemma index_match_drops_later_website_duplicates_witness :
  exists st,
    index_match Simple dup_cols dup_orig dup_web
                (acc_init (make_headers Simple dup_cols)) = Ok st
    /\ ~ appears_web (matched st) 1.
Proof.
  eexists. split; [vm_compute; reflexivity|].
  refine (index_match_drops_later_website_duplicates
            Simple dup_cols dup_orig dup_web _ _
            [[KNum 1; KStr "x"]; [KNum 1; KStr "x"]]
            [[KNum 1; KStr "x"]; [KNum 1; KStr "x"]] 1 [KNum 1; KStr "x"]
            _ _ _ _ _ _).
  - vm_compute. reflexivity.
  - vm_compute. reflexivity.
  - vm_compute. reflexivity.
  - reflexivity.
  - reflexivity.
  - vm_compute. discriminate.
Defined.

(** ** A sheet against itself *)

Lemma values_equal_self (v : value) (b : bool) :
  values_equal v v NUMERIC_TOLERANCE = Ok b -> b = true.
Proof.
  unfold values_equal. destruct (to_int_or_none v) as [[z|]|e]; cbn; intros H;
    try discriminate; injection H as <-.
  - now rewrite Z.sub_diag.
  - apply String.eqb_refl.
Qed.

Lemma all_values_equal_self (cols : list string) (o : Series) (b : bool) :
  all_values_equal cols o o = Ok b -> b = true.
Proof.
  induction cols as [|c cols IH]; cbn [all_values_equal]; intros H.
  - now injection H as <-.
  - bind_inv H. bind_inv H. bind_inv H.
    rewrite E in E0. injection E0 as <-.
    apply values_equal_self in E1. subst a1. now apply IH.
Qed.

Lemma compare_pair_self mode cols (o : Series) (i j : nat) (st st' : acc) :
  compare_pair mode cols o o i j st = Ok st' ->
  exists row, st' = add_common st row i j.
Proof.
  unfold compare_pair. intros H. bind_inv H.
  apply all_values_equal_self in E. subst a.
  bind_inv H. injection H as <-. eauto.
Qed.

Lemma nothing_to_report_common (h : list json) (st : acc) (row : list json) (i j : nat) :
  nothing_to_report h st -> nothing_to_report h (add_common st row i j).
Proof. intros H. exact H. Qed.

Lemma map_match_orig_loop_self cols df (m : acct_map) (h : list json) :
  forall entries st st',
    (forall k i, In (k, i) entries -> acct_map_get m k = Some i) ->
    nothing_to_report h st ->
    map_match_orig_loop cols df df m entries st = Ok st' ->
    nothing_to_report h st'.
Proof.
  induction entries as [|[k i] entries IH]; cbn [map_match_orig_loop];
    intros st st' Hm Hst H.
  - now injection H as <-.
  - bind_inv H. rename a into o, E into Ho.
    bind_inv H. rename a into st1, E into Hstep.
    rewrite (Hm k i (or_introl eq_refl)) in Hstep. rewrite Ho in Hstep.
    cbn [bind] in Hstep. apply compare_pair_self in Hstep as (row & ->).
    refine (IH _ st' _ (nothing_to_report_common h st row i i Hst) H).
    intros k' i' Hin. apply Hm. now right.
Qed.

Lemma map_match_web_loop_self cols df (m : acct_map) :
  forall entries st st',
    (forall k j, In (k, j) entries -> acct_map_get m k = Some j) ->
    map_match_web_loop cols df m entries st = Ok st' -> st' = st.
Proof.
  induction entries as [|[k j] entries IH]; cbn [map_match_web_loop];
    intros st st' Hm H.
  - now injection H as <-.
  - rewrite (Hm k j (or_introl eq_refl)) in H.
    apply IH; [|exact H]. intros k' j' Hin. apply Hm. now right.
Qed.

(** X26. The map matcher run on a sheet against itself has nothing to
    report: no differing row, no one-sided row, zero counts. *)
Theorem map_match_of_a_sheet_with_itself
        (keyf : Series -> result (option string)) (common_cols : list string)
        (df : DataFrame) (h : list json) (st : acc) :
  map_match keyf common_cols df df (acc_init h) = Ok st ->
  nothing_to_report h st.
Proof.
  unfold map_match. intros H.
  bind_inv H. rename a into m, E into Hm.
  bind_inv H. rewrite Hm in E. injection E as <-.
  bind_inv H. rename a into st1, E into Horig.
  apply build_acct_map_first_occurrences in Hm as (Hnd & _).
  assert (Hget : forall k i, In (k, i) m -> acct_map_get m k = Some i)
    by (intros k i; now apply acct_map_get_NoDup).
  apply (map_match_web_loop_self common_cols df m m st1 st Hget) in H. subst st.
  apply (map_match_orig_loop_self common_cols df m h m _ st1 Hget) in Horig;
    [exact Horig|].
  unfold nothing_to_report. cbn. repeat split.
Qed.

Lemma map_match_of_a_sheet_with_itself_witness :
  exists st,
    map_match (map_key to_datetime_unparsed ["Account Number"]) acct_cols
              acct_orig acct_orig (acc_init (make_headers Tripled acct_cols)) = Ok st
    /\ nothing_to_report (make_headers Tripled acct_cols) st.
Proof.
  eexists. split; [vm_compute; reflexivity|].
  refine (map_match_of_a_sheet_with_itself
            (map_key to_datetime_unparsed ["Account Number"]) acct_cols acct_orig _ _ _).
  vm_compute. reflexivity.
Defined.

Lemma row_keys_nth (rows : list Series) :
  forall ks i r, row_keys rows = Ok ks -> nth_error rows i = Some r ->
                 exists k, row_key r 2 = Ok k /\ nth_error ks i = Some k.
Proof.
  induction rows as [|r0 rows IH]; intros ks i r H Hn.
  - destruct i; discriminate.
  - cbn [row_keys] in H. bind_inv H. bind_inv H. injection H as <-.
    destruct i as [|i]; cbn in Hn |- *.
    + injection Hn as <-. eauto.
    + eapply IH; eassumption.
Qed.

Lemma first_index_unique (ks : list row_key_t) (i : nat) (k : row_key_t) :
  NoDup ks -> nth_error ks i = Some k -> first_index k ks O = Some i.
Proof.
  intros Hnd Hn.
  pose proof (positions_first_index k ks O) as Hp.
  destruct (positions k ks O) as [|j js] eqn:Epos.
  - exfalso. assert (Hin : In i (positions k ks O)).
    { apply positions_In. rewrite Nat.sub_0_r. split; [lia | assumption]. }
    rewrite Epos in Hin. contradiction.
  - rewrite Hp. f_equal.
    pose proof (first_index_nth k ks O j Hp) as (_ & Hj). rewrite Nat.sub_0_r in Hj.
    apply (proj1 (NoDup_nth_error ks) Hnd); [|congruence].
    apply nth_error_Some. congruence.
Qed.

Lemma index_match_orig_loop_self mode cols idx df (ks : list row_key_t) (h : list json) :
  (forall k, index_get idx k = positions k ks O) ->
  row_keys (df_rows df) = Ok ks -> NoDup ks ->
  forall rows i st st',
    rows = skipn i (df_rows df) ->
    nothing_to_report h st ->
    index_match_orig_loop mode cols idx df rows i st = Ok st' ->
    nothing_to_report h st'.
Proof.
  intros Hidx Hks Hnd.
  induction rows as [|r rows IH]; cbn [index_match_orig_loop];
    intros i st st' Hrows Hst H.
  - now injection H as <-.
  - bind_inv H. rename a into st1, E into Hstep.
    pose proof (df_loc_skipn df i r rows Hrows) as Hloc.
    apply skipn_cons_nth in Hrows as [Hnth Hrest].
    apply (IH (S i) st1 st' Hrest); [|exact H].
    destruct (row_keys_nth _ ks i r Hks Hnth) as (k & Hk & Hki).
    unfold index_match_orig_step in Hstep. rewrite Hk in Hstep. cbn [bind] in Hstep.
    rewrite Hidx in Hstep.
    pose proof (positions_first_index k ks O) as Hp.
    rewrite (first_index_unique ks i k Hnd Hki) in Hp.
    destruct (positions k ks O) as [|j js]; [discriminate|]. injection Hp as ->.
    rewrite Hloc in Hstep. cbn [bind] in Hstep.
    apply compare_pair_self in Hstep as (row & ->). exact Hst.
Qed.

Lemma index_match_web_loop_self mode cols (oks : list row_key_t) :
  forall rows j st st' ks,
    row_keys rows = Ok ks -> incl ks oks ->
    index_match_web_loop mode cols oks rows j st = Ok st' -> st' = st.
Proof.
  induction rows as [|r rows IH]; cbn [index_match_web_loop row_keys];
    intros j st st' ks Hks Hincl H.
  - now injection H as <-.
  - bind_inv Hks. bind_inv Hks. injection Hks as <-.
    rewrite E in H. cbn [bind] in H.
    assert (Hin : key_in a oks = true).
    { unfold key_in. apply existsb_exists. exists a.
      split; [apply Hincl; now left | now apply key_eqb_eq]. }
    rewrite Hin in H. eapply IH; [eassumption | | eassumption].
    intros k Hk. apply Hincl. now right.
Qed.

(** X27. The indexed matcher run on a sheet against itself has nothing
    to report when the row keys of the sheet are pairwise distinct. *)
Theorem index_match_of_a_sheet_with_itself
        (mode : header_mode) (common_cols : list string)
        (df : DataFrame) (h : list json) (st : acc) (keys : list row_key_t) :
  row_keys (df_rows df) = Ok keys -> NoDup keys ->
  index_match mode common_cols df df (acc_init h) = Ok st ->
  nothing_to_report h st.
Proof.
  intros Hks Hnd H. unfold index_match, build_key_index in H.
  bind_inv H. rename a into idx, E into Hidx.
  bind_inv H. rewrite Hks in E. injection E as <-.
  bind_inv H. rename a into st1, E into Horig.
  apply build_key_index_loop_spec in Hidx as (ks' & Hks' & Hget).
  rewrite Hks in Hks'. injection Hks' as <-.
  apply (index_match_web_loop_self mode common_cols keys _ O st1 st keys Hks
           (incl_refl keys)) in H. subst st.
  apply (index_match_orig_loop_self mode common_cols idx df keys h Hget Hks Hnd
           _ O _ st1 eq_refl) in Horig; [exact Horig|].
  unfold nothing_to_report. cbn. repeat split.
Qed.

Lemma index_match_of_a_sheet_with_itself_witness :
  exists st,
    index_match Simple acct_cols acct_orig acct_orig
                (acc_init (make_headers Simple acct_cols)) = Ok st
    /\ nothing_to_report (make_headers Simple acct_cols) st.
Proof.
  eexists. split; [vm_compute; reflexivity|].
  refine (index_match_of_a_sheet_with_itself
            Simple acct_cols acct_orig _ _ [[KNum 12; KNum 5]; [KNum 12; KNum 7]]
            _ _ _).
  - vm_compute. reflexivity.
  - repeat constructor; cbn; intuition discriminate.
  - vm_compute. reflexivity.
Defined.

(** ** Composite keys: rows without key *)

Lemma composite_parts_none (to_datetime : value -> option string) (row : Series) :
  forall key_cols,
    composite_parts to_datetime row key_cols = Ok None ->
    exists col, In col key_cols /\ key_column_blank row col.
Proof.
  induction key_cols as [|c rest IH]; cbn [composite_parts]; [discriminate|].
  destruct (mem_str c (map fst row)) eqn:Hmem; cbn [negb].
  - destruct (series_get_mem row c Hmem) as (v & Hv). rewrite Hv. cbn [bind].
    destruct (isna v) eqn:Hna.
    + intros _. exists c. split; [now left|]. right. exists v. split; [exact Hv | now left].
    + destruct (String.eqb_spec (PyStr.strip (py_str v)) "") as [Hs | Hs].
      * intros _. exists c. split; [now left|]. right. exists v.
        split; [exact Hv | now right].
      * intros H. bind_inv H. bind_inv H. injection H as H.
        destruct a0 as [ps|]; [discriminate|].
        destruct (IH E0) as (col & Hin & Hb). exists col. split; [now right | exact Hb].
  - intros _. exists c. split; [now left | now left].
Qed.

(** X28. A row has no composite key only when one of the key columns is
    missing from the row or blank in it, and a row that has a key has none
    such; on rows whose cells convert the key function raises nothing. *)
Theorem composite_key_is_missing_only_for_blank_columns
        (to_datetime : value -> option string) (row : Series) (key_cols : list string) :
  (composite_acct_key to_datetime row key_cols = Ok None ->
   exists col, In col key_cols /\ key_column_blank row col)
  /\ (forall k, composite_acct_key to_datetime row key_cols = Ok (Some k) ->
        forall col, In col key_cols -> ~ key_column_blank row col)
  /\ ((forall c v, In (c, v) row -> cell_converts v) ->
      exists r, composite_acct_key to_datetime row key_cols = Ok r).
Proof.
  split; [|split].
  - unfold composite_acct_key. intros H. bind_inv H.
    destruct a as [ps|]; [discriminate|].
    now apply (composite_parts_none to_datetime).
  - intros k Hk col Hin Hb.
    destruct (composite_acct_key_blank to_datetime row key_cols col Hin Hb) as [H | H];
      rewrite H in Hk; discriminate.
  - intros Hrow. unfold composite_acct_key.
    destruct (composite_parts_returns to_datetime row key_cols Hrow) as (ps & ->).
    cbn. eauto.
Qed.

Lemma composite_key_is_missing_only_for_blank_columns_witness :
  composite_acct_key to_datetime_unparsed txn_blank_row
                     ["Account Number"; "Investment Name"; "Purchase Date"] = Ok None
  /\ exists col, In col ["Account Number"; "Investment Name"; "Purchase Date"]
                 /\ key_column_blank txn_blank_row col.
Proof.
  split; [reflexivity|].
  refine (proj1 (composite_key_is_missing_only_for_blank_columns
                   to_datetime_unparsed txn_blank_row
                   ["Account Number"; "Investment Name"; "Purchase Date"]) _).
  reflexivity.
Defined.
